(** * Dual mesh construction (polyglot/create_dual_mesh.c)

    A shallow embedding of [order_nodes_of_dual_face] and
    [create_dual_mesh_from_tet_mesh], and the properties of the dual mesh
    stated about them.

    Conventions of the embedding.
    - A C [int] is a [Z]; the sentinel [-1] is kept as it is.
    - A C [double] / [real_t] is a binary64 [float].
    - A C array is a [list]; every read and write is bounds checked and an
      access outside the array is the fault [OutOfBounds].
    - [ASSERT] is polymec's debugging assertion: it aborts in a debugging
      build and expands to nothing when [NDEBUG] is defined.  The flag
      [ndebug] selects the build.
    - An [int_unordered_set_t] is a [gset Z], an [int_int_unordered_map_t]
      a [gmap Z Z]; a set is traversed in the order of [elements].
    - An [int_array_t] is the list of its [size] elements.  Its storage
      has [int_array_slack] further slots, a parameter of the model
      (core/array.h is not part of these sources); create_dual_mesh.c reads
      none of them, so a write [data[i] = v] to one of them leaves the
      elements as they are, and a write past them is [OutOfBounds].
    - Memory that the program reads before writing it is supplied by the
      environment (fields [uninit_*] below). *)

From Stdlib Require Import ZArith List Floats Lia Bool.
From stdpp Require Import base option list gmap strings.

Local Open Scope Z_scope.
Set Warnings "-clear-no-such-hyp".

(** ** Faults and the result monad *)

Inductive fault : Type :=
  | AssertionFailed (line : Z)   (* ASSERT at this line of create_dual_mesh.c *)
  | OutOfBounds                  (* array access outside its extent *)
  | NullPointer                  (* dereference of NULL *)
  | BadArrayLength.              (* variable length array of length <= 0 *)

Inductive result (A : Type) : Type :=
  | Ok (a : A)
  | Fault (f : fault).
Arguments Ok {A} a.
Arguments Fault {A} f.

#[global] Instance result_ret : MRet result := fun A a => Ok a.
#[global] Instance result_bind : MBind result := fun A B k r =>
  match r with
  | Ok a => k a
  | Fault f => Fault f
  end.

Definition is_ok {A} (r : result A) : bool :=
  match r with Ok _ => true | Fault _ => false end.

(** [arr_get a i] is the read [a[i]], [arr_set a i v] the write [a[i] = v]. *)
Definition arr_get {A} (a : list A) (i : Z) : result A :=
  if 0 <=? i then
    match a !! Z.to_nat i with
    | Some v => Ok v
    | None => Fault OutOfBounds
    end
  else Fault OutOfBounds.

Definition arr_set {A} (a : list A) (i : Z) (v : A) : result (list A) :=
  if (0 <=? i) && (i <? Z.of_nat (length a)) then Ok (<[Z.to_nat i := v]> a)
  else Fault OutOfBounds.

(** [T a[n];] for a length known at run time: the contents are whatever
    [junk] holds. *)
Definition vla {A} (n : Z) (junk : nat -> A) : result (list A) :=
  if 0 <? n then Ok (map junk (seq 0 (Z.to_nat n))) else Fault BadArrayLength.

(** [for (x in l) s = body s x], stopping at the first fault. *)
Fixpoint for_each {S A} (body : S -> A -> result S) (l : list A) (s : S)
  : result S :=
  match l with
  | [] => Ok s
  | a :: l' =>
      match body s a with
      | Ok s' => for_each body l' s'
      | Fault f => Fault f
      end
  end.

(** [for (int i = lo; i < hi; ++i)] *)
Definition for_range {S} (lo hi : Z) (body : S -> Z -> result S) (s : S)
  : result S :=
  for_each body (seqZ lo (hi - lo)) s.

(** ** Geometry types *)

(** [point_t], [vector_t] and [point2_t]; the fields [x], [y], [z] of the
    source are [px], [py], [pz]. *)
Record point_t : Type := { px : float; py : float; pz : float }.
Definition vector_t : Type := point_t.
Record point2_t : Type := { p2x : float; p2y : float }.

(** A plane [sp_func_t] as [plane_sp_func_new (n, x0)] builds it. *)
Record sp_func_t : Type := { plane_n : vector_t; plane_x0 : point_t }.
Definition plane_sp_func_new (n : vector_t) (x0 : point_t) : sp_func_t :=
  {| plane_n := n; plane_x0 := x0 |}.

(** The vertices of a [tetrahedron_t]. *)
Record tetrahedron_t : Type :=
  { tet_v1 : point_t; tet_v2 : point_t; tet_v3 : point_t; tet_v4 : point_t }.

Record dual_face_node_ordering_t : Type :=
  { angle : float; index : Z }.

Definition dual_face_node_cmp (l r : dual_face_node_ordering_t) : Z :=
  if (angle l <? angle r)%float then -1
  else if (angle r <? angle l)%float then 1
  else 0.

(** ** The collaborators of the construction

    Functions of polymec and of the C library that create_dual_mesh.c calls
    and that are defined elsewhere.  The construction is modelled for every
    implementation of them. *)
Class collaborators : Type := {
  (* NDEBUG defined: ASSERT expands to nothing *)
  ndebug : bool;
  (* geometry/tetrahedron.h *)
  tetrahedron_new : tetrahedron_t;
  tetrahedron_compute_circumcenter : tetrahedron_t -> point_t;
  tetrahedron_compute_nearest_point : tetrahedron_t -> point_t -> point_t;
  (* geometry/plane_sp_func.h *)
  plane_sp_func_project : sp_func_t -> point_t -> point2_t;
  (* core/point.h *)
  point_displacement : point_t -> point_t -> vector_t;
  (* geometry/polygon.h: [polygon_ordering (polygon_giftwrap (pts, n))] *)
  polygon_giftwrap_ordering : list point_t -> list Z;
  (* math.h, stdlib.h *)
  atan2 : float -> float -> float;
  qsort : forall A : Type, (A -> A -> Z) -> list A -> list A;
  (* core/array.h: the slots that the storage of an int_array_t has past
     its elements, once [int_array_resize] has given a new array [n] of
     them *)
  int_array_slack : Z -> nat;
  (* contents of storage before its first write: the arrays declared
     while primal edge (or node) [k] is processed, the array of dual face
     [k], and the storage of the dual mesh *)
  uninit_tweener : Z -> nat -> dual_face_node_ordering_t;
  uninit_index : Z -> nat -> Z;
  uninit_node : Z -> nat -> point_t;
  uninit_array : Z -> nat -> Z;
  uninit_mesh_point : nat -> point_t;
  uninit_mesh_int : nat -> Z
}.

Section Construction.
Context {E : collaborators}.

Definition ASSERT (line : Z) (cond : bool) : result unit :=
  if ndebug then Ok tt
  else if cond then Ok tt else Fault (AssertionFailed line).

(** ** order_nodes_of_dual_face (lines 33-89) *)

(** The loop of lines 55-62: the first [i] that is neither end goes to
    slot 1, and the loop is left. *)
Fixpoint place_middle_node (dual_node_indices : list Z) (cands : list Z)
  : result (list Z) :=
  match cands with
  | [] => Ok dual_node_indices
  | i :: cands' =>
      d0 ← arr_get dual_node_indices 0;
      d2 ← arr_get dual_node_indices 2;
      if negb (i =? d0) && negb (i =? d2)
      then arr_set dual_node_indices 1 i
      else place_middle_node dual_node_indices cands'
  end.

(** The body of the loop of lines 70-80; [j] is 0 throughout, the loop
    never advances it. *)
Definition project_tweener (plane : sp_func_t) (dual_nodes : list point_t)
    (dual_node_indices : list Z) (j : Z)
    (tweener_nodes : list dual_face_node_ordering_t) (i : Z)
  : result (list dual_face_node_ordering_t) :=
  d0 ← arr_get dual_node_indices 0;
  d2 ← arr_get dual_node_indices 2;
  if negb (i =? d0) && negb (i =? d2) then
    p ← arr_get dual_nodes i;
    let xi := plane_sp_func_project plane p in
    arr_set tweener_nodes j {| angle := atan2 (p2y xi) (p2x xi); index := i |}
  else Ok tweener_nodes.

(** The body of the loop of lines 85-86. *)
Definition put_back (tweener_nodes : list dual_face_node_ordering_t)
    (dual_node_indices : list Z) (i : Z) : result (list Z) :=
  t ← arr_get tweener_nodes i;
  arr_set dual_node_indices (i + 1) (index t).

(** [tweener_junk] is what the array [tweener_nodes] holds when it is
    declared. *)
Definition order_nodes_of_dual_face (plane : sp_func_t)
    (endpoint_indices : Z * Z) (dual_nodes : list point_t) (num_nodes : Z)
    (tweener_junk : nat -> dual_face_node_ordering_t)
    (dual_node_indices : list Z) : result (list Z) :=
  _ ← ASSERT 39 (2 <=? num_nodes);
  _ ← ASSERT 40 (negb (endpoint_indices.1 =? -1));
  _ ← ASSERT 41 (negb (endpoint_indices.2 =? -1));
  _ ← ASSERT 42 (negb (endpoint_indices.1 =? endpoint_indices.2));
  if num_nodes =? 2 then
    dni ← arr_set dual_node_indices 0 endpoint_indices.1;
    arr_set dni 1 endpoint_indices.2
  else if num_nodes =? 3 then
    dni ← arr_set dual_node_indices 0 endpoint_indices.1;
    dni ← arr_set dni 2 endpoint_indices.2;
    place_middle_node dni (seqZ 0 3)
  else
    tweener_nodes ← vla (num_nodes - 2) tweener_junk;
    let j := 0 in
    tweener_nodes ← for_range 0 num_nodes
      (project_tweener plane dual_nodes dual_node_indices j) tweener_nodes;
    let tweener_nodes := qsort _ dual_face_node_cmp tweener_nodes in
    dni ← arr_set dual_node_indices 0 endpoint_indices.1;
    dni ← for_range 0 (num_nodes - 2) (put_back tweener_nodes) dni;
    arr_set dni (num_nodes - 1) endpoint_indices.1.


(** ** The primal mesh and its tags

    The fields of polymec's [mesh_t] that the construction reads.  The
    three traversals [mesh_cell_next_face], [mesh_face_next_edge] and
    [mesh_face_next_node] are given by the sequences they enumerate, and a
    tag table by the index array of each tag. *)
Record mesh_t : Type := {
  num_cells : Z;
  num_edges : Z;
  num_nodes : Z;
  nodes : list point_t;
  edge_nodes : list Z;
  face_cells : list Z;
  face_centers : list point_t;
  cell_centers : list point_t;
  face_tags : gmap string (list Z);
  edge_tags : gmap string (list Z);
  node_tags : gmap string (list Z);
  mesh_cell_faces : Z -> list Z;
  mesh_face_edges : Z -> list Z;
  mesh_face_nodes : Z -> list Z;
  mesh_cell_face_for_neighbor : Z -> Z -> Z;
  mesh_is_tetrahedral : bool   (* mesh_has_feature (m, MESH_IS_TETRAHEDRAL) *)
}.

(** Modelled from the spec: [mesh_tag] is the tag lookup of section 6,
    [tag(table, name) -> sequence of element indices]; a name that resolves
    to no element contributes nothing. *)
Definition mesh_tag (tags : gmap string (list Z)) (name : string) : list Z :=
  default [] (tags !! name).

(** The index arrays of a list of tag names, one after the other: what the
    loops [for i < num_tags; for f < num_faces] visit. *)
Definition tagged (tags : gmap string (list Z)) (names : list string)
  : list Z :=
  concat (map (mesh_tag tags) names).

Definition int_unordered_set_insert (s : gset Z) (k : Z) : gset Z := {[k]} ∪ s.
Definition int_unordered_set_delete (s : gset Z) (k : Z) : gset Z := s ∖ {[k]}.
Definition int_unordered_set_contains (s : gset Z) (k : Z) : bool :=
  bool_decide (k ∈ s).
Definition int_unordered_set_size (s : gset Z) : Z := Z.of_nat (size s).

(** ** Tagged sets (lines 102-192) *)

Record model_face_sets : Type := {
  boundary_tets : gset Z;
  model_faces : gset Z;
  model_face_edges : gset Z;
  model_face_nodes : gset Z
}.

(** The body shared by the loops of lines 114-131 and 142-159. *)
Definition add_model_face (tet_mesh : mesh_t) (s : model_face_sets)
    (face : Z) : result model_face_sets :=
  let faces := int_unordered_set_insert (model_faces s) face in
  btet1 ← arr_get (face_cells tet_mesh) (2 * face);
  let tets := int_unordered_set_insert (boundary_tets s) btet1 in
  btet2 ← arr_get (face_cells tet_mesh) (2 * face + 1);
  let tets := if negb (btet2 =? -1)
              then int_unordered_set_insert tets btet2 else tets in
  let edges := foldl int_unordered_set_insert (model_face_edges s)
                 (mesh_face_edges tet_mesh face) in
  let fnodes := foldl int_unordered_set_insert (model_face_nodes s)
                 (mesh_face_nodes tet_mesh face) in
  Ok {| boundary_tets := tets; model_faces := faces;
        model_face_edges := edges; model_face_nodes := fnodes |}.

(** The body of the loop of lines 169-175; the state is
    [(model_edges, model_edge_nodes)]. *)
Definition add_model_edge (tet_mesh : mesh_t) (s : gset Z * gset Z)
    (edge : Z) : result (gset Z * gset Z) :=
  let edges := int_unordered_set_insert s.1 edge in
  n1 ← arr_get (edge_nodes tet_mesh) (2 * edge);
  let enodes := int_unordered_set_insert s.2 n1 in
  n2 ← arr_get (edge_nodes tet_mesh) (2 * edge + 1);
  let enodes := int_unordered_set_insert enodes n2 in
  Ok (edges, enodes).

(** The body of the loop of lines 182-191; the state is
    [(model_vertices, model_edge_nodes, model_face_nodes)]. *)
Definition add_model_vertex (s : gset Z * gset Z * gset Z) (vertex : Z)
  : gset Z * gset Z * gset Z :=
  let '(vertices, enodes, fnodes) := s in
  (int_unordered_set_insert vertices vertex,
   int_unordered_set_delete enodes vertex,
   int_unordered_set_delete fnodes vertex).

Record tagged_sets : Type := {
  external_boundary_tets : gset Z;
  external_model_faces : gset Z;
  external_model_face_edges : gset Z;
  internal_boundary_tets : gset Z;
  internal_model_faces : gset Z;
  internal_model_face_edges : gset Z;
  all_model_face_nodes : gset Z;   (* model_face_nodes of the source *)
  model_edges : gset Z;
  model_edge_nodes : gset Z;
  model_vertices : gset Z
}.

Definition build_tagged_sets (tet_mesh : mesh_t)
    (external_model_face_tags internal_model_face_tags
     model_edge_tags model_vertex_tags : list string) : result tagged_sets :=
  ext ← for_each (add_model_face tet_mesh)
          (tagged (face_tags tet_mesh) external_model_face_tags)
          {| boundary_tets := ∅; model_faces := ∅;
             model_face_edges := ∅; model_face_nodes := ∅ |};
  int ← for_each (add_model_face tet_mesh)
          (tagged (face_tags tet_mesh) internal_model_face_tags)
          {| boundary_tets := ∅; model_faces := ∅;
             model_face_edges := ∅; model_face_nodes := model_face_nodes ext |};
  ed ← for_each (add_model_edge tet_mesh)
          (tagged (edge_tags tet_mesh) model_edge_tags) (∅, ∅);
  let '(vertices, enodes, fnodes) :=
    foldl add_model_vertex (∅, ed.2, model_face_nodes int)
      (tagged (node_tags tet_mesh) model_vertex_tags) in
  Ok {| external_boundary_tets := boundary_tets ext;
        external_model_faces := model_faces ext;
        external_model_face_edges := model_face_edges ext;
        internal_boundary_tets := boundary_tets int;
        internal_model_faces := model_faces int;
        internal_model_face_edges := model_face_edges int;
        all_model_face_nodes := fnodes;
        model_edges := ed.1;
        model_edge_nodes := enodes;
        model_vertices := vertices |}.

(** ** Edge and node incidence (lines 194-248) *)

(** [sets[k]]: created on first use, then inserted into
    (lines 212-218, 221-227, 238-244). *)
Definition incidence_insert (sets : list (option (gset Z))) (k v : Z)
  : result (list (option (gset Z))) :=
  s ← arr_get sets k;
  let s := match s with Some s => s | None => ∅ end in
  arr_set sets k (Some (int_unordered_set_insert s v)).

Record incidence : Type := {
  primal_cells_for_edge : list (option (gset Z));
  primal_faces_for_edge : list (option (gset Z));
  primal_boundary_faces_for_node : list (option (gset Z))
}.

Definition incidence_edge (cell face : Z) (inc : incidence) (edge : Z)
  : result incidence :=
  ce ← incidence_insert (primal_cells_for_edge inc) edge cell;
  fe ← incidence_insert (primal_faces_for_edge inc) edge face;
  Ok {| primal_cells_for_edge := ce; primal_faces_for_edge := fe;
        primal_boundary_faces_for_node := primal_boundary_faces_for_node inc |}.

Definition incidence_node (face : Z) (inc : incidence) (node : Z)
  : result incidence :=
  fn ← incidence_insert (primal_boundary_faces_for_node inc) node face;
  Ok {| primal_cells_for_edge := primal_cells_for_edge inc;
        primal_faces_for_edge := primal_faces_for_edge inc;
        primal_boundary_faces_for_node := fn |}.

Definition incidence_face (tet_mesh : mesh_t) (ts : tagged_sets) (cell : Z)
    (inc : incidence) (face : Z) : result incidence :=
  inc ← for_each (incidence_edge cell face)
          (mesh_face_edges tet_mesh face) inc;
  if int_unordered_set_contains (external_model_faces ts) face
     || int_unordered_set_contains (internal_model_faces ts) face
  then for_each (incidence_node face) (mesh_face_nodes tet_mesh face) inc
  else Ok inc.

Definition incidence_cell (tet_mesh : mesh_t) (ts : tagged_sets)
    (inc : incidence) (cell : Z) : result incidence :=
  for_each (incidence_face tet_mesh ts cell)
    (mesh_cell_faces tet_mesh cell) inc.

Definition build_incidence (tet_mesh : mesh_t) (ts : tagged_sets)
  : result incidence :=
  for_range 0 (num_cells tet_mesh) (incidence_cell tet_mesh ts)
    {| primal_cells_for_edge :=
         replicate (Z.to_nat (num_edges tet_mesh)) None;
       primal_faces_for_edge :=
         replicate (Z.to_nat (num_edges tet_mesh)) None;
       primal_boundary_faces_for_node :=
         replicate (Z.to_nat (num_nodes tet_mesh)) None |}.

(** ** Entity counts (lines 250-289) *)

(** [s->size] through a pointer that may be NULL. *)
Definition size_of (s : option (gset Z)) : result Z :=
  match s with
  | Some s => Ok (int_unordered_set_size s)
  | None => Fault NullPointer
  end.

(** [int_unordered_set_next (s, ...)] through a pointer that may be NULL:
    the elements it will enumerate. *)
Definition elements_of (s : option (gset Z)) : result (list Z) :=
  match s with
  | Some s => Ok (elements s)
  | None => Fault NullPointer
  end.

Definition is_null {A} (p : option A) : bool :=
  match p with Some _ => false | None => true end.

Definition count_dual_nodes (tet_mesh : mesh_t) (ts : tagged_sets) : Z :=
  int_unordered_set_size (external_model_faces ts)
  + int_unordered_set_size (internal_model_faces ts)
  + num_cells tet_mesh
  + int_unordered_set_size (model_edges ts)
  + int_unordered_set_size (model_vertices ts).

(** Lines 256-261. *)
Definition count_node_faces (inc : incidence) (count : Z) (n : Z)
  : result Z :=
  boundary_faces_for_node ← arr_get (primal_boundary_faces_for_node inc) n;
  match boundary_faces_for_node with
  | Some s => Ok (count + int_unordered_set_size s)
  | None => Ok count
  end.

(** Lines 265-275. *)
Definition count_model_edge_faces (ts : tagged_sets) (inc : incidence)
    (count : Z) (edge : Z) : result Z :=
  faces_for_edge ← arr_get (primal_faces_for_edge inc) edge;
  faces ← elements_of faces_for_edge;
  Ok (foldl (fun count face =>
        if int_unordered_set_contains (external_model_faces ts) face
           || int_unordered_set_contains (internal_model_faces ts) face
        then count + 1 else count) count faces).

(** Lines 280-285. *)
Definition count_model_vertex_faces (inc : incidence) (count : Z) (node : Z)
  : result Z :=
  boundary_faces_for_node ← arr_get (primal_boundary_faces_for_node inc) node;
  _ ← ASSERT 283 (negb (is_null boundary_faces_for_node));
  n ← size_of boundary_faces_for_node;
  Ok (count + n).

Definition count_dual_faces_from_boundary_vertices (tet_mesh : mesh_t)
    (ts : tagged_sets) (inc : incidence) : result Z :=
  count ← for_range 0 (num_nodes tet_mesh) (count_node_faces inc) 0;
  count ← for_each (count_model_edge_faces ts inc)
            (elements (model_edges ts)) count;
  for_each (count_model_vertex_faces inc) (elements (model_vertices ts)) count.

Definition count_dual_faces (tet_mesh : mesh_t) (ts : tagged_sets)
    (num_dual_faces_from_boundary_vertices : Z) : Z :=
  num_edges tet_mesh
  + int_unordered_set_size (external_model_face_edges ts)
  + num_dual_faces_from_boundary_vertices.


(** ** The dual mesh

    The fields of the output [mesh_t] that the construction writes. *)
Record dual_mesh_t : Type := {
  dm_num_cells : Z;
  dm_num_faces : Z;
  dm_num_nodes : Z;
  dm_nodes : list point_t;
  dm_face_node_offsets : list Z;
  dm_face_nodes : list Z;
  dm_cell_face_offsets : list Z;
  dm_cell_faces : list Z;
  dm_face_cells : list Z
}.

(** Modelled from the spec: [mesh_new] (core/mesh.h) allocates the output
    of section 6: a node array sized to the node count, offset tables of
    length face-count+1 and cell-count+1, and face->cell pairs.  The offset
    tables start at zero and every face->cell slot at -1, the value that
    lines 658-661 test for; the flattened arrays come from
    [mesh_reserve_connectivity_storage]. *)
Definition mesh_new (num_cells num_faces num_nodes : Z) : dual_mesh_t :=
  {| dm_num_cells := num_cells;
     dm_num_faces := num_faces;
     dm_num_nodes := num_nodes;
     dm_nodes := map uninit_mesh_point (seq 0 (Z.to_nat num_nodes));
     dm_face_node_offsets := replicate (Z.to_nat (num_faces + 1)) 0;
     dm_face_nodes := [];
     dm_cell_face_offsets := replicate (Z.to_nat (num_cells + 1)) 0;
     dm_cell_faces := [];
     dm_face_cells := replicate (Z.to_nat (2 * num_faces)) (-1) |}.

(** Modelled from the spec: [mesh_reserve_connectivity_storage] sizes the
    two flattened arrays by the last entry of their offset tables. *)
Definition mesh_reserve_connectivity_storage (m : dual_mesh_t)
  : result dual_mesh_t :=
  ncf ← arr_get (dm_cell_face_offsets m) (dm_num_cells m);
  nfn ← arr_get (dm_face_node_offsets m) (dm_num_faces m);
  Ok {| dm_num_cells := dm_num_cells m;
        dm_num_faces := dm_num_faces m;
        dm_num_nodes := dm_num_nodes m;
        dm_nodes := dm_nodes m;
        dm_face_node_offsets := dm_face_node_offsets m;
        dm_face_nodes := map uninit_mesh_int (seq 0 (Z.to_nat nfn));
        dm_cell_face_offsets := dm_cell_face_offsets m;
        dm_cell_faces := map uninit_mesh_int (seq 0 (Z.to_nat ncf));
        dm_face_cells := dm_face_cells m |}.

(** [memcpy (&dst[off], src, sizeof(T)*n)] *)
Definition memcpy_at {A} (dst : list A) (off : Z) (src : list A) (n : Z)
  : result (list A) :=
  if (0 <=? off) && (0 <=? n) && (n <=? Z.of_nat (length src))
     && (off + n <=? Z.of_nat (length dst))
  then Ok (take (Z.to_nat off) dst ++ take (Z.to_nat n) src
           ++ drop (Z.to_nat (off + n)) dst)
  else Fault OutOfBounds.

(** [int_array_new] followed by [int_array_resize (a, n)], of polymec's
    core/array.h, which is not part of these sources: the array has [n]
    elements that nothing has written yet.  What they hold ([junk]) and
    the storage past them ([int_array_slack]) are parameters of the
    model; a negative [n] is no length. *)
Definition int_array_resize (n : Z) (junk : nat -> Z) : result (list Z) :=
  if 0 <=? n then Ok (map junk (seq 0 (Z.to_nat n)))
  else Fault BadArrayLength.

(** [a->data[i] = v], where [a] holds the [size] elements of the array:
    below [size] the element is replaced; in the [int_array_slack] slots
    past them the value goes to storage that is not part of the elements
    and is never read; further out the write is outside the storage. *)
Definition int_array_store (a : list Z) (i v : Z) : result (list Z) :=
  let size := Z.of_nat (length a) in
  if (0 <=? i) && (i <? size) then Ok (<[Z.to_nat i := v]> a)
  else if (size <=? i) && (i <? size + Z.of_nat (int_array_slack size))
  then Ok a
  else Fault OutOfBounds.

(** [*int_int_unordered_map_get (m, k)] after the assertion that the
    pointer is not NULL. *)
Definition map_deref (line : Z) (m : gmap Z Z) (k : Z) : result Z :=
  _ ← ASSERT line (negb (is_null (m !! k)));
  match m !! k with
  | Some v => Ok v
  | None => Fault NullPointer
  end.

(** ** Dual vertices (lines 297-365) *)

Record vertex_state : Type := {
  dv_offset : Z;
  dv_nodes : list point_t;                 (* dual_mesh->nodes *)
  dual_node_for_model_face : gmap Z Z;
  dual_node_for_edge : gmap Z Z
}.

(** Lines 300-307.  [tet] is the tetrahedron of line 298; nothing gives it
    the vertices of cell [c]. *)
Definition cell_dual_vertex (tet : tetrahedron_t) (st : vertex_state)
    (c : Z) : result vertex_state :=
  let xc := tetrahedron_compute_circumcenter tet in
  nodes' ← arr_set (dv_nodes st) (dv_offset st)
             (tetrahedron_compute_nearest_point tet xc);
  Ok {| dv_offset := dv_offset st + 1;
        dv_nodes := nodes';
        dual_node_for_model_face := dual_node_for_model_face st;
        dual_node_for_edge := dual_node_for_edge st |}.

(** Lines 316-321 and 327-332. *)
Definition model_face_dual_vertex (tet_mesh : mesh_t) (st : vertex_state)
    (face : Z) : result vertex_state :=
  xf ← arr_get (face_centers tet_mesh) face;
  nodes' ← arr_set (dv_nodes st) (dv_offset st) xf;
  Ok {| dv_offset := dv_offset st + 1;
        dv_nodes := nodes';
        dual_node_for_model_face :=
          <[face := dv_offset st]> (dual_node_for_model_face st);
        dual_node_for_edge := dual_node_for_edge st |}.

Definition midpoint (x1 x2 : point_t) : point_t :=
  {| px := (0.5 * (px x1 + px x2))%float;
     py := (0.5 * (py x1 + py x2))%float;
     pz := (0.5 * (pz x1 + pz x2))%float |}.

(** Lines 341-351: [e] is the position in the tag, [edge] is [tag[e]]. *)
Definition model_edge_dual_vertex (tet_mesh : mesh_t) (st : vertex_state)
    (e_edge : Z * Z) : result vertex_state :=
  let '(e, edge) := e_edge in
  n1 ← arr_get (edge_nodes tet_mesh) (2 * edge);
  n2 ← arr_get (edge_nodes tet_mesh) (2 * edge + 1);
  x1 ← arr_get (nodes tet_mesh) n1;
  x2 ← arr_get (nodes tet_mesh) n2;
  nodes' ← arr_set (dv_nodes st) (dv_offset st) (midpoint x1 x2);
  Ok {| dv_offset := dv_offset st + 1;
        dv_nodes := nodes';
        dual_node_for_model_face := dual_node_for_model_face st;
        dual_node_for_edge := <[e := dv_offset st]> (dual_node_for_edge st) |}.

(** Lines 359-363. *)
Definition model_vertex_dual_vertex (tet_mesh : mesh_t) (st : vertex_state)
    (vertex : Z) : result vertex_state :=
  xv ← arr_get (nodes tet_mesh) vertex;
  nodes' ← arr_set (dv_nodes st) (dv_offset st) xv;
  Ok {| dv_offset := dv_offset st + 1;
        dv_nodes := nodes';
        dual_node_for_model_face := dual_node_for_model_face st;
        dual_node_for_edge := dual_node_for_edge st |}.

(** The entries of one tag with their positions, [(e, tag[e])]. *)
Definition enumerate (tag : list Z) : list (Z * Z) :=
  zip (seqZ 0 (Z.of_nat (length tag))) tag.

(** What the loops [for i < num_tags; for e < num_edges] visit, with the
    position [e] restarting at 0 in every tag. *)
Definition tagged_with_positions (tags : gmap string (list Z))
    (names : list string) : list (Z * Z) :=
  concat (map (fun name => enumerate (mesh_tag tags name)) names).

Definition generate_dual_vertices (tet_mesh : mesh_t)
    (external_model_face_tags internal_model_face_tags
     model_edge_tags model_vertex_tags : list string)
    (num_dual_nodes : Z) (dual_mesh_nodes : list point_t)
  : result vertex_state :=
  let tet := tetrahedron_new in
  st ← for_range 0 (num_cells tet_mesh) (cell_dual_vertex tet)
         {| dv_offset := 0; dv_nodes := dual_mesh_nodes;
            dual_node_for_model_face := ∅; dual_node_for_edge := ∅ |};
  st ← for_each (model_face_dual_vertex tet_mesh)
         (tagged (face_tags tet_mesh) external_model_face_tags) st;
  st ← for_each (model_face_dual_vertex tet_mesh)
         (tagged (face_tags tet_mesh) internal_model_face_tags) st;
  st ← for_each (model_edge_dual_vertex tet_mesh)
         (tagged_with_positions (edge_tags tet_mesh) model_edge_tags) st;
  st ← for_each (model_vertex_dual_vertex tet_mesh)
         (tagged (node_tags tet_mesh) model_vertex_tags) st;
  _ ← ASSERT 365 (dv_offset st =? num_dual_nodes);
  Ok st.


(** ** Dual faces of primal edges (lines 367-571) *)

Record face_state : Type := {
  df_offset : Z;
  face_node_offsets : list Z;              (* dual_mesh->face_node_offsets *)
  nodes_for_dual_face : list (option (list Z))
}.

(** The state of the loop of lines 395-407. *)
Record gathered : Type := {
  g_c : Z;
  g_dual_nodes : list point_t;
  g_dual_node_indices : list Z;
  g_endpoint_indices : Z * Z
}.

(** Lines 397-406. *)
Definition gather_boundary_cell (tet_mesh : mesh_t) (ts : tagged_sets)
    (g : gathered) (cell : Z) : result gathered :=
  xc ← arr_get (cell_centers tet_mesh) cell;
  dn ← arr_set (g_dual_nodes g) (g_c g) xc;
  dni ← arr_set (g_dual_node_indices g) (g_c g) cell;
  let ep := g_endpoint_indices g in
  let ep :=
    if int_unordered_set_contains (external_boundary_tets ts) cell then
      if ep.1 =? -1 then (g_c g, ep.2) else (ep.1, g_c g)
    else ep in
  Ok {| g_c := g_c g + 1; g_dual_nodes := dn;
        g_dual_node_indices := dni; g_endpoint_indices := ep |}.

(** Lines 456-458; the endpoints are not touched. *)
Definition gather_cell (tet_mesh : mesh_t) (g : gathered) (cell : Z)
  : result gathered :=
  xc ← arr_get (cell_centers tet_mesh) cell;
  dn ← arr_set (g_dual_nodes g) (g_c g) xc;
  dni ← arr_set (g_dual_node_indices g) (g_c g) cell;
  Ok {| g_c := g_c g + 1; g_dual_nodes := dn;
        g_dual_node_indices := dni;
        g_endpoint_indices := g_endpoint_indices g |}.

(** Line 554; the state is [(c, dual_nodes)]. *)
Definition gather_cell_center (tet_mesh : mesh_t) (g : Z * list point_t)
    (cell : Z) : result (Z * list point_t) :=
  xc ← arr_get (cell_centers tet_mesh) cell;
  dn ← arr_set g.2 g.1 xc;
  Ok (g.1 + 1, dn).

(** Lines 390-439. *)
Definition external_face_edge (tet_mesh : mesh_t) (ts : tagged_sets)
    (dual_node_for_edge : gmap Z Z) (is_model_edge : bool)
    (cells_for_edge : option (gset Z)) (st : face_state) (edge : Z)
  : result face_state :=
  num_nodes ← size_of cells_for_edge;
  dual_nodes ← vla num_nodes (uninit_node edge);
  dual_node_indices ← vla num_nodes (uninit_index edge);
  cells ← elements_of cells_for_edge;
  g ← for_each (gather_boundary_cell tet_mesh ts) cells
        {| g_c := 0; g_dual_nodes := dual_nodes;
           g_dual_node_indices := dual_node_indices;
           g_endpoint_indices := (-1, -1) |};
  n1 ← arr_get (edge_nodes tet_mesh) (2 * edge);
  n2 ← arr_get (edge_nodes tet_mesh) (2 * edge + 1);
  x1 ← arr_get (nodes tet_mesh) n1;
  x2 ← arr_get (nodes tet_mesh) n2;
  let edge_vector := point_displacement x1 x2 in
  let edge_plane := plane_sp_func_new edge_vector x1 in
  dual_node_indices ←
    order_nodes_of_dual_face edge_plane (g_endpoint_indices g)
      (g_dual_nodes g) num_nodes (uninit_tweener edge)
      (g_dual_node_indices g);
  let num_face_nodes := if is_model_edge then num_nodes + 1 else num_nodes in
  _ ← ASSERT 423 (3 <=? num_face_nodes);
  off ← arr_get (face_node_offsets st) (df_offset st);
  fno ← arr_set (face_node_offsets st) (df_offset st + 1)
          (off + num_face_nodes);
  (* int_array_new: the empty array, stored at line 426 before it is resized *)
  nfdf ← arr_set (nodes_for_dual_face st) (df_offset st) (Some []);
  face_nodes ← int_array_resize num_face_nodes (uninit_array (df_offset st));
  face_nodes ← memcpy_at face_nodes 0 dual_node_indices num_nodes;
  face_nodes ←
    (if is_model_edge then
       dual_node_from_edge ← map_deref 435 dual_node_for_edge edge;
       int_array_store face_nodes num_nodes dual_node_from_edge
     else Ok face_nodes);
  (* face_nodes is the array that nodes_for_dual_face[df_offset] points to *)
  nfdf ← arr_set nfdf (df_offset st) (Some face_nodes);
  Ok {| df_offset := df_offset st + 1; face_node_offsets := fno;
        nodes_for_dual_face := nfdf |}.

Record transitions : Type := {
  start_index1 : Z;
  start_index2 : Z;
  stop_index1 : Z;
  stop_index2 : Z
}.

(** Lines 475-501.  [%] is C's remainder. *)
Definition find_transition (tet_mesh : mesh_t) (ts : tagged_sets)
    (num_cells : Z) (dual_node_indices ordering : list Z) (t : transitions)
    (i : Z) : result transitions :=
  o1 ← arr_get ordering i;
  this_cell ← arr_get dual_node_indices o1;
  o2 ← arr_get ordering (Z.rem (i + 1) num_cells);
  next_cell ← arr_get dual_node_indices o2;
  if int_unordered_set_contains (internal_boundary_tets ts) this_cell
     && int_unordered_set_contains (internal_boundary_tets ts) next_cell
  then
    let shared_face :=
      mesh_cell_face_for_neighbor tet_mesh this_cell next_cell in
    if negb (shared_face =? -1)
       && int_unordered_set_contains (internal_model_faces ts) shared_face
    then
      if start_index1 t =? -1 then
        Ok {| start_index1 := next_cell; start_index2 := start_index2 t;
              stop_index1 := stop_index1 t; stop_index2 := this_cell |}
      else
        Ok {| start_index1 := start_index1 t; start_index2 := next_cell;
              stop_index1 := this_cell; stop_index2 := stop_index2 t |}
    else Ok t
  else Ok t.

(** Lines 515-516 and 528-529:
    [nodes->data[i] = dual_node_indices[ordering[(start + i) % num_cells]]]. *)
Definition copy_ring_node (num_cells start : Z)
    (dual_node_indices ordering : list Z) (face_nodes : list Z) (i : Z)
  : result (list Z) :=
  let j := Z.rem (start + i) num_cells in
  o ← arr_get ordering j;
  v ← arr_get dual_node_indices o;
  int_array_store face_nodes i v.

(** Lines 450-542. *)
Definition internal_face_edge (tet_mesh : mesh_t) (ts : tagged_sets)
    (dual_node_for_edge : gmap Z Z) (is_model_edge : bool)
    (cells_for_edge : option (gset Z)) (st : face_state) (edge : Z)
  : result face_state :=
  num_cells ← size_of cells_for_edge;
  dual_nodes ← vla num_cells (uninit_node edge);
  dual_node_indices ← vla num_cells (uninit_index edge);
  cells ← elements_of cells_for_edge;
  g ← for_each (gather_cell tet_mesh) cells
        {| g_c := 0; g_dual_nodes := dual_nodes;
           g_dual_node_indices := dual_node_indices;
           g_endpoint_indices := (-1, -1) |};
  let dual_node_indices := g_dual_node_indices g in
  let ordering := polygon_giftwrap_ordering (g_dual_nodes g) in
  t ← for_range 0 num_cells
        (find_transition tet_mesh ts num_cells dual_node_indices ordering)
        {| start_index1 := -1; start_index2 := -1;
           stop_index1 := -1; stop_index2 := -1 |};
  let num_nodes1 := stop_index1 t - start_index1 t + 1 in
  let num_face1_nodes := if is_model_edge then num_nodes1 + 1 else num_nodes1 in
  _ ← ASSERT 508 (3 <=? num_face1_nodes);
  off ← arr_get (face_node_offsets st) (df_offset st);
  fno ← arr_set (face_node_offsets st) (df_offset st + 1)
          (off + num_face1_nodes);
  nfdf ← arr_set (nodes_for_dual_face st) (df_offset st) (Some []);
  face1_nodes ← int_array_resize num_nodes1 (uninit_array (df_offset st));
  face1_nodes ← for_range (start_index1 t) (stop_index1 t + 1)
    (copy_ring_node num_cells (start_index1 t) dual_node_indices ordering)
    face1_nodes;
  let num_nodes2 := stop_index2 t - start_index2 t + 1 in
  let num_face2_nodes := if is_model_edge then num_nodes2 + 1 else num_nodes2 in
  _ ← ASSERT 521 (3 <=? num_face2_nodes);
  off ← arr_get fno (df_offset st + 1);
  fno ← arr_set fno (df_offset st + 2) (off + num_face2_nodes);
  nfdf ← arr_set nfdf (df_offset st + 1) (Some []);
  face2_nodes ← int_array_resize num_nodes2 (uninit_array (df_offset st + 1));
  (* line 529 writes to face1_nodes, and the loop runs to num_nodes2 included *)
  face1_nodes ← for_range 0 (num_nodes2 + 1)
    (copy_ring_node num_cells (start_index2 t) dual_node_indices ordering)
    face1_nodes;
  '(face1_nodes, face2_nodes) ←
    (if is_model_edge then
       dual_node_from_edge ← map_deref 537 dual_node_for_edge edge;
       (* lines 539-540: the arrays have num_nodes1 and num_nodes2
          elements, the two writes are at the first slot past them *)
       face1_nodes ← int_array_store face1_nodes num_nodes1 dual_node_from_edge;
       face2_nodes ← int_array_store face2_nodes num_nodes2 dual_node_from_edge;
       Ok (face1_nodes, face2_nodes)
     else Ok (face1_nodes, face2_nodes));
  (* the two arrays are the ones nodes_for_dual_face points to *)
  nfdf ← arr_set nfdf (df_offset st) (Some face1_nodes);
  nfdf ← arr_set nfdf (df_offset st + 1) (Some face2_nodes);
  Ok {| df_offset := df_offset st + 2; face_node_offsets := fno;
        nodes_for_dual_face := nfdf |}.

(** Lines 550-568. *)
Definition interior_edge (tet_mesh : mesh_t)
    (cells_for_edge : option (gset Z)) (st : face_state) (edge : Z)
  : result face_state :=
  num_cells ← size_of cells_for_edge;
  dual_nodes ← vla num_cells (uninit_node edge);
  cells ← elements_of cells_for_edge;
  g ← for_each (gather_cell_center tet_mesh) cells (0, dual_nodes);
  off ← arr_get (face_node_offsets st) (df_offset st);
  fno ← arr_set (face_node_offsets st) (df_offset st + 1) (off + num_cells);
  let ordering := polygon_giftwrap_ordering g.2 in
  face_nodes ← int_array_resize num_cells (uninit_array (df_offset st));
  face_nodes ← memcpy_at face_nodes 0 ordering num_cells;
  nfdf ← arr_set (nodes_for_dual_face st) (df_offset st) (Some face_nodes);
  Ok {| df_offset := df_offset st + 1; face_node_offsets := fno;
        nodes_for_dual_face := nfdf |}.

(** The body of the loop over primal edges, lines 374-569. *)
Definition dual_faces_for_edge (tet_mesh : mesh_t) (ts : tagged_sets)
    (inc : incidence) (dual_node_for_edge : gmap Z Z) (st : face_state)
    (edge : Z) : result face_state :=
  cells_for_edge ← arr_get (primal_cells_for_edge inc) edge;
  _ ← ASSERT 375 (negb (is_null cells_for_edge));
  let is_external_face_edge :=
    int_unordered_set_contains (external_model_face_edges ts) edge in
  let is_internal_face_edge :=
    int_unordered_set_contains (internal_model_face_edges ts) edge in
  let is_model_edge := int_unordered_set_contains (model_edges ts) edge in
  if is_external_face_edge then
    external_face_edge tet_mesh ts dual_node_for_edge is_model_edge
      cells_for_edge st edge
  else if is_internal_face_edge then
    internal_face_edge tet_mesh ts dual_node_for_edge is_model_edge
      cells_for_edge st edge
  else interior_edge tet_mesh cells_for_edge st edge.

(** Lines 368-571. *)
Definition generate_edge_faces (tet_mesh : mesh_t) (ts : tagged_sets)
    (inc : incidence) (dual_node_for_edge : gmap Z Z) (num_dual_faces : Z)
    (dual_mesh_face_node_offsets : list Z) : result face_state :=
  fno ← arr_set dual_mesh_face_node_offsets 0 0;
  st ← for_range 0 (num_edges tet_mesh)
         (dual_faces_for_edge tet_mesh ts inc dual_node_for_edge)
         {| df_offset := 0; face_node_offsets := fno;
            nodes_for_dual_face :=
              replicate (Z.to_nat num_dual_faces) None |};
  _ ← ASSERT 571 (df_offset st =? num_dual_faces);
  Ok st.

(** ** Dual faces of tagged primal nodes (lines 573-640) *)

(** Lines 591-595; the state is [(i, dual_nodes)]. *)
Definition gather_model_face_node (dual_node_for_model_face : gmap Z Z)
    (dual_mesh_nodes : list point_t) (g : Z * list point_t) (bface : Z)
  : result (Z * list point_t) :=
  dual_node ← map_deref 593 dual_node_for_model_face bface;
  xd ← arr_get dual_mesh_nodes dual_node;
  dn ← arr_set g.2 g.1 xd;
  Ok (g.1 + 1, dn).

(** Lines 579-606. *)
Definition dual_face_for_model_face_node (ts : tagged_sets) (inc : incidence)
    (vs : vertex_state) (st : face_state) (node : Z) : result face_state :=
  if negb (int_unordered_set_contains (model_edge_nodes ts) node) then
    boundary_faces_for_node ←
      arr_get (primal_boundary_faces_for_node inc) node;
    _ ← ASSERT 585 (negb (is_null boundary_faces_for_node));
    num_dual_nodes ← size_of boundary_faces_for_node;
    dual_nodes ← vla num_dual_nodes (uninit_node node);
    bfaces ← elements_of boundary_faces_for_node;
    g ← for_each (gather_model_face_node (dual_node_for_model_face vs)
                    (dv_nodes vs)) bfaces (0, dual_nodes);
    let ordering := polygon_giftwrap_ordering g.2 in
    face_nodes ← int_array_resize num_dual_nodes (uninit_array (df_offset st));
    face_nodes ← memcpy_at face_nodes 0 ordering num_dual_nodes;
    nfdf ← arr_set (nodes_for_dual_face st) (df_offset st) (Some face_nodes);
    Ok {| df_offset := df_offset st + 1;
          face_node_offsets := face_node_offsets st;
          nodes_for_dual_face := nfdf |}
  else Ok st.

(** Lines 613-626: the faces of a model edge are traversed and nothing is
    done with them. *)
Definition visit_model_edge (inc : incidence) (u : unit) (edge : Z)
  : result unit :=
  faces_for_edge ← arr_get (primal_faces_for_edge inc) edge;
  _ ← elements_of faces_for_edge;
  Ok u.

(** Lines 630-639: likewise for the boundary faces of a model vertex. *)
Definition visit_model_vertex (inc : incidence) (u : unit) (node : Z)
  : result unit :=
  boundary_faces_for_node ← arr_get (primal_boundary_faces_for_node inc) node;
  _ ← elements_of boundary_faces_for_node;
  Ok u.

Definition generate_node_faces (ts : tagged_sets) (inc : incidence)
    (vs : vertex_state) (st : face_state) : result face_state :=
  st ← for_each (dual_face_for_model_face_node ts inc vs)
         (elements (all_model_face_nodes ts)) st;
  _ ← for_each (visit_model_edge inc) (elements (model_edges ts)) tt;
  _ ← for_each (visit_model_vertex inc) (elements (model_vertices ts)) tt;
  Ok st.

(** ** Dual cells and compaction (lines 642-668) *)

(** Lines 643-646: the counter and the zeroed array of face lists; the
    assembly itself is absent from the source. *)
Definition assemble_dual_cells (num_dual_cells : Z)
  : Z * list (option (list Z)) :=
  (0, replicate (Z.to_nat num_dual_cells) None).

(** Lines 657-661. *)
Definition record_face_cell (c : Z) (face_cells : list Z) (face : Z)
  : result (list Z) :=
  s0 ← arr_get face_cells (2 * face);
  if s0 =? -1 then arr_set face_cells (2 * face) c
  else arr_set face_cells (2 * face + 1) c.

(** Lines 653-662. *)
Definition compact_cell (faces_for_dual_cell : list (option (list Z)))
    (dual_mesh : dual_mesh_t) (c : Z) : result dual_mesh_t :=
  cell_faces ← arr_get faces_for_dual_cell c;
  match cell_faces with
  | None => Fault NullPointer
  | Some cell_faces =>
      off ← arr_get (dm_cell_face_offsets dual_mesh) c;
      cf ← memcpy_at (dm_cell_faces dual_mesh) off cell_faces
             (Z.of_nat (length cell_faces));
      fc ← for_each (record_face_cell c) cell_faces (dm_face_cells dual_mesh);
      Ok {| dm_num_cells := dm_num_cells dual_mesh;
            dm_num_faces := dm_num_faces dual_mesh;
            dm_num_nodes := dm_num_nodes dual_mesh;
            dm_nodes := dm_nodes dual_mesh;
            dm_face_node_offsets := dm_face_node_offsets dual_mesh;
            dm_face_nodes := dm_face_nodes dual_mesh;
            dm_cell_face_offsets := dm_cell_face_offsets dual_mesh;
            dm_cell_faces := cf;
            dm_face_cells := fc |}
  end.

(** Lines 666-667. *)
Definition compact_face (nodes_for_dual_face : list (option (list Z)))
    (dual_mesh : dual_mesh_t) (f : Z) : result dual_mesh_t :=
  face_nodes ← arr_get nodes_for_dual_face f;
  match face_nodes with
  | None => Fault NullPointer
  | Some face_nodes =>
      off ← arr_get (dm_face_node_offsets dual_mesh) f;
      fn ← memcpy_at (dm_face_nodes dual_mesh) off face_nodes
             (Z.of_nat (length face_nodes));
      Ok {| dm_num_cells := dm_num_cells dual_mesh;
            dm_num_faces := dm_num_faces dual_mesh;
            dm_num_nodes := dm_num_nodes dual_mesh;
            dm_nodes := dm_nodes dual_mesh;
            dm_face_node_offsets := dm_face_node_offsets dual_mesh;
            dm_face_nodes := fn;
            dm_cell_face_offsets := dm_cell_face_offsets dual_mesh;
            dm_cell_faces := dm_cell_faces dual_mesh;
            dm_face_cells := dm_face_cells dual_mesh |}
  end.

(** Lines 650-668. *)
Definition compact (faces_for_dual_cell nodes_for_dual_face
                      : list (option (list Z)))
    (num_dual_cells num_dual_faces : Z) (dual_mesh : dual_mesh_t)
  : result dual_mesh_t :=
  dual_mesh ← mesh_reserve_connectivity_storage dual_mesh;
  dual_mesh ← for_range 0 num_dual_cells (compact_cell faces_for_dual_cell)
                dual_mesh;
  for_range 0 num_dual_faces (compact_face nodes_for_dual_face) dual_mesh.

(** ** create_dual_mesh_from_tet_mesh (lines 91-707) *)

(** What lines 102-640 leave behind for the rest of the function. *)
Record dual_entities : Type := {
  num_dual_nodes : Z;
  num_dual_faces : Z;
  num_dual_cells : Z;
  dual_mesh : dual_mesh_t;
  dual_vertices : vertex_state;
  dual_faces : face_state
}.

(** Lines 102-640: tagged sets, incidence, counts, the new mesh, dual
    vertices and dual faces. *)
Definition generate_dual_entities (tet_mesh : mesh_t)
    (external_model_face_tags internal_model_face_tags
     model_edge_tags model_vertex_tags : list string) : result dual_entities :=
  ts ← build_tagged_sets tet_mesh external_model_face_tags
         internal_model_face_tags model_edge_tags model_vertex_tags;
  inc ← build_incidence tet_mesh ts;
  let num_dual_nodes := count_dual_nodes tet_mesh ts in
  num_dual_faces_from_boundary_vertices ←
    count_dual_faces_from_boundary_vertices tet_mesh ts inc;
  let num_dual_faces :=
    count_dual_faces tet_mesh ts num_dual_faces_from_boundary_vertices in
  let num_dual_cells := num_nodes tet_mesh in
  let dual_mesh := mesh_new num_dual_cells num_dual_faces num_dual_nodes in
  vs ← generate_dual_vertices tet_mesh external_model_face_tags
         internal_model_face_tags model_edge_tags model_vertex_tags
         num_dual_nodes (dm_nodes dual_mesh);
  fs ← generate_edge_faces tet_mesh ts inc (dual_node_for_edge vs)
         num_dual_faces (dm_face_node_offsets dual_mesh);
  fs ← generate_node_faces ts inc vs fs;
  Ok {| num_dual_nodes := num_dual_nodes;
        num_dual_faces := num_dual_faces;
        num_dual_cells := num_dual_cells;
        dual_mesh := dual_mesh;
        dual_vertices := vs;
        dual_faces := fs |}.

(** Lines 642-668.  [dual_mesh->nodes] and [dual_mesh->face_node_offsets]
    are the arrays the earlier stages wrote. *)
Definition assemble_and_compact (de : dual_entities) : result dual_mesh_t :=
  let '(dc_offset, faces_for_dual_cell) :=
    assemble_dual_cells (num_dual_cells de) in
  _ ← ASSERT 647 (dc_offset =? num_dual_cells de);
  let dm := dual_mesh de in
  let dm :=
    {| dm_num_cells := dm_num_cells dm;
       dm_num_faces := dm_num_faces dm;
       dm_num_nodes := dm_num_nodes dm;
       dm_nodes := dv_nodes (dual_vertices de);
       dm_face_node_offsets := face_node_offsets (dual_faces de);
       dm_face_nodes := dm_face_nodes dm;
       dm_cell_face_offsets := dm_cell_face_offsets dm;
       dm_cell_faces := dm_cell_faces dm;
       dm_face_cells := dm_face_cells dm |} in
  compact faces_for_dual_cell (nodes_for_dual_face (dual_faces de))
    (num_dual_cells de) (num_dual_faces de) dm.

(** The storage released at lines 670-701 and the geometry computed by
    [mesh_compute_geometry] are not part of the result modelled here. *)
Definition create_dual_mesh_from_tet_mesh (tet_mesh : mesh_t)
    (external_model_face_tags internal_model_face_tags
     model_edge_tags model_vertex_tags : list string) : result dual_mesh_t :=
  de ← generate_dual_entities tet_mesh external_model_face_tags
         internal_model_face_tags model_edge_tags model_vertex_tags;
  assemble_and_compact de.

(** ** create_dual_mesh (lines 709-731) *)
Definition create_dual_mesh (original_mesh : mesh_t)
    (external_model_face_tags internal_model_face_tags
     model_edge_tags model_vertex_tags : list string) : result dual_mesh_t :=
  _ ← ASSERT 720 (0 <? Z.of_nat (length external_model_face_tags));
  _ ← ASSERT 721 (0 <? Z.of_nat (length model_edge_tags));
  _ ← ASSERT 722 (0 <? Z.of_nat (length model_vertex_tags));
  _ ← ASSERT 725 (mesh_is_tetrahedral original_mesh);
  create_dual_mesh_from_tet_mesh original_mesh external_model_face_tags
    internal_model_face_tags model_edge_tags model_vertex_tags.

End Construction.

Arguments ASSERT {E} line cond.

(** ** A reference implementation of the collaborators

    One implementation of the interface, used to run the construction on
    the sample meshes below.  The theorems hold for every implementation. *)
Module Reference.

Local Open Scope float_scope.

Definition vsub (a b : point_t) : vector_t :=
  {| px := px a - px b; py := py a - py b; pz := pz a - pz b |}.
Definition vadd (a b : point_t) : vector_t :=
  {| px := px a + px b; py := py a + py b; pz := pz a + pz b |}.
Definition vscale (k : float) (a : vector_t) : vector_t :=
  {| px := k * px a; py := k * py a; pz := k * pz a |}.
Definition vdot (a b : vector_t) : float :=
  px a * px b + py a * py b + pz a * pz b.
Definition vcross (a b : vector_t) : vector_t :=
  {| px := py a * pz b - pz a * py b;
     py := pz a * px b - px a * pz b;
     pz := px a * py b - py a * px b |}.
Definition vnormalize (a : vector_t) : vector_t :=
  vscale (1 / sqrt (vdot a a)) a.

(** The vertices a new tetrahedron has before any are set. *)
Definition reference_tetrahedron : tetrahedron_t :=
  {| tet_v1 := {| px := 0; py := 0; pz := 0 |};
     tet_v2 := {| px := 1; py := 0; pz := 0 |};
     tet_v3 := {| px := 0; py := 1; pz := 0 |};
     tet_v4 := {| px := 0; py := 0; pz := 1 |} |}.

Definition circumcenter (t : tetrahedron_t) : point_t :=
  let a := tet_v1 t in
  let ba := vsub (tet_v2 t) a in
  let ca := vsub (tet_v3 t) a in
  let da := vsub (tet_v4 t) a in
  let num :=
    vadd (vscale (vdot ba ba) (vcross ca da))
      (vadd (vscale (vdot ca ca) (vcross da ba))
            (vscale (vdot da da) (vcross ba ca))) in
  vadd a (vscale (1 / (2 * vdot ba (vcross ca da))) num).

(** A point of the tetrahedron close to [p]: [p] itself when it is inside,
    otherwise its barycentric coordinates with the negative ones cut off. *)
Definition nearest_point (t : tetrahedron_t) (p : point_t) : point_t :=
  let a := tet_v1 t in
  let ba := vsub (tet_v2 t) a in
  let ca := vsub (tet_v3 t) a in
  let da := vsub (tet_v4 t) a in
  let pa := vsub p a in
  let vol := vdot ba (vcross ca da) in
  let clip (w : float) := if w <? 0 then 0 else w in
  let l2 := clip (vdot pa (vcross ca da) / vol) in
  let l3 := clip (vdot ba (vcross pa da) / vol) in
  let l4 := clip (vdot ba (vcross ca pa) / vol) in
  let l1 := clip (1 - l2 - l3 - l4) in
  let s := l1 + l2 + l3 + l4 in
  vadd a (vadd (vscale (l2 / s) ba)
               (vadd (vscale (l3 / s) ca) (vscale (l4 / s) da))).

(** The point-in-tetrahedron test: no barycentric coordinate of [p] is
    negative. *)
Definition inside (t : tetrahedron_t) (p : point_t) : bool :=
  let a := tet_v1 t in
  let ba := vsub (tet_v2 t) a in
  let ca := vsub (tet_v3 t) a in
  let da := vsub (tet_v4 t) a in
  let pa := vsub p a in
  let vol := vdot ba (vcross ca da) in
  let l2 := vdot pa (vcross ca da) / vol in
  let l3 := vdot ba (vcross pa da) / vol in
  let l4 := vdot ba (vcross ca pa) / vol in
  (0 <=? l2) && (0 <=? l3) && (0 <=? l4) && (0 <=? 1 - l2 - l3 - l4).

(** Two unit vectors spanning the plane of normal [n]. *)
Definition plane_basis (n : vector_t) : vector_t * vector_t :=
  let n := vnormalize n in
  let axis :=
    if abs (px n) <=? abs (py n)
    then {| px := 1; py := 0; pz := 0 |}
    else {| px := 0; py := 1; pz := 0 |} in
  let e1 := vnormalize (vcross n axis) in
  (e1, vcross n e1).

Definition project (plane : sp_func_t) (p : point_t) : point2_t :=
  let '(e1, e2) := plane_basis (plane_n plane) in
  let v := vsub p (plane_x0 plane) in
  {| p2x := vdot v e1; p2y := vdot v e2 |}.

Definition displacement (a b : point_t) : vector_t := vsub b a.

Definition pi : float := 0x1.921fb54442d18p+1.

(** An approximation of the arc tangent of [y/x] in the quadrant of
    [(x, y)]; it increases with the angle. *)
Definition approx_atan2 (y x : float) : float :=
  let unit_atan (t : float) := t * (pi / 4 + 0x1.178d4fdf3b646p-2 * (1 - abs t)) in
  if abs y <=? abs x then
    if x =? 0 then 0
    else if 0 <? x then unit_atan (y / x)
    else if 0 <=? y then unit_atan (y / x) + pi
    else unit_atan (y / x) - pi
  else
    if 0 <? y then pi / 2 - unit_atan (x / y)
    else - (pi / 2) - unit_atan (x / y).

Fixpoint insert_by {A} (cmp : A -> A -> Z) (a : A) (l : list A) : list A :=
  match l with
  | [] => [a]
  | b :: l' =>
      if (cmp a b <=? 0)%Z then a :: l else b :: insert_by cmp a l'
  end.

(** A stable sort, one of the behaviours [qsort] may have. *)
Definition insertion_sort (A : Type) (cmp : A -> A -> Z) (l : list A)
  : list A :=
  foldr (insert_by cmp) [] l.

Definition centroid (pts : list point_t) : point_t :=
  vscale (1 / of_uint63 (Uint63.of_Z (Z.of_nat (length pts))))
    (foldr vadd {| px := 0; py := 0; pz := 0 |} pts).

(** The first cross product [e1 x (p - c)] that is not zero. *)
Fixpoint ring_normal (c : point_t) (e1 : vector_t) (pts : list point_t)
  : vector_t :=
  match pts with
  | [] => {| px := 0; py := 0; pz := 1 |}
  | p :: pts' =>
      let n := vcross e1 (vsub p c) in
      if 0 <? vdot n n then n else ring_normal c e1 pts'
  end.

(** The indices of coplanar points in convex position, in the order in
    which they go round their centroid. *)
Definition ring_ordering (pts : list point_t) : list Z :=
  match pts with
  | [] => []
  | p0 :: _ =>
      let c := centroid pts in
      let e1 := vnormalize (vsub p0 c) in
      let n := vnormalize (ring_normal c e1 pts) in
      let e2 := vcross n e1 in
      let key (ip : Z * point_t) :=
        {| angle := approx_atan2 (vdot (vsub ip.2 c) e2) (vdot (vsub ip.2 c) e1);
           index := ip.1 |} in
      map index
        (insertion_sort _ dual_face_node_cmp
           (map key (zip (seqZ 0 (Z.of_nat (length pts))) pts)))
  end.

Definition implementation (release : bool) (slack : Z -> nat)
  : collaborators :=
  {| ndebug := release;
     tetrahedron_new := reference_tetrahedron;
     tetrahedron_compute_circumcenter := circumcenter;
     tetrahedron_compute_nearest_point := nearest_point;
     plane_sp_func_project := project;
     point_displacement := displacement;
     polygon_giftwrap_ordering := ring_ordering;
     atan2 := approx_atan2;
     qsort := insertion_sort;
     int_array_slack := slack;
     uninit_tweener := fun _ _ => {| angle := 0; index := (-7)%Z |};
     uninit_index := fun _ _ => (-7)%Z;
     uninit_node := fun _ _ => {| px := 0; py := 0; pz := 0 |};
     uninit_array := fun _ _ => (-7)%Z;
     uninit_mesh_point := fun _ => {| px := 0; py := 0; pz := 0 |};
     uninit_mesh_int := fun _ => (-7)%Z |}.

(** The debugging build and the build with [NDEBUG], on arrays whose
    storage is exactly their elements; and the build with [NDEBUG] on
    arrays whose storage has 16 slots at least. *)
Definition debug_build : collaborators := implementation false (fun _ => 0%nat).
Definition release_build : collaborators := implementation true (fun _ => 0%nat).
Definition roomy_build : collaborators :=
  implementation true (fun n => Z.to_nat (16 - n)).

End Reference.


(** ** Sample meshes *)
Module Samples.

Definition pt (a b c : float) : point_t := {| px := a; py := b; pz := c |}.

(** [table !! i], empty outside the table. *)
Definition row (table : list (list Z)) (i : Z) : list Z :=
  if 0 <=? i then default [] (table !! Z.to_nat i) else [].

(** The centroid of a triangle. *)
Definition third (a b c : point_t) : point_t :=
  Reference.vscale (1 / 3)%float (Reference.vadd a (Reference.vadd b c)).

(** *** A stellated tetrahedron

    The tetrahedron with nodes 0..3 split into four tetrahedra around the
    interior node 4.  Cell [c] holds the outer face [c]; edges 0..5 are the
    outer edges 01 02 03 12 13 23, edges 6..9 join nodes 0..3 to node 4;
    faces 4..9 are the inner faces 014 024 034 124 134 234. *)
Definition stellated_face_cells : list Z :=
  [0; -1;  1; -1;  2; -1;  3; -1;
   0; 1;  0; 2;  1; 2;  0; 3;  1; 3;  2; 3].

Definition stellated_neighbor_face (c c' : Z) : Z :=
  let shares (f : Z) :=
    match stellated_face_cells !! Z.to_nat (2 * f),
          stellated_face_cells !! Z.to_nat (2 * f + 1) with
    | Some a, Some b => ((a =? c) && (b =? c')) || ((a =? c') && (b =? c))
    | _, _ => false
    end in
  match filter (fun f => shares f = true) (seqZ 0 10) with
  | f :: _ => f
  | [] => -1
  end.

Definition stellated_nodes : list point_t :=
  [pt 0 0 0; pt 1 0 0; pt 0 1 0; pt 0 0 1; pt 0.25 0.25 0.25].

Definition stellated_node (i : Z) : point_t :=
  default (pt 0 0 0) (stellated_nodes !! Z.to_nat i).

Definition stellated_face_nodes : list (list Z) :=
  [[0; 1; 2]; [0; 1; 3]; [0; 2; 3]; [1; 2; 3];
   [0; 1; 4]; [0; 2; 4]; [0; 3; 4]; [1; 2; 4]; [1; 3; 4]; [2; 3; 4]].

Definition stellated_tet (faces edges vertices : gmap string (list Z))
  : mesh_t :=
  {| num_cells := 4;
     num_edges := 10;
     num_nodes := 5;
     nodes := stellated_nodes;
     edge_nodes := [0; 1;  0; 2;  0; 3;  1; 2;  1; 3;  2; 3;
                    0; 4;  1; 4;  2; 4;  3; 4];
     face_cells := stellated_face_cells;
     face_centers :=
       map (fun f => third (stellated_node (f !!! 0%nat))
                       (stellated_node (f !!! 1%nat))
                       (stellated_node (f !!! 2%nat)))
         stellated_face_nodes;
     cell_centers :=
       [pt 0.3125 0.3125 0.0625; pt 0.3125 0.0625 0.3125;
        pt 0.0625 0.3125 0.3125; pt 0.3125 0.3125 0.3125];
     face_tags := faces;
     edge_tags := edges;
     node_tags := vertices;
     mesh_cell_faces := row [[0; 4; 5; 7]; [1; 4; 6; 8];
                             [2; 5; 6; 9]; [3; 7; 8; 9]];
     mesh_face_edges := row [[0; 3; 1]; [0; 4; 2]; [1; 5; 2]; [3; 5; 4];
                             [0; 7; 6]; [1; 8; 6]; [2; 9; 6];
                             [3; 8; 7]; [4; 9; 7]; [5; 9; 8]];
     mesh_face_nodes := row stellated_face_nodes;
     mesh_cell_face_for_neighbor := stellated_neighbor_face;
     mesh_is_tetrahedral := true |}.

(** The whole outer surface tagged, with the tag of the outer edges
    given. *)
Definition skin_tagged (edge_tag : list Z) : mesh_t :=
  stellated_tet {[ "skin" := [0; 1; 2; 3] ]} {[ "ridges" := edge_tag ]}
    {[ "corners" := [0; 1; 2; 3] ]}.

(** The stellated tetrahedron with only its skin tagged. *)
Definition face_tagged : mesh_t :=
  stellated_tet {[ "skin" := [0; 1; 2; 3] ]} {[ "ridges" := [] ]}
    {[ "corners" := [] ]}.

(** *** Six tetrahedra around an edge

    Nodes 0 and 1 are the ends of the axis, nodes 2..7 a hexagon around
    it; cell [i] is the tetrahedron on the axis and the hexagon side
    [i, i+1].  Face [i] (0..5) is the inner face through hexagon node [i],
    between cells [i-1] and [i]; faces [6+i] and [12+i] are the outer faces
    of cell [i].  Edge 0 is the axis, edges [1+i] and [7+i] join the ends
    of the axis to hexagon node [i], edge [13+i] is side [i]. *)
Definition nxt (i : Z) : Z := (i + 1) mod 6.
Definition prv (i : Z) : Z := (i + 5) mod 6.

Definition hexagon : list point_t :=
  [pt 1 0 0; pt 0.5 0.875 0; pt (-0.5) 0.875 0;
   pt (-1) 0 0; pt (-0.5) (-0.875) 0; pt 0.5 (-0.875) 0].

Definition hexagon_node (i : Z) : point_t :=
  default (pt 0 0 0) (hexagon !! Z.to_nat i).

Definition quarter (a b : point_t) : point_t :=
  pt (0.25 * (px a + px b)) (0.25 * (py a + py b)) 0.

Definition ring_neighbor_face (c c' : Z) : Z :=
  if (0 <=? c) && (c <? 6) && (0 <=? c') && (c' <? 6) then
    if c' =? nxt c then c' else if c' =? prv c then c else -1
  else -1.

Definition ring_mesh (faces edges vertices : gmap string (list Z)) : mesh_t :=
  let top := pt 0 0 1 in
  let bottom := pt 0 0 (-1) in
  let ks := seqZ 0 6 in
  {| num_cells := 6;
     num_edges := 19;
     num_nodes := 8;
     nodes := top :: bottom :: hexagon;
     edge_nodes :=
       [0; 1] ++ concat (map (fun i => [0; 2 + i]) ks)
              ++ concat (map (fun i => [1; 2 + i]) ks)
              ++ concat (map (fun i => [2 + i; 2 + nxt i]) ks);
     face_cells :=
       concat (map (fun i => [prv i; i]) ks)
       ++ concat (map (fun i => [i; -1]) ks)
       ++ concat (map (fun i => [i; -1]) ks);
     face_centers :=
       map (fun i => third top bottom (hexagon_node i)) ks
       ++ map (fun i => third top (hexagon_node i) (hexagon_node (nxt i))) ks
       ++ map (fun i => third bottom (hexagon_node i) (hexagon_node (nxt i)))
            ks;
     cell_centers :=
       map (fun i => quarter (hexagon_node i) (hexagon_node (nxt i))) ks;
     face_tags := faces;
     edge_tags := edges;
     node_tags := vertices;
     mesh_cell_faces :=
       row (map (fun i => [i; nxt i; 6 + i; 12 + i]) ks);
     mesh_face_edges :=
       row (map (fun i => [0; 1 + i; 7 + i]) ks
            ++ map (fun i => [1 + i; 13 + i; 1 + nxt i]) ks
            ++ map (fun i => [7 + i; 13 + i; 7 + nxt i]) ks);
     mesh_face_nodes :=
       row (map (fun i => [0; 1; 2 + i]) ks
            ++ map (fun i => [0; 2 + i; 2 + nxt i]) ks
            ++ map (fun i => [1; 2 + i; 2 + nxt i]) ks);
     mesh_cell_face_for_neighbor := ring_neighbor_face;
     mesh_is_tetrahedral := true |}.

(** The plane of inner faces 0 and 3 tagged as an interface, with the tag
    of model edges given. *)
Definition interface_tagged (edge_tag : list Z) : mesh_t :=
  ring_mesh {[ "skin" := []; "interface" := [0; 3] ]}
    {[ "axis" := edge_tag ]} {[ "corners" := [] ]}.

(** *** Three dual cells that each list dual face 0 *)
Definition one_face_three_cells : dual_mesh_t :=
  {| dm_num_cells := 3; dm_num_faces := 1; dm_num_nodes := 0;
     dm_nodes := [];
     dm_face_node_offsets := [0; 0];
     dm_face_nodes := [];
     dm_cell_face_offsets := [0; 1; 2; 3];
     dm_cell_faces := [-7; -7; -7];
     dm_face_cells := [-1; -1] |}.

(** *** Two dual faces, of three and of two nodes

    The offset table and the storage that
    [mesh_reserve_connectivity_storage] gives them. *)
Definition two_faces : dual_mesh_t :=
  {| dm_num_cells := 0; dm_num_faces := 2; dm_num_nodes := 0;
     dm_nodes := [];
     dm_face_node_offsets := [0; 3; 5];
     dm_face_nodes := [-7; -7; -7; -7; -7];
     dm_cell_face_offsets := [0];
     dm_cell_faces := [];
     dm_face_cells := [-1; -1; -1; -1] |}.

End Samples.


(** ** Vocabulary of the properties *)





(** The state a loop of lines 300-363 leaves: the point [src a] is stored
    at [dv_offset], which advances by one, and the lookup maps become
    those of [upd st a]. *)
Definition emit {A} (src : A -> result point_t)
    (upd : vertex_state -> A -> vertex_state) (st : vertex_state) (a : A)
  : result vertex_state :=
  p ← src a;
  nodes' ← arr_set (dv_nodes st) (dv_offset st) p;
  Ok {| dv_offset := dv_offset st + 1;
        dv_nodes := nodes';
        dual_node_for_model_face := dual_node_for_model_face (upd st a);
        dual_node_for_edge := dual_node_for_edge (upd st a) |}.

(** The midpoint of primal edge [edge], from the coordinates of its two
    nodes. *)
Definition edge_midpoint (tet_mesh : mesh_t) (edge : Z) : result point_t :=
  n1 ← arr_get (edge_nodes tet_mesh) (2 * edge);
  n2 ← arr_get (edge_nodes tet_mesh) (2 * edge + 1);
  x1 ← arr_get (nodes tet_mesh) n1;
  x2 ← arr_get (nodes tet_mesh) n2;
  Ok (midpoint x1 x2).

(** The dual-vertex map with [key] bound to the current offset. *)
Definition bind_face (st : vertex_state) (face : Z) : vertex_state :=
  {| dv_offset := dv_offset st; dv_nodes := dv_nodes st;
     dual_node_for_model_face :=
       <[face := dv_offset st]> (dual_node_for_model_face st);
     dual_node_for_edge := dual_node_for_edge st |}.

Definition bind_edge_position (st : vertex_state) (e_edge : Z * Z)
  : vertex_state :=
  {| dv_offset := dv_offset st; dv_nodes := dv_nodes st;
     dual_node_for_model_face := dual_node_for_model_face st;
     dual_node_for_edge := <[e_edge.1 := dv_offset st]> (dual_node_for_edge st) |}.


(** The dual vertex that line 305-306 computes: from the tetrahedron of
    line 298, whatever the cell. *)
Definition default_dual_vertex {E : collaborators} : point_t :=
  tetrahedron_compute_nearest_point tetrahedron_new
    (tetrahedron_compute_circumcenter tetrahedron_new).


(** The mantissa of 0.5 and of 2 in binary64: [2^52]. *)
Definition two_52 : positive := 4503599627370496.

(** A primal edge that the loop of lines 372-570 treats as an
    internal-interface edge: on a tagged internal face and on no tagged
    external face. *)
Definition is_interface_only_edge (ts : tagged_sets) (edge : Z) : bool :=
  negb (int_unordered_set_contains (external_model_face_edges ts) edge)
  && int_unordered_set_contains (internal_model_face_edges ts) edge.

Definition count_interface_only_edges (ts : tagged_sets) (num_edges : Z) : Z :=
  Z.of_nat (length (filter (fun edge => is_interface_only_edge ts edge = true)
                      (seqZ 0 num_edges))).


(** *** Vocabulary of the further properties *)

(** [cell] is recorded for [face] by lines 119-123: the first cell of the
    face, or its second cell when that is not -1. *)
Definition face_has_tet (tet_mesh : mesh_t) (face cell : Z) : Prop :=
  arr_get (face_cells tet_mesh) (2 * face) = Ok cell
  \/ (arr_get (face_cells tet_mesh) (2 * face + 1) = Ok cell /\ cell <> -1).

(** [node] is an end of [edge]. *)
Definition edge_has_node (tet_mesh : mesh_t) (edge node : Z) : Prop :=
  arr_get (edge_nodes tet_mesh) (2 * edge) = Ok node
  \/ arr_get (edge_nodes tet_mesh) (2 * edge + 1) = Ok node.

(** Both entries of pair [k] are inside the array [a]. *)
Definition pair_in_range {A} (a : list A) (k : Z) : Prop :=
  0 <= k /\ 2 * k + 1 < Z.of_nat (length a).

(** The set that [sets[k]] points to; empty when the pointer is NULL or
    [k] is outside the array. *)
Definition set_at (sets : list (option (gset Z))) (k : Z) : gset Z :=
  match arr_get sets k with
  | Ok (Some s) => s
  | _ => ∅
  end.

(** [face] is a face of one of the cells [0 .. num_cells-1]. *)
Definition face_of_cell (tet_mesh : mesh_t) (cell face : Z) : Prop :=
  0 <= cell < num_cells tet_mesh /\ face ∈ mesh_cell_faces tet_mesh cell.

(** [face] carries an external or an internal face tag. *)
Definition is_model_face (ts : tagged_sets) (face : Z) : bool :=
  int_unordered_set_contains (external_model_faces ts) face
  || int_unordered_set_contains (internal_model_faces ts) face.

(** No set of the array is empty: each was created by an insertion. *)
Definition inhabited_sets (sets : list (option (gset Z))) : Prop :=
  forall k s, sets !! k = Some (Some s) -> s <> ∅.

(** The shape of the three incidence arrays, which every step of lines
    203-248 keeps: one slot per edge or node, and no empty set. *)
Definition incidence_shape (tet_mesh : mesh_t) (inc : incidence) : Prop :=
  (length (primal_cells_for_edge inc) = Z.to_nat (num_edges tet_mesh)
   /\ length (primal_faces_for_edge inc) = Z.to_nat (num_edges tet_mesh)
   /\ length (primal_boundary_faces_for_node inc) = Z.to_nat (num_nodes tet_mesh))
  /\ inhabited_sets (primal_cells_for_edge inc)
  /\ inhabited_sets (primal_faces_for_edge inc)
  /\ inhabited_sets (primal_boundary_faces_for_node inc).

(** The three relations that the loops of lines 203-248 accumulate:
    [t.2] is in the set of [t.1]. *)
Definition cell_at_edge (inc : incidence) (t : Z * Z) : Prop :=
  t.2 ∈ set_at (primal_cells_for_edge inc) t.1.
Definition face_at_edge (inc : incidence) (t : Z * Z) : Prop :=
  t.2 ∈ set_at (primal_faces_for_edge inc) t.1.
Definition face_at_node (inc : incidence) (t : Z * Z) : Prop :=
  t.2 ∈ set_at (primal_boundary_faces_for_node inc) t.1.

(** The edges of [face] are edges of the mesh and, when the face is
    tagged, its nodes are nodes of the mesh: what lines 209-245 index the
    three arrays with. *)
Definition face_in_range (tet_mesh : mesh_t) (ts : tagged_sets) (face : Z)
  : Prop :=
  Forall (fun e => 0 <= e < num_edges tet_mesh) (mesh_face_edges tet_mesh face)
  /\ (is_model_face ts face = true ->
      Forall (fun n => 0 <= n < num_nodes tet_mesh)
        (mesh_face_nodes tet_mesh face)).

(** One dual face is appended: its node list is stored at [df_offset], the
    offset table gets the next prefix sum, and the counter advances. *)
Definition appends_face (st st' : face_state) (face : list Z) : Prop :=
  exists off,
    arr_get (face_node_offsets st) (df_offset st) = Ok off
    /\ arr_set (face_node_offsets st) (df_offset st + 1)
         (off + Z.of_nat (length face)) = Ok (face_node_offsets st')
    /\ arr_set (nodes_for_dual_face st) (df_offset st) (Some face)
       = Ok (nodes_for_dual_face st')
    /\ df_offset st' = df_offset st + 1.

(** The faces [0 .. df_offset-1] are stored and the offset table holds the
    prefix sums of their sizes; the slots from [df_offset] on are NULL. *)
Definition faces_laid_out (st : face_state) : Prop :=
  0 <= df_offset st
  /\ arr_get (face_node_offsets st) 0 = Ok 0
  /\ (forall k, 0 <= k < df_offset st ->
        exists face off,
          arr_get (nodes_for_dual_face st) k = Ok (Some face)
          /\ arr_get (face_node_offsets st) k = Ok off
          /\ arr_get (face_node_offsets st) (k + 1)
             = Ok (off + Z.of_nat (length face)))
  /\ (forall k, df_offset st <= k < Z.of_nat (length (nodes_for_dual_face st)) ->
        arr_get (nodes_for_dual_face st) k = Ok None).

(** The centres of the cells [cells], in order. *)
Definition centers_of (tet_mesh : mesh_t) (cells : list Z)
    (centers : list point_t) : Prop :=
  Forall2 (fun c p => arr_get (cell_centers tet_mesh) c = Ok p) cells centers.

(** The positions, in the order of the traversal, of the cells that are
    external boundary tets. *)
Definition boundary_positions (ts : tagged_sets) (cells : list Z) : list Z :=
  (filter (fun pc : Z * Z =>
             int_unordered_set_contains (external_boundary_tets ts) pc.2 = true)
     (enumerate cells)).*1.

(** The first and the last of a list of positions, -1 standing for a
    missing one, as [endpoint_indices] holds them. *)
Definition first_and_last (ps : list Z) : Z * Z :=
  match ps with
  | [] => (-1, -1)
  | p :: ps' => (p, List.last ps' (-1))
  end.

(** Position [i] of the ordering is a transition from cell [this_cell] to
    cell [next_cell]: the two cells follow each other in the ordering,
    both are internal boundary tets, and the face they share is a tagged
    internal face (lines 475-484). *)
Definition is_transition (tet_mesh : mesh_t) (ts : tagged_sets)
    (num_cells : Z) (dual_node_indices ordering : list Z)
    (this_cell next_cell : Z) : Prop :=
  exists i o1 o2,
    0 <= i < num_cells
    /\ arr_get ordering i = Ok o1
    /\ arr_get dual_node_indices o1 = Ok this_cell
    /\ arr_get ordering (Z.rem (i + 1) num_cells) = Ok o2
    /\ arr_get dual_node_indices o2 = Ok next_cell
    /\ this_cell ∈ internal_boundary_tets ts
    /\ next_cell ∈ internal_boundary_tets ts
    /\ mesh_cell_face_for_neighbor tet_mesh this_cell next_cell <> -1
    /\ mesh_cell_face_for_neighbor tet_mesh this_cell next_cell
       ∈ internal_model_faces ts.

(** The nodes that lines 577-606 give a dual face: on a tagged face and
    not on a tagged edge (tagged vertices were removed from both sets). *)
Definition face_only_nodes (ts : tagged_sets) : gset Z :=
  all_model_face_nodes ts ∖ model_edge_nodes ts.

(** [dual_mesh] with its flattened face->node array replaced. *)
Definition with_face_nodes (dual_mesh : dual_mesh_t) (fn : list Z)
  : dual_mesh_t :=
  {| dm_num_cells := dm_num_cells dual_mesh;
     dm_num_faces := dm_num_faces dual_mesh;
     dm_num_nodes := dm_num_nodes dual_mesh;
     dm_nodes := dm_nodes dual_mesh;
     dm_face_node_offsets := dm_face_node_offsets dual_mesh;
     dm_face_nodes := fn;
     dm_cell_face_offsets := dm_cell_face_offsets dual_mesh;
     dm_cell_faces := dm_cell_faces dual_mesh;
     dm_face_cells := dm_face_cells dual_mesh |}.


(** * Properties *)

(** ** The result monad, arrays and loops *)

Lemma bind_Ok {A B} (r : result A) (k : A -> result B) (b : B) :
  r ≫= k = Ok b <-> exists a, r = Ok a /\ k a = Ok b.
Proof.
  destruct r as [a|f]; simpl; split.
  - intros H. exists a. split; [reflexivity | exact H].
  - intros [a' [Ha Hk]]. injection Ha as ->. exact Hk.
  - discriminate.
  - intros [a' [Ha _]]. discriminate.
Qed.

Lemma bind_Ok_l {A B} (a : A) (k : A -> result B) : Ok a ≫= k = k a.
Proof. reflexivity. Qed.

(** Splits a hypothesis [x ← r; k x = Ok b] into [r = Ok x] and
    [k x = Ok b]. *)
Ltac ok_bind H x Hx :=
  apply bind_Ok in H; destruct H as [x [Hx H]].

Lemma arr_get_Ok {A} (a : list A) (i : Z) (v : A) :
  arr_get a i = Ok v <-> 0 <= i /\ a !! Z.to_nat i = Some v.
Proof.
  unfold arr_get. destruct (Z.leb_spec 0 i) as [Hi|Hi].
  - destruct (a !! Z.to_nat i) as [w|]; split.
    + intros [= ->]. auto.
    + intros [_ [= ->]]. reflexivity.
    + discriminate.
    + intros [_ ?]. discriminate.
  - split; [discriminate | intros [? _]; lia].
Qed.

Lemma arr_get_in_range {A} (a : list A) (i : Z) :
  0 <= i < Z.of_nat (length a) -> exists v, arr_get a i = Ok v.
Proof.
  intros Hi. destruct (lookup_lt_is_Some_2 a (Z.to_nat i)) as [v Hv]; [lia|].
  exists v. apply arr_get_Ok. split; [lia | exact Hv].
Qed.

Lemma arr_set_Ok {A} (a a' : list A) (i : Z) (v : A) :
  arr_set a i v = Ok a' <->
  0 <= i < Z.of_nat (length a) /\ a' = <[Z.to_nat i := v]> a.
Proof.
  unfold arr_set.
  destruct (Z.leb_spec 0 i), (Z.ltb_spec i (Z.of_nat (length a))); simpl;
    split; try discriminate; try (intros [? _]; lia).
  - intros [= <-]. split; [lia | reflexivity].
  - intros [_ ->]. reflexivity.
Qed.

Lemma arr_set_in_range {A} (a : list A) (i : Z) (v : A) :
  0 <= i < Z.of_nat (length a) -> arr_set a i v = Ok (<[Z.to_nat i := v]> a).
Proof. intros Hi. apply arr_set_Ok. auto. Qed.

Lemma arr_set_length {A} (a a' : list A) (i : Z) (v : A) :
  arr_set a i v = Ok a' -> length a' = length a.
Proof. intros [_ ->]%arr_set_Ok. apply length_insert. Qed.

Lemma for_each_app {S A} (body : S -> A -> result S) (l1 l2 : list A) (s : S) :
  for_each body (l1 ++ l2) s = for_each body l1 s ≫= for_each body l2.
Proof.
  revert s. induction l1 as [|a l1 IH]; intros s; simpl; [reflexivity|].
  destruct (body s a); simpl; [apply IH | reflexivity].
Qed.

(** An invariant that every iteration keeps holds when the loop ends. *)
Lemma for_each_invariant {S A} (P : S -> Prop) (body : S -> A -> result S)
    (l : list A) (s s' : S) :
  (forall s a s', P s -> body s a = Ok s' -> P s') ->
  P s -> for_each body l s = Ok s' -> P s'.
Proof.
  intros Hstep. revert s.
  induction l as [|a l IH]; intros s Hs; simpl.
  - intros [= <-]. exact Hs.
  - destruct (body s a) as [s1|] eqn:Hb; [|discriminate].
    apply IH. eapply Hstep; eauto.
Qed.

(** A loop whose first iteration faults. *)
Lemma for_range_first_fault {S} (lo hi : Z) (body : S -> Z -> result S)
    (s : S) (f : fault) :
  lo < hi -> body s lo = Fault f -> for_range lo hi body s = Fault f.
Proof.
  intros Hlt Hb. unfold for_range.
  replace (hi - lo) with (Z.succ (hi - lo - 1)) by lia.
  rewrite seqZ_cons by lia. simpl. rewrite Hb. reflexivity.
Qed.

Section Properties.
Context {E : collaborators}.

(** ** Loops that emit dual vertices *)

Lemma for_each_ext {S A} (f g : S -> A -> result S) (l : list A) (s : S) :
  (forall s a, f s a = g s a) -> for_each f l s = for_each g l s.
Proof.
  intros Hfg. revert s. induction l as [|a l IH]; intros s; simpl;
    [reflexivity|].
  rewrite Hfg. destruct (g s a); [apply IH | reflexivity].
Qed.

Lemma emit_Ok {A} (src : A -> result point_t) upd st (a : A) st' :
  emit src upd st a = Ok st' ->
  exists p, src a = Ok p
    /\ 0 <= dv_offset st < Z.of_nat (length (dv_nodes st))
    /\ dv_nodes st' = <[Z.to_nat (dv_offset st) := p]> (dv_nodes st)
    /\ dv_offset st' = dv_offset st + 1
    /\ dual_node_for_model_face st' = dual_node_for_model_face (upd st a)
    /\ dual_node_for_edge st' = dual_node_for_edge (upd st a).
Proof.
  unfold emit. intros H. ok_bind H p Hp. ok_bind H nodes' Hn.
  apply arr_set_Ok in Hn as [Hr ->]. injection H as <-. simpl.
  exists p. repeat split; try assumption; try reflexivity; lia.
Qed.

(** What a loop of [emit] does to the node array: the slots from the
    starting offset on hold the emitted points, in order, and no other
    slot changes. *)
Lemma emit_loop_spec {A} (src : A -> result point_t) upd (l : list A) st st' :
  0 <= dv_offset st ->
  for_each (emit src upd) l st = Ok st' ->
  dv_offset st' = dv_offset st + Z.of_nat (length l)
  /\ length (dv_nodes st') = length (dv_nodes st)
  /\ (l <> [] -> dv_offset st' <= Z.of_nat (length (dv_nodes st)))
  /\ (forall i, (i < Z.to_nat (dv_offset st)
               \/ Z.to_nat (dv_offset st) + length l <= i)%nat ->
        dv_nodes st' !! i = dv_nodes st !! i)
  /\ (forall j a, l !! j = Some a ->
        exists p, src a = Ok p
          /\ dv_nodes st' !! (Z.to_nat (dv_offset st) + j)%nat = Some p).
Proof.
  revert st. induction l as [|a l IH]; intros st Hoff; simpl.
  - intros [= <-]. repeat split; try lia; try done.
  - destruct (emit src upd st a) as [st1|] eqn:Hst1; [|discriminate].
    intros Hrun.
    apply emit_Ok in Hst1 as (p & Hp & Hr & Hn1 & Ho1 & _ & _).
    destruct (IH st1 ltac:(lia) Hrun) as (Ho & Hlen & Hle & Hout & Hin).
    rewrite Hn1, length_insert in Hlen. rewrite Hn1, length_insert in Hle.
    split; [lia|]. split; [exact Hlen|].
    split.
    { intros _. destruct l as [|b l]; [|apply Hle; discriminate].
      simpl in Ho. lia. }
    split.
    + intros i Hi. rewrite Hout by lia.
      rewrite Hn1. apply list_lookup_insert_ne. lia.
    + intros [|j] b Hb; simpl in Hb.
      * injection Hb as <-. exists p. split; [exact Hp|].
        rewrite Hout by lia. rewrite Hn1, Nat.add_0_r.
        apply list_lookup_insert_eq. lia.
      * destruct (Hin j b Hb) as (q & Hq & Hlk). exists q.
        split; [exact Hq|]. rewrite <- Hlk. f_equal. lia.
Qed.

(** A loop of [emit] goes through when every point can be read and the
    node array has room for them. *)
Lemma emit_loop_total {A} (src : A -> result point_t) upd (l : list A) st :
  Forall (fun a => is_ok (src a) = true) l ->
  0 <= dv_offset st ->
  dv_offset st + Z.of_nat (length l) <= Z.of_nat (length (dv_nodes st)) ->
  exists st', for_each (emit src upd) l st = Ok st'.
Proof.
  revert st. induction l as [|a l IH]; intros st Hsrc Hoff Hroom; simpl.
  - eauto.
  - apply Forall_cons in Hsrc as [Ha Hl]. simpl in Hroom.
    unfold emit at 1. destruct (src a) as [p|]; [|discriminate].
    rewrite bind_Ok_l, arr_set_in_range by lia. rewrite bind_Ok_l.
    apply IH; simpl; [exact Hl | lia | rewrite length_insert; lia].
Qed.

Lemma cell_dual_vertex_emit (tet : tetrahedron_t) st (c : Z) :
  cell_dual_vertex tet st c
  = emit (fun _ : Z => Ok (tetrahedron_compute_nearest_point tet
                             (tetrahedron_compute_circumcenter tet)))
      (fun st _ => st) st c.
Proof. reflexivity. Qed.

Lemma model_face_dual_vertex_emit (tet_mesh : mesh_t) st (face : Z) :
  model_face_dual_vertex tet_mesh st face
  = emit (arr_get (face_centers tet_mesh)) bind_face st face.
Proof. reflexivity. Qed.

Lemma model_edge_dual_vertex_emit (tet_mesh : mesh_t) st (e_edge : Z * Z) :
  model_edge_dual_vertex tet_mesh st e_edge
  = emit (fun e_edge => edge_midpoint tet_mesh e_edge.2) bind_edge_position
      st e_edge.
Proof.
  destruct e_edge as [e edge]. unfold model_edge_dual_vertex, emit,
    edge_midpoint. simpl.
  destruct (arr_get (edge_nodes tet_mesh) (2 * edge)) as [n1|]; simpl;
    [|reflexivity].
  destruct (arr_get (edge_nodes tet_mesh) (2 * edge + 1)) as [n2|]; simpl;
    [|reflexivity].
  destruct (arr_get (nodes tet_mesh) n1) as [x1|]; simpl; [|reflexivity].
  destruct (arr_get (nodes tet_mesh) n2) as [x2|]; simpl; reflexivity.
Qed.

Lemma model_vertex_dual_vertex_emit (tet_mesh : mesh_t) st (vertex : Z) :
  model_vertex_dual_vertex tet_mesh st vertex
  = emit (arr_get (nodes tet_mesh)) (fun st _ => st) st vertex.
Proof. reflexivity. Qed.

Lemma ASSERT_debug (line : Z) (cond : bool) :
  ndebug = false -> cond = false ->
  ASSERT line cond = Fault (AssertionFailed line).
Proof. intros Hd ->. unfold ASSERT. rewrite Hd. reflexivity. Qed.

Lemma ASSERT_Ok_debug (line : Z) (cond : bool) (u : unit) :
  ndebug = false -> ASSERT line cond = Ok u -> cond = true.
Proof.
  unfold ASSERT. intros ->. destruct cond; [reflexivity | discriminate].
Qed.

(** ** Dual cells are never assembled *)

Lemma assembled_cells_are_null (n c : Z) :
  0 <= c < n -> arr_get (assemble_dual_cells n).2 c = Ok None.
Proof.
  intros Hc. apply arr_get_Ok. split; [lia|]. simpl.
  apply lookup_replicate_2. lia.
Qed.

Lemma compact_cell_null (n c : Z) (dm : dual_mesh_t) :
  0 <= c < n ->
  compact_cell (assemble_dual_cells n).2 dm c = Fault NullPointer.
Proof.
  intros Hc. unfold compact_cell.
  rewrite assembled_cells_are_null by exact Hc. reflexivity.
Qed.

Lemma compact_null_cells (n nf : Z) (nfdf : list (option (list Z)))
    (dm : dual_mesh_t) :
  0 < n -> is_ok (compact (assemble_dual_cells n).2 nfdf n nf dm) = false.
Proof.
  intros Hn. unfold compact.
  destruct (mesh_reserve_connectivity_storage dm) as [dm'|]; simpl;
    [|reflexivity].
  rewrite (for_range_first_fault 0 n _ dm' NullPointer);
    [reflexivity | lia | apply compact_cell_null; lia].
Qed.

Lemma dual_cells_of_entities (tet_mesh : mesh_t)
    (ext int edges verts : list string) de :
  generate_dual_entities tet_mesh ext int edges verts = Ok de ->
  num_dual_cells de = num_nodes tet_mesh.
Proof.
  intros H. unfold generate_dual_entities in H.
  ok_bind H ts Hts. ok_bind H inc Hinc. ok_bind H nbv Hnbv.
  ok_bind H vs Hvs. ok_bind H fs Hfs. ok_bind H fs' Hfs'.
  injection H as <-. reflexivity.
Qed.

Lemma construction_never_returns (tet_mesh : mesh_t)
    (ext int edges verts : list string) :
  0 < num_nodes tet_mesh ->
  is_ok (create_dual_mesh_from_tet_mesh tet_mesh ext int edges verts) = false.
Proof.
  intros Hn. unfold create_dual_mesh_from_tet_mesh.
  destruct (generate_dual_entities _ _ _ _ _) as [de|] eqn:Hde; simpl;
    [|reflexivity].
  apply dual_cells_of_entities in Hde.
  unfold assemble_and_compact.
  change (assemble_dual_cells (num_dual_cells de))
    with (0, (assemble_dual_cells (num_dual_cells de)).2).
  cbv beta iota.
  destruct (ASSERT 647 _); simpl; [|reflexivity].
  apply compact_null_cells. rewrite Hde. exact Hn.
Qed.

(** C10.  For every primal mesh with at least one node: the dual-cell
    step leaves the counter at 0 and every per-cell face list null; in a
    debugging build the assertion of line 647 fails whenever the earlier
    stages were passed; the compaction loop finds a null face list at every
    dual cell; and the construction never returns a mesh. *)
Theorem dual_cells_never_assembled (tet_mesh : mesh_t)
    (external_model_face_tags internal_model_face_tags
     model_edge_tags model_vertex_tags : list string) :
  0 < num_nodes tet_mesh ->
  (assemble_dual_cells (num_nodes tet_mesh)).1 = 0
  /\ (forall c, 0 <= c < num_nodes tet_mesh ->
        arr_get (assemble_dual_cells (num_nodes tet_mesh)).2 c = Ok None)
  /\ (ndebug = false ->
      forall de,
        generate_dual_entities tet_mesh external_model_face_tags
          internal_model_face_tags model_edge_tags model_vertex_tags = Ok de ->
        create_dual_mesh_from_tet_mesh tet_mesh external_model_face_tags
          internal_model_face_tags model_edge_tags model_vertex_tags
        = Fault (AssertionFailed 647))
  /\ (forall c dm, 0 <= c < num_nodes tet_mesh ->
        compact_cell (assemble_dual_cells (num_nodes tet_mesh)).2 dm c
        = Fault NullPointer)
  /\ is_ok (create_dual_mesh_from_tet_mesh tet_mesh external_model_face_tags
              internal_model_face_tags model_edge_tags model_vertex_tags)
     = false.
Proof.
  intros Hn.
  split; [reflexivity|].
  split; [intros c Hc; apply assembled_cells_are_null; exact Hc|].
  split; [|split].
  - intros Hd de Hde. unfold create_dual_mesh_from_tet_mesh.
    rewrite Hde, bind_Ok_l. unfold assemble_and_compact.
    change (assemble_dual_cells (num_dual_cells de))
      with (0, (assemble_dual_cells (num_dual_cells de)).2).
    cbv beta iota. rewrite (dual_cells_of_entities _ _ _ _ _ _ Hde).
    rewrite ASSERT_debug; [reflexivity | exact Hd |].
    apply Z.eqb_neq. lia.
  - intros c dm Hc. apply compact_cell_null. exact Hc.
  - apply construction_never_returns. exact Hn.
Qed.


(** The public entry point does no better. *)
Corollary create_dual_mesh_never_returns (original_mesh : mesh_t)
    (external_model_face_tags internal_model_face_tags
     model_edge_tags model_vertex_tags : list string) :
  0 < num_nodes original_mesh ->
  is_ok (create_dual_mesh original_mesh external_model_face_tags
           internal_model_face_tags model_edge_tags model_vertex_tags)
  = false.
Proof.
  intros Hn. unfold create_dual_mesh.
  destruct (ASSERT 720 _); simpl; [|reflexivity].
  destruct (ASSERT 721 _); simpl; [|reflexivity].
  destruct (ASSERT 722 _); simpl; [|reflexivity].
  destruct (ASSERT 725 _); simpl; [|reflexivity].
  apply construction_never_returns. exact Hn.
Qed.

(** ** Face->cell adjacency (lines 655-662) *)

Lemma record_face_cell_total (c : Z) (fc : list Z) (face : Z) :
  0 <= face -> 2 * face + 1 < Z.of_nat (length fc) ->
  exists fc', record_face_cell c fc face = Ok fc' /\ length fc' = length fc.
Proof.
  intros H0 H1. unfold record_face_cell.
  destruct (arr_get_in_range fc (2 * face)) as [s0 Hs0]; [lia|].
  rewrite Hs0, bind_Ok_l.
  destruct (s0 =? -1); rewrite arr_set_in_range by lia;
    eexists; (split; [reflexivity | apply length_insert]).
Qed.








(** On the array of face lists that lines 643-645 build, the loop of lines
    651-663 stops at the first dual cell, before any write to
    [face_cells]. *)
Lemma compaction_stops_at_first_cell (n : Z) (dm : dual_mesh_t) :
  0 < n ->
  for_range 0 n (compact_cell (assemble_dual_cells n).2) dm
  = Fault NullPointer.
Proof.
  intros Hn. unfold for_range. rewrite Z.sub_0_r, seqZ_cons by lia.
  cbn [for_each]. rewrite (compact_cell_null n 0 dm) by lia. reflexivity.
Qed.


(** ** The layout of the dual vertices *)

Lemma enumerate_snd (tag : list Z) : (enumerate tag).*2 = tag.
Proof. unfold enumerate. apply snd_zip. rewrite length_seqZ. lia. Qed.

Lemma enumerate_fst (tag : list Z) :
  (enumerate tag).*1 = seqZ 0 (Z.of_nat (length tag)).
Proof. unfold enumerate. apply fst_zip. rewrite length_seqZ. lia. Qed.

Lemma tagged_with_positions_snd (tags : gmap string (list Z)) names :
  (tagged_with_positions tags names).*2 = tagged tags names.
Proof.
  unfold tagged_with_positions, tagged.
  induction names as [|name names IH]; simpl; [reflexivity|].
  rewrite fmap_app, enumerate_snd, IH. reflexivity.
Qed.

Lemma tagged_with_positions_length (tags : gmap string (list Z)) names :
  length (tagged_with_positions tags names) = length (tagged tags names).
Proof. rewrite <- tagged_with_positions_snd, length_fmap. reflexivity. Qed.

(** The four blocks of [dual_mesh->nodes] when lines 297-365 are passed:
    cells, tagged faces (external then internal), tagged edges, tagged
    vertices. *)
Lemma generate_dual_vertices_layout (tet_mesh : mesh_t)
    (ext int edges verts : list string) (n : Z) (nodes0 : list point_t) st :
  0 <= num_cells tet_mesh ->
  generate_dual_vertices tet_mesh ext int edges verts n nodes0 = Ok st ->
  let faces := tagged (face_tags tet_mesh) ext ++ tagged (face_tags tet_mesh) int in
  let es := tagged (edge_tags tet_mesh) edges in
  let vs := tagged (node_tags tet_mesh) verts in
  let nc := Z.to_nat (num_cells tet_mesh) in
  dv_offset st = num_cells tet_mesh + Z.of_nat (length faces)
                 + Z.of_nat (length es) + Z.of_nat (length vs)
  /\ length (dv_nodes st) = length nodes0
  /\ (forall c, (c < nc)%nat -> dv_nodes st !! c = Some default_dual_vertex)
  /\ (forall j f, faces !! j = Some f ->
        exists p, arr_get (face_centers tet_mesh) f = Ok p
          /\ dv_nodes st !! (nc + j)%nat = Some p)
  /\ (forall j e, es !! j = Some e ->
        exists p, edge_midpoint tet_mesh e = Ok p
          /\ dv_nodes st !! (nc + length faces + j)%nat = Some p)
  /\ (forall j v, vs !! j = Some v ->
        exists p, arr_get (nodes tet_mesh) v = Ok p
          /\ dv_nodes st !! (nc + length faces + length es + j)%nat = Some p)
  /\ (forall i, (nc + length faces + length es + length vs <= i)%nat ->
        dv_nodes st !! i = nodes0 !! i).
Proof.
  intros Hnc H faces es vs nc. unfold generate_dual_vertices in H.
  ok_bind H st1 H1. ok_bind H st2 H2. ok_bind H st3 H3. ok_bind H st4 H4.
  ok_bind H st5 H5. ok_bind H u Hu. injection H as <-.
  unfold for_range in H1. rewrite Z.sub_0_r in H1.
  rewrite (for_each_ext _ _ _ _ (cell_dual_vertex_emit _)) in H1.
  rewrite (for_each_ext _ _ _ _ (model_face_dual_vertex_emit _)) in H2.
  rewrite (for_each_ext _ _ _ _ (model_face_dual_vertex_emit _)) in H3.
  rewrite (for_each_ext _ _ _ _ (model_edge_dual_vertex_emit _)) in H4.
  rewrite (for_each_ext _ _ _ _ (model_vertex_dual_vertex_emit _)) in H5.
  apply emit_loop_spec in H1 as (O1 & L1 & _ & X1 & I1); [|simpl; lia].
  simpl in O1, L1, X1, I1. rewrite length_seqZ in O1, X1.
  apply emit_loop_spec in H2 as (O2 & L2 & _ & X2 & I2); [|lia].
  apply emit_loop_spec in H3 as (O3 & L3 & _ & X3 & I3); [|lia].
  apply emit_loop_spec in H4 as (O4 & L4 & _ & X4 & I4); [|lia].
  apply emit_loop_spec in H5 as (O5 & L5 & _ & X5 & I5); [|lia].
  rewrite tagged_with_positions_length in *.
  set (le := tagged (face_tags tet_mesh) ext) in *.
  set (li := tagged (face_tags tet_mesh) int) in *.
  assert (Hfaces : length faces = (length le + length li)%nat)
    by (unfold faces; apply length_app).
  replace (Z.to_nat (dv_offset st1)) with nc in * by lia.
  replace (Z.to_nat (dv_offset st2)) with (nc + length le)%nat in * by lia.
  replace (Z.to_nat (dv_offset st3)) with (nc + length faces)%nat in * by lia.
  replace (Z.to_nat (dv_offset st4)) with (nc + length faces + length es)%nat
    in * by (unfold es; lia).
  fold es in O4, X4, X5. fold vs in O5, X5, I5.
  split; [lia|]. split; [congruence|].
  split; [|split; [|split; [|split]]].
  - intros c Hc.
    rewrite X5, X4, X3, X2 by lia.
    destruct (I1 c (Z.of_nat c)) as (p & [= <-] & Hp).
    { apply lookup_seqZ. lia. }
    exact Hp.
  - intros j f Hj. unfold faces in Hj.
    destruct (lookup_app_Some le li j f) as [Hsplit _].
    destruct (Hsplit Hj) as [Hl|[Hge Hr]].
    + destruct (I2 j f Hl) as (p & Hp & Hlk). exists p. split; [exact Hp|].
      apply lookup_lt_Some in Hl.
      rewrite X5, X4, X3 by lia. exact Hlk.
    + destruct (I3 _ f Hr) as (p & Hp & Hlk). exists p. split; [exact Hp|].
      apply lookup_lt_Some in Hr.
      rewrite X5, X4 by lia. rewrite <- Hlk. f_equal. lia.
  - intros j e Hj.
    assert (Hps : exists k, tagged_with_positions (edge_tags tet_mesh) edges !! j
                            = Some (k, e)).
    { unfold es in Hj. rewrite <- tagged_with_positions_snd in Hj.
      rewrite list_lookup_fmap in Hj.
      destruct (tagged_with_positions _ _ !! j) as [[k e']|]; [|discriminate].
      simpl in Hj. injection Hj as ->. eauto. }
    destruct Hps as [k Hk].
    destruct (I4 j _ Hk) as (p & Hp & Hlk). exists p. split; [exact Hp|].
    apply lookup_lt_Some in Hj. rewrite X5 by lia. exact Hlk.
  - intros j v Hj. destruct (I5 j v Hj) as (p & Hp & Hlk).
    exists p. split; [exact Hp | exact Hlk].
  - intros i Hi. rewrite X5, X4, X3, X2, X1 by lia. reflexivity.
Qed.


(** ** Halving in binary64 arithmetic

    [0.5 * s] and [s / 2] are the same binary64 number: in the
    specification of the two operations both round the same value, and
    the two roundings shift to the same mantissa, round bit and sticky
    bit. *)

Lemma binary_round_aux_shr (sx : bool) m1 e1 l1 m2 e2 l2 :
  shr_fexp prec emax m1 e1 l1 = shr_fexp prec emax m2 e2 l2 ->
  binary_round_aux prec emax sx m1 e1 l1 = binary_round_aux prec emax sx m2 e2 l2.
Proof. unfold binary_round_aux. intros ->. reflexivity. Qed.

Lemma digits_shift52 (m : positive) :
  Zdigits2 (Zpos (two_52 * m)) = Zpos (digits2_pos m) + 52.
Proof.
  change (two_52 * m)%positive with (m~0~0~0~0~0~0~0~0~0~0~0~0~0~0~0~0~0~0~0~0~0~0~0~0~0~0~0~0~0~0~0~0~0~0~0~0~0~0~0~0~0~0~0~0~0~0~0~0~0~0~0~0)%positive.
  cbn [Zdigits2 digits2_pos]. rewrite !Pos2Z.inj_succ. lia.
Qed.

Lemma shr_52 (m : positive) :
  SpecFloat.iter_pos shr_1 52 (Build_shr_record (Zpos (two_52 * m)) false false)
  = Build_shr_record (Zpos m) false false.
Proof. reflexivity. Qed.

Lemma shr_53 (m : positive) :
  SpecFloat.iter_pos shr_1 53 (Build_shr_record (Zpos (two_52 * m)) false false)
  = match m with
    | xH => Build_shr_record 0 true false
    | xO p => Build_shr_record (Zpos p) false false
    | xI p => Build_shr_record (Zpos p) true false
    end.
Proof. destruct m; reflexivity. Qed.

Lemma fexp_eq (x : Z) : fexp prec emax x = Z.max (x - 53) (-1074).
Proof. reflexivity. Qed.

Lemma mul_half_shr (m : positive) (e : Z) :
  fexp prec emax (Zpos (digits2_pos m) + e) = e ->
  shr_fexp prec emax (Zpos (two_52 * m)) (-53 + e) loc_Exact
  = if -1073 <=? e
    then (Build_shr_record (Zpos m) false false, e - 1)
    else (match m with
          | xH => Build_shr_record 0 true false
          | xO p => Build_shr_record (Zpos p) false false
          | xI p => Build_shr_record (Zpos p) true false
          end, -1074).
Proof.
  intros Hc. rewrite fexp_eq in Hc.
  unfold shr_fexp. rewrite digits_shift52, fexp_eq.
  cbn [shr_record_of_loc].
  destruct (Z.leb_spec (-1073) e) as [He|He].
  - replace (Z.max _ _ - (-53 + e)) with 52 by lia.
    unfold shr. rewrite shr_52. f_equal. lia.
  - replace (Z.max _ _ - (-53 + e)) with 53 by lia.
    unfold shr. rewrite shr_53. f_equal. lia.
Qed.


Lemma div_eucl_unique (a q r : Z) :
  a = Zpos two_52 * q + r -> 0 <= r < Zpos two_52 -> Z.div_eucl a (Zpos two_52) = (q, r).
Proof.
  intros Ha Hr.
  pose proof (Z.div_eucl_eq a (Zpos two_52) ltac:(discriminate)) as H.
  pose proof (Z.mod_pos_bound a (Zpos two_52) ltac:(reflexivity)) as Hb.
  unfold Z.modulo in Hb.
  destruct (Z.div_eucl _ _) as [q' r'].
  assert (r' = r /\ q' = q) as [-> ->]; [|reflexivity].
  change (Zpos two_52) with 4503599627370496 in *. nia.
Qed.

Lemma div_eucl_shift (m : positive) (k q r : Z) :
  0 <= k -> Zpos m * 2 ^ k = Zpos two_52 * q + r -> 0 <= r < Zpos two_52 ->
  IntDef.Z.div_eucl (IntDef.Z.shiftl (Zpos m) k) (Zpos two_52) = (q, r).
Proof.
  intros Hk Ha Hr.
  change (Z.div_eucl (Z.shiftl (Zpos m) k) (Zpos two_52) = (q, r)).
  apply div_eucl_unique; [|exact Hr].
  rewrite Z.shiftl_mul_pow2 by exact Hk. exact Ha.
Qed.

Lemma div_half_shr (m : positive) (e : Z) :
  fexp prec emax (Zpos (digits2_pos m) + e) = e ->
  (let '(q, e', l) := SFdiv_core_binary prec emax (Zpos m) e (Zpos two_52) (-51) in
   shr_fexp prec emax q e' l)
  = if -1073 <=? e
    then (Build_shr_record (Zpos m) false false, e - 1)
    else (match m with
          | xH => Build_shr_record 0 true false
          | xO p => Build_shr_record (Zpos p) false false
          | xI p => Build_shr_record (Zpos p) true false
          end, -1074).
Proof.
  intros Hc. rewrite fexp_eq in Hc.
  unfold SFdiv_core_binary.
  change (Zdigits2 (Zpos two_52)) with 53. rewrite fexp_eq.
  cbn [Zdigits2].
  set (D := Zpos (digits2_pos m)) in *.
  assert (HD : 1 <= D) by (unfold D; lia).
  destruct (Z.leb_spec (-1073) e) as [He|He].
  - destruct (Z.eq_dec e (-1073)) as [->|Hne].
    + (* the quotient is m itself *)
      replace (Z.min _ _) with (-1074) by lia.
      change (-1073 - -51 - -1074) with 52. cbv beta iota.
      rewrite (div_eucl_shift m 52 (Zpos m) 0);
        [|lia | change (2 ^ 52) with (Zpos two_52); lia | lia].
      change (new_location (Zpos two_52) 0) with loc_Exact.
      unfold shr_fexp. rewrite fexp_eq. cbn [Zdigits2 shr_record_of_loc].
      fold D. replace (Z.max _ _ - -1074) with 0 by lia. reflexivity.
    + replace (Z.min _ _) with (e - 2) by lia.
      replace (e - -51 - (e - 2)) with 53 by lia. cbv beta iota.
      rewrite (div_eucl_shift m 53 (Zpos m~0) 0);
        [|lia | change (2 ^ 53) with (2 * Zpos two_52); lia | lia].
      change (new_location (Zpos two_52) 0) with loc_Exact.
      unfold shr_fexp. rewrite fexp_eq.
      cbn [Zdigits2 digits2_pos shr_record_of_loc].
      rewrite Pos2Z.inj_succ. fold D.
      replace (Z.max _ _ - (e - 2)) with 1 by lia.
      unfold shr. cbn [iter_pos shr_1 orb]. f_equal. lia.
  - assert (e = -1074) as -> by lia.
    replace (Z.min _ _) with (-1074) by lia.
    change (-1074 - -51 - -1074) with 51. cbv beta iota.
    destruct m as [p|p|].
    + rewrite (div_eucl_shift p~1 51 (Zpos p) 2251799813685248);
        [|lia
         |change (2 ^ 51) with 2251799813685248;
          change (Zpos two_52) with 4503599627370496; lia
         |change (Zpos two_52) with 4503599627370496; lia].
      change (new_location (Zpos two_52) 2251799813685248) with (loc_Inexact Eq).
      unfold shr_fexp. rewrite fexp_eq. cbn [Zdigits2 shr_record_of_loc].
      unfold D in *. cbn [digits2_pos] in Hc. rewrite Pos2Z.inj_succ in Hc.
      replace (Z.max _ _ - -1074) with 0 by lia. reflexivity.
    + rewrite (div_eucl_shift p~0 51 (Zpos p) 0);
        [|lia
         |change (2 ^ 51) with 2251799813685248;
          change (Zpos two_52) with 4503599627370496; lia
         |lia].
      change (new_location (Zpos two_52) 0) with loc_Exact.
      unfold shr_fexp. rewrite fexp_eq. cbn [Zdigits2 shr_record_of_loc].
      unfold D in *. cbn [digits2_pos] in Hc. rewrite Pos2Z.inj_succ in Hc.
      replace (Z.max _ _ - -1074) with 0 by lia. reflexivity.
    + reflexivity.
Qed.

Lemma SF_half_is_div_2 (x : spec_float) :
  valid_binary x = true ->
  SF64mul (S754_finite false two_52 (-53)) x = SF64div x (S754_finite false two_52 (-51)).
Proof.
  destruct x as [s|s| |s m e]; intros Hv; try (destruct s; reflexivity);
    try reflexivity.
  unfold valid_binary, SpecFloat.valid_binary, bounded, canonical_mantissa
    in Hv.
  apply andb_prop in Hv as [Hc _]. apply Z.eqb_eq in Hc.
  unfold SF64mul, SF64div, SFmul, SFdiv.
  pose proof (div_half_shr m e Hc) as Hd.
  destruct (SFdiv_core_binary prec emax (Zpos m) e (Zpos two_52) (-51))
    as [[q e'] l].
  replace (xorb s false) with s by (destruct s; reflexivity).
  cbn [xorb]. apply binary_round_aux_shr.
  rewrite Hd. apply mul_half_shr. exact Hc.
Qed.

Lemma half_is_div_2 (s : float) : (0.5 * s = s / 2)%float.
Proof.
  apply Prim2SF_inj. rewrite mul_spec, div_spec.
  apply (SF_half_is_div_2 (Prim2SF s)). apply Prim2SF_valid.
Qed.

(** C3 (the code departs from the claim).  When lines 297-365 are passed,
    the dual vertex stored for primal cell [c] is the point computed from
    the tetrahedron of line 298, which is never given the vertices of the
    cell: it is the same point for every cell of every mesh, not the
    circumcenter of the cell. *)
Theorem cell_dual_vertex_ignores_cell (tet_mesh : mesh_t)
    (ext int edges verts : list string) (n : Z) (nodes0 : list point_t) st
    (c : Z) :
  0 <= c < num_cells tet_mesh ->
  generate_dual_vertices tet_mesh ext int edges verts n nodes0 = Ok st ->
  dv_nodes st !! Z.to_nat c = Some default_dual_vertex.
Proof.
  intros Hc H.
  assert (Hnc : 0 <= num_cells tet_mesh) by lia.
  destruct (generate_dual_vertices_layout _ _ _ _ _ _ _ _ Hnc H)
    as (_ & _ & Hcells & _).
  apply Hcells. lia.
Qed.

(** C9.  When lines 297-365 are passed, the dual vertex generated for the
    [j]-th tagged model edge, [edge], lies in the block of edge vertices at
    offset [j], and each of its coordinates is the sum of that coordinate
    of the two nodes of [edge] divided by 2, in binary64 arithmetic (lines
    347-349 multiply the sum by 0.5, which is the same number). *)
Theorem model_edge_dual_vertex_is_midpoint (tet_mesh : mesh_t)
    (ext int edges verts : list string) (n : Z) (nodes0 : list point_t) st
    (j : nat) (edge : Z) :
  0 <= num_cells tet_mesh ->
  generate_dual_vertices tet_mesh ext int edges verts n nodes0 = Ok st ->
  tagged (edge_tags tet_mesh) edges !! j = Some edge ->
  let faces := tagged (face_tags tet_mesh) ext ++ tagged (face_tags tet_mesh) int in
  exists n1 n2 x1 x2 p,
    edge_nodes tet_mesh !! Z.to_nat (2 * edge) = Some n1
    /\ edge_nodes tet_mesh !! Z.to_nat (2 * edge + 1) = Some n2
    /\ nodes tet_mesh !! Z.to_nat n1 = Some x1
    /\ nodes tet_mesh !! Z.to_nat n2 = Some x2
    /\ dv_nodes st !! (Z.to_nat (num_cells tet_mesh) + length faces + j)%nat
       = Some p
    /\ px p = ((px x1 + px x2) / 2)%float
    /\ py p = ((py x1 + py x2) / 2)%float
    /\ pz p = ((pz x1 + pz x2) / 2)%float.
Proof.
  intros Hnc H Hj faces.
  destruct (generate_dual_vertices_layout _ _ _ _ _ _ _ _ Hnc H)
    as (_ & _ & _ & _ & Hedges & _).
  destruct (Hedges j edge Hj) as (p & Hp & Hlk).
  unfold edge_midpoint in Hp.
  ok_bind Hp n1 Hn1. ok_bind Hp n2 Hn2. ok_bind Hp x1 Hx1. ok_bind Hp x2 Hx2.
  injection Hp as <-.
  apply arr_get_Ok in Hn1 as [_ Hn1]. apply arr_get_Ok in Hn2 as [_ Hn2].
  apply arr_get_Ok in Hx1 as [_ Hx1]. apply arr_get_Ok in Hx2 as [_ Hx2].
  exists n1, n2, x1, x2, (midpoint x1 x2).
  repeat split; try assumption; apply half_is_div_2.
Qed.

(** ** The dual-node count *)

Lemma add_model_face_faces (tet_mesh : mesh_t) (l : list Z) s s' :
  for_each (add_model_face tet_mesh) l s = Ok s' ->
  model_faces s' = list_to_set l ∪ model_faces s.
Proof.
  revert s. induction l as [|a l IH]; intros s; simpl.
  - intros [= <-]. set_solver.
  - destruct (add_model_face tet_mesh s a) as [s1|] eqn:H1; [|discriminate].
    intros H. rewrite (IH _ H).
    unfold add_model_face in H1. ok_bind H1 b1 Hb1. ok_bind H1 b2 Hb2.
    injection H1 as <-. simpl. unfold int_unordered_set_insert. set_solver.
Qed.

Lemma add_model_edge_edges (tet_mesh : mesh_t) (l : list Z) s s' :
  for_each (add_model_edge tet_mesh) l s = Ok s' ->
  s'.1 = list_to_set l ∪ s.1.
Proof.
  revert s. induction l as [|a l IH]; intros s; simpl.
  - intros [= <-]. set_solver.
  - destruct (add_model_edge tet_mesh s a) as [s1|] eqn:H1; [|discriminate].
    intros H. rewrite (IH _ H).
    unfold add_model_edge in H1. ok_bind H1 b1 Hb1. ok_bind H1 b2 Hb2.
    injection H1 as <-. simpl. unfold int_unordered_set_insert. set_solver.
Qed.

Lemma add_model_vertex_vertices (l : list Z) (s : gset Z * gset Z * gset Z) :
  (foldl add_model_vertex s l).1.1 = list_to_set l ∪ s.1.1.
Proof.
  revert s. induction l as [|a l IH]; intros s; simpl.
  - set_solver.
  - rewrite IH. destruct s as [[v e] f]. simpl.
    unfold int_unordered_set_insert. set_solver.
Qed.

(** The tagged sets hold exactly the tagged indices. *)
Lemma build_tagged_sets_members (tet_mesh : mesh_t)
    (ext int edges verts : list string) ts :
  build_tagged_sets tet_mesh ext int edges verts = Ok ts ->
  external_model_faces ts = list_to_set (tagged (face_tags tet_mesh) ext)
  /\ internal_model_faces ts = list_to_set (tagged (face_tags tet_mesh) int)
  /\ model_edges ts = list_to_set (tagged (edge_tags tet_mesh) edges)
  /\ model_vertices ts = list_to_set (tagged (node_tags tet_mesh) verts).
Proof.
  unfold build_tagged_sets. intros H.
  ok_bind H se Hse. ok_bind H si Hsi. ok_bind H ed Hed.
  apply add_model_face_faces in Hse. apply add_model_face_faces in Hsi.
  apply add_model_edge_edges in Hed. simpl in Hse, Hsi, Hed.
  pose proof (add_model_vertex_vertices
    (tagged (node_tags tet_mesh) verts) (∅, ed.2, model_face_nodes si)) as Hv.
  destruct (foldl add_model_vertex _ _) as [[v e] f]. simpl in Hv.
  injection H as <-. simpl.
  rewrite Hse, Hsi, Hed, Hv. repeat split; set_solver.
Qed.

Lemma size_tagged (l : list Z) :
  NoDup l -> int_unordered_set_size (list_to_set l) = Z.of_nat (length l).
Proof.
  intros Hl. unfold int_unordered_set_size.
  rewrite size_list_to_set by exact Hl. reflexivity.
Qed.


Lemma ASSERT_true (line : Z) (cond : bool) :
  cond = true -> ASSERT line cond = Ok tt.
Proof. intros ->. unfold ASSERT. destruct ndebug; reflexivity. Qed.

(** Lines 297-365 are passed when the node array has one slot per dual
    node and every tagged element can be read. *)
Lemma generate_dual_vertices_total (tet_mesh : mesh_t)
    (ext int edges verts : list string) (n : Z) (nodes0 : list point_t) :
  let faces := tagged (face_tags tet_mesh) ext ++ tagged (face_tags tet_mesh) int in
  let es := tagged (edge_tags tet_mesh) edges in
  let vs := tagged (node_tags tet_mesh) verts in
  0 <= num_cells tet_mesh ->
  n = num_cells tet_mesh + Z.of_nat (length faces) + Z.of_nat (length es)
      + Z.of_nat (length vs) ->
  length nodes0 = Z.to_nat n ->
  Forall (fun f => is_ok (arr_get (face_centers tet_mesh) f) = true) faces ->
  Forall (fun e => is_ok (edge_midpoint tet_mesh e) = true) es ->
  Forall (fun v => is_ok (arr_get (nodes tet_mesh) v) = true) vs ->
  exists st, generate_dual_vertices tet_mesh ext int edges verts n nodes0 = Ok st.
Proof.
  intros faces es vs Hnc Hn Hlen Hf He Hv.
  unfold faces in Hf, Hn. apply Forall_app in Hf as [Hfe Hfi].
  rewrite length_app in Hn.
  unfold generate_dual_vertices, for_range. rewrite Z.sub_0_r.
  rewrite (for_each_ext _ _ _ _ (cell_dual_vertex_emit _)).
  destruct (emit_loop_total
    (fun _ : Z => Ok (tetrahedron_compute_nearest_point tetrahedron_new
                        (tetrahedron_compute_circumcenter tetrahedron_new)))
    (fun st _ => st) (seqZ 0 (num_cells tet_mesh))
    {| dv_offset := 0; dv_nodes := nodes0;
       dual_node_for_model_face := ∅; dual_node_for_edge := ∅ |})
    as [st1 H1].
  { apply Forall_forall. reflexivity. }
  { simpl. lia. }
  { simpl. rewrite length_seqZ. lia. }
  rewrite H1, bind_Ok_l.
  apply emit_loop_spec in H1 as (O1 & L1 & _); [|simpl; lia].
  simpl in O1, L1. rewrite length_seqZ in O1.
  rewrite (for_each_ext _ _ _ _ (model_face_dual_vertex_emit _)).
  destruct (emit_loop_total (arr_get (face_centers tet_mesh)) bind_face
              (tagged (face_tags tet_mesh) ext) st1) as [st2 H2];
    [exact Hfe | lia | lia |].
  rewrite H2, bind_Ok_l.
  apply emit_loop_spec in H2 as (O2 & L2 & _); [|lia].
  rewrite (for_each_ext _ _ _ _ (model_face_dual_vertex_emit _)).
  destruct (emit_loop_total (arr_get (face_centers tet_mesh)) bind_face
              (tagged (face_tags tet_mesh) int) st2) as [st3 H3];
    [exact Hfi | lia | lia |].
  rewrite H3, bind_Ok_l.
  apply emit_loop_spec in H3 as (O3 & L3 & _); [|lia].
  rewrite (for_each_ext _ _ _ _ (model_edge_dual_vertex_emit _)).
  destruct (emit_loop_total (fun e_edge : Z * Z => edge_midpoint tet_mesh e_edge.2)
              bind_edge_position
              (tagged_with_positions (edge_tags tet_mesh) edges) st3)
    as [st4 H4].
  { unfold es in He. rewrite <- tagged_with_positions_snd in He.
    apply Forall_fmap in He. exact He. }
  { lia. }
  { rewrite tagged_with_positions_length. fold es. lia. }
  rewrite H4, bind_Ok_l.
  apply emit_loop_spec in H4 as (O4 & L4 & _); [|lia].
  rewrite tagged_with_positions_length in O4. fold es in O4.
  rewrite (for_each_ext _ _ _ _ (model_vertex_dual_vertex_emit _)).
  destruct (emit_loop_total (arr_get (nodes tet_mesh)) (fun st _ => st)
              vs st4) as [st5 H5]; [exact Hv | lia | lia |].
  fold vs. rewrite H5, bind_Ok_l.
  apply emit_loop_spec in H5 as (O5 & _); [|lia].
  rewrite ASSERT_true by (apply Z.eqb_eq; lia).
  eexists. reflexivity.
Qed.

(** When no index occurs twice among the entries of the external face
    tags, among those of the internal face tags, among those of the edge
    tags and among those of the vertex tags, the dual-node count is the
    number of primal cells plus the numbers of these entries; lines
    297-365, when passed, fill the node array in four contiguous blocks in
    this order (cells, faces, edges, vertices) and leave the offset at the
    count; and they are passed when the array has that many slots and
    every tagged element can be read. *)
Theorem dual_node_count_and_blocks (tet_mesh : mesh_t)
    (ext int edges verts : list string) ts (nodes0 : list point_t) :
  let faces := tagged (face_tags tet_mesh) ext ++ tagged (face_tags tet_mesh) int in
  let es := tagged (edge_tags tet_mesh) edges in
  let vs := tagged (node_tags tet_mesh) verts in
  let nc := Z.to_nat (num_cells tet_mesh) in
  let n := count_dual_nodes tet_mesh ts in
  build_tagged_sets tet_mesh ext int edges verts = Ok ts ->
  NoDup (tagged (face_tags tet_mesh) ext) ->
  NoDup (tagged (face_tags tet_mesh) int) ->
  NoDup es -> NoDup vs ->
  0 <= num_cells tet_mesh ->
  n = num_cells tet_mesh + Z.of_nat (length faces) + Z.of_nat (length es)
      + Z.of_nat (length vs)
  /\ (forall st,
        generate_dual_vertices tet_mesh ext int edges verts n nodes0 = Ok st ->
        dv_offset st = n
        /\ (forall c, (c < nc)%nat ->
              dv_nodes st !! c = Some default_dual_vertex)
        /\ (forall j f, faces !! j = Some f ->
              exists p, arr_get (face_centers tet_mesh) f = Ok p
                /\ dv_nodes st !! (nc + j)%nat = Some p)
        /\ (forall j e, es !! j = Some e ->
              exists p, edge_midpoint tet_mesh e = Ok p
                /\ dv_nodes st !! (nc + length faces + j)%nat = Some p)
        /\ (forall j v, vs !! j = Some v ->
              exists p, arr_get (nodes tet_mesh) v = Ok p
                /\ dv_nodes st !! (nc + length faces + length es + j)%nat
                   = Some p))
  /\ (length nodes0 = Z.to_nat n ->
      Forall (fun f => is_ok (arr_get (face_centers tet_mesh) f) = true) faces ->
      Forall (fun e => is_ok (edge_midpoint tet_mesh e) = true) es ->
      Forall (fun v => is_ok (arr_get (nodes tet_mesh) v) = true) vs ->
      exists st,
        generate_dual_vertices tet_mesh ext int edges verts n nodes0 = Ok st).
Proof.
  intros faces es vs nc n Hts Dext Dint Des Dvs Hnc.
  assert (Hn : n = num_cells tet_mesh + Z.of_nat (length faces)
                   + Z.of_nat (length es) + Z.of_nat (length vs)).
  { apply build_tagged_sets_members in Hts as (He & Hi & Hed & Hv).
    unfold n, count_dual_nodes. rewrite He, Hi, Hed, Hv.
    rewrite !size_tagged by assumption.
    unfold faces. rewrite length_app. fold es vs. lia. }
  split; [exact Hn|]. split.
  - intros st Hst.
    destruct (generate_dual_vertices_layout _ _ _ _ _ _ _ _ Hnc Hst)
      as (Ho & _ & Hc & Hf & He & Hv & _).
    fold faces es vs nc in Ho, Hc, Hf, He, Hv.
    split; [lia|]. auto.
  - intros Hlen Hf He Hv.
    apply generate_dual_vertices_total; assumption.
Qed.

(** The set of the entries of a tag is smaller than the tag when an entry
    is repeated. *)
Lemma size_tagged_le (l : list Z) :
  int_unordered_set_size (list_to_set l) <= Z.of_nat (length l)
  /\ (int_unordered_set_size (list_to_set l) = Z.of_nat (length l) ->
      NoDup l).
Proof.
  unfold int_unordered_set_size. induction l as [|x l [IHle IHeq]].
  - rewrite list_to_set_nil, size_empty.
    split; [simpl; lia | intros _; constructor].
  - rewrite list_to_set_cons, length_cons.
    destruct (decide (x ∈ l)) as [Hin|Hout].
    + replace ({[x]} ∪ list_to_set l : gset Z) with (list_to_set l : gset Z)
        by (apply set_eq; intros y; rewrite elem_of_union, elem_of_singleton,
              elem_of_list_to_set; split; [auto | intros [->|?]; assumption]).
      split; lia.
    + rewrite size_union, size_singleton
        by (apply disjoint_singleton_l; rewrite elem_of_list_to_set; exact Hout).
      split; [lia|]. intros Heq. constructor; [exact Hout|].
      apply IHeq. lia.
Qed.

(** Lines 297-365, when passed, have stored every dual vertex inside the
    node array, and in a debugging build the offset is the count they were
    given. *)
Lemma emit_loop_in_bounds {A} (src : A -> result point_t) upd (l : list A)
    st st' :
  0 <= dv_offset st <= Z.of_nat (length (dv_nodes st)) ->
  for_each (emit src upd) l st = Ok st' ->
  0 <= dv_offset st' <= Z.of_nat (length (dv_nodes st')).
Proof.
  intros [H0 Hle] H.
  apply emit_loop_spec in H as (Ho & Hlen & Hb & _); [|exact H0].
  rewrite Hlen. destruct l as [|a l].
  - simpl in Ho. lia.
  - specialize (Hb ltac:(discriminate)). lia.
Qed.

Lemma generate_dual_vertices_in_bounds (tet_mesh : mesh_t)
    (ext int edges verts : list string) (n : Z) (nodes0 : list point_t) st :
  0 <= num_cells tet_mesh ->
  generate_dual_vertices tet_mesh ext int edges verts n nodes0 = Ok st ->
  dv_offset st <= Z.of_nat (length nodes0)
  /\ (ndebug = false -> dv_offset st = n).
Proof.
  intros Hnc H. unfold generate_dual_vertices in H.
  ok_bind H st1 H1. ok_bind H st2 H2. ok_bind H st3 H3. ok_bind H st4 H4.
  ok_bind H st5 H5. ok_bind H u Hu. injection H as <-.
  unfold for_range in H1. rewrite Z.sub_0_r in H1.
  rewrite (for_each_ext _ _ _ _ (cell_dual_vertex_emit _)) in H1.
  rewrite (for_each_ext _ _ _ _ (model_face_dual_vertex_emit _)) in H2.
  rewrite (for_each_ext _ _ _ _ (model_face_dual_vertex_emit _)) in H3.
  rewrite (for_each_ext _ _ _ _ (model_edge_dual_vertex_emit _)) in H4.
  rewrite (for_each_ext _ _ _ _ (model_vertex_dual_vertex_emit _)) in H5.
  assert (L1 : length (dv_nodes st1) = length nodes0)
    by (apply emit_loop_spec in H1 as (_ & L & _); [exact L | simpl; lia]).
  apply emit_loop_in_bounds in H1; [|simpl; lia].
  pose proof (emit_loop_spec _ _ _ _ _ (proj1 H1) H2) as (_ & L2 & _).
  apply emit_loop_in_bounds in H2; [|exact H1].
  pose proof (emit_loop_spec _ _ _ _ _ (proj1 H2) H3) as (_ & L3 & _).
  apply emit_loop_in_bounds in H3; [|exact H2].
  pose proof (emit_loop_spec _ _ _ _ _ (proj1 H3) H4) as (_ & L4 & _).
  apply emit_loop_in_bounds in H4; [|exact H3].
  pose proof (emit_loop_spec _ _ _ _ _ (proj1 H4) H5) as (_ & L5 & _).
  apply emit_loop_in_bounds in H5; [|exact H4].
  split; [lia|].
  intros Hd. apply (ASSERT_Ok_debug _ _ _ Hd) in Hu. apply Z.eqb_eq in Hu.
  exact Hu.
Qed.

(** C5 (the code departs from the claim).  The dual-node count is taken
    from the sets of tagged elements (lines 251-253) and the dual vertices
    are generated along the tag arrays (lines 312-364): lines 297-365,
    when passed, leave the offset at the number of cells plus the number
    of entries of the tags.  So when an element is entered twice, in two
    tags of one family or twice in one tag, there are more dual vertices
    than were counted: on a node array with one slot per counted node
    (the array of [mesh_new]) the generation runs past the end, and with
    more room a debugging build stops at the assertion of line 365. *)
Theorem repeated_tag_entry_overruns_dual_nodes (tet_mesh : mesh_t)
    (ext int edges verts : list string) ts (nodes0 : list point_t) :
  let fe := tagged (face_tags tet_mesh) ext in
  let fi := tagged (face_tags tet_mesh) int in
  let es := tagged (edge_tags tet_mesh) edges in
  let vs := tagged (node_tags tet_mesh) verts in
  let generated :=
    num_cells tet_mesh + Z.of_nat (length fe) + Z.of_nat (length fi)
    + Z.of_nat (length es) + Z.of_nat (length vs) in
  build_tagged_sets tet_mesh ext int edges verts = Ok ts ->
  0 <= num_cells tet_mesh ->
  ~ NoDup fe \/ ~ NoDup fi \/ ~ NoDup es \/ ~ NoDup vs ->
  count_dual_nodes tet_mesh ts < generated
  /\ (forall n st,
        generate_dual_vertices tet_mesh ext int edges verts n nodes0 = Ok st ->
        dv_offset st = generated
        /\ generated <= Z.of_nat (length nodes0)
        /\ (ndebug = false -> n = generated))
  /\ (length nodes0 = Z.to_nat (count_dual_nodes tet_mesh ts) ->
      forall n,
        is_ok (generate_dual_vertices tet_mesh ext int edges verts n nodes0)
        = false)
  /\ (ndebug = false ->
      is_ok (generate_dual_vertices tet_mesh ext int edges verts
               (count_dual_nodes tet_mesh ts) nodes0) = false).
Proof.
  intros fe fi es vs generated Hts Hnc Hdup.
  assert (Hcount : count_dual_nodes tet_mesh ts < generated).
  { apply build_tagged_sets_members in Hts as (He & Hi & Hed & Hv).
    unfold count_dual_nodes. rewrite He, Hi, Hed, Hv. fold fe fi es vs.
    destruct (size_tagged_le fe) as [Le1 Eq1], (size_tagged_le fi) as [Le2 Eq2],
      (size_tagged_le es) as [Le3 Eq3], (size_tagged_le vs) as [Le4 Eq4].
    unfold generated.
    destruct Hdup as [Hd|[Hd|[Hd|Hd]]].
    - assert (int_unordered_set_size (list_to_set fe) <> Z.of_nat (length fe))
        by (intros Heq; apply Hd, Eq1, Heq). lia.
    - assert (int_unordered_set_size (list_to_set fi) <> Z.of_nat (length fi))
        by (intros Heq; apply Hd, Eq2, Heq). lia.
    - assert (int_unordered_set_size (list_to_set es) <> Z.of_nat (length es))
        by (intros Heq; apply Hd, Eq3, Heq). lia.
    - assert (int_unordered_set_size (list_to_set vs) <> Z.of_nat (length vs))
        by (intros Heq; apply Hd, Eq4, Heq). lia. }
  assert (Hrun : forall n st,
            generate_dual_vertices tet_mesh ext int edges verts n nodes0 = Ok st ->
            dv_offset st = generated
            /\ generated <= Z.of_nat (length nodes0)
            /\ (ndebug = false -> n = generated)).
  { intros n st Hst.
    destruct (generate_dual_vertices_layout _ _ _ _ _ _ _ _ Hnc Hst)
      as (Ho & _).
    fold fe fi es vs in Ho. rewrite length_app in Ho.
    destruct (generate_dual_vertices_in_bounds _ _ _ _ _ _ _ _ Hnc Hst)
      as [Hle Hn].
    unfold generated. split; [lia|]. split; [lia|].
    intros Hd. specialize (Hn Hd). lia. }
  split; [exact Hcount|]. split; [exact Hrun|]. split.
  - intros Hlen n.
    destruct (generate_dual_vertices _ _ _ _ _ n nodes0) as [st|] eqn:Hst;
      [|reflexivity].
    exfalso. destruct (Hrun _ _ Hst) as (_ & Hle & _).
    assert (0 <= count_dual_nodes tet_mesh ts)
      by (unfold count_dual_nodes, int_unordered_set_size; lia).
    lia.
  - intros Hd.
    destruct (generate_dual_vertices _ _ _ _ _ _ nodes0) as [st|] eqn:Hst;
      [|reflexivity].
    exfalso. destruct (Hrun _ _ Hst) as (_ & _ & Hn). specialize (Hn Hd). lia.
Qed.

(** ** The edge lookup map *)

Lemma emit_loop_face_map_only {A} (src : A -> result point_t) upd
    (l : list A) st st' :
  (forall st a, dual_node_for_edge (upd st a) = dual_node_for_edge st) ->
  for_each (emit src upd) l st = Ok st' ->
  dual_node_for_edge st' = dual_node_for_edge st.
Proof.
  intros Hupd H.
  eapply (for_each_invariant
    (fun s => dual_node_for_edge s = dual_node_for_edge st)); [| |exact H].
  - intros s a s' Hs Hb.
    apply emit_Ok in Hb as (_ & _ & _ & _ & _ & _ & ->).
    rewrite Hupd. exact Hs.
  - reflexivity.
Qed.

(** The map after the loop of lines 341-351 over one tag: the keys are
    the positions in the tag. *)
Lemma edge_map_positions (tet_mesh : mesh_t) (l : list (Z * Z)) (k0 : Z)
    st st' :
  l.*1 = seqZ k0 (Z.of_nat (length l)) ->
  for_each (emit (fun e_edge : Z * Z => edge_midpoint tet_mesh e_edge.2)
              bind_edge_position) l st = Ok st' ->
  forall k, dual_node_for_edge st' !! k =
    if decide (k0 <= k < k0 + Z.of_nat (length l))
    then Some (dv_offset st + (k - k0))
    else dual_node_for_edge st !! k.
Proof.
  revert k0 st. induction l as [|[e edge] l IH]; intros k0 st Hl; simpl.
  - intros [= <-] k. destruct (decide _); [lia | reflexivity].
  - destruct (emit _ _ st (e, edge)) as [st1|] eqn:H1; [|discriminate].
    intros H k.
    rewrite length_cons, Nat2Z.inj_succ, seqZ_cons in Hl by lia.
    simpl in Hl. injection Hl as -> Hl.
    replace (Z.pred (Z.succ (Z.of_nat (length l)))) with (Z.of_nat (length l))
      in Hl by lia.
    apply emit_Ok in H1 as (_ & _ & _ & _ & Ho1 & _ & Hm1).
    rewrite (IH _ _ Hl H k), Hm1, Ho1. simpl.
    destruct (decide (Z.succ k0 <= k < Z.succ k0 + Z.of_nat (length l))).
    + destruct (decide _); [f_equal; lia | lia].
    + destruct (decide (k0 = k)) as [->|Hne].
      * rewrite lookup_insert_eq.
        destruct (decide _); [f_equal; lia | lia].
      * rewrite lookup_insert_ne by exact Hne.
        destruct (decide _); [lia | reflexivity].
Qed.

(** C7 (the code departs from the claim).  With one edge tag, the map
    [dual_node_for_edge] that lines 336-352 build is keyed by the position
    [e] in the tag array: position [k] is bound to the dual vertex of the
    edge [tag[k]], and a primal edge index that is not a position is not
    a key at all. *)
Theorem edge_map_keyed_by_position (tet_mesh : mesh_t)
    (ext int verts : list string) (name : string) (n : Z)
    (nodes0 : list point_t) st :
  let faces := tagged (face_tags tet_mesh) ext ++ tagged (face_tags tet_mesh) int in
  let tag := mesh_tag (edge_tags tet_mesh) name in
  0 <= num_cells tet_mesh ->
  generate_dual_vertices tet_mesh ext int [name] verts n nodes0 = Ok st ->
  (forall k, dual_node_for_edge st !! k =
     if decide (0 <= k < Z.of_nat (length tag))
     then Some (num_cells tet_mesh + Z.of_nat (length faces) + k)
     else None)
  /\ (forall k edge, tag !! k = Some edge ->
        exists p, edge_midpoint tet_mesh edge = Ok p
          /\ dv_nodes st !! (Z.to_nat (num_cells tet_mesh) + length faces + k)%nat
             = Some p).
Proof.
  intros faces tag Hnc H. split.
  - unfold generate_dual_vertices in H.
    ok_bind H st1 H1. ok_bind H st2 H2. ok_bind H st3 H3. ok_bind H st4 H4.
    ok_bind H st5 H5. ok_bind H u Hu. injection H as <-.
    unfold for_range in H1. rewrite Z.sub_0_r in H1.
    rewrite (for_each_ext _ _ _ _ (cell_dual_vertex_emit _)) in H1.
    rewrite (for_each_ext _ _ _ _ (model_face_dual_vertex_emit _)) in H2.
    rewrite (for_each_ext _ _ _ _ (model_face_dual_vertex_emit _)) in H3.
    rewrite (for_each_ext _ _ _ _ (model_edge_dual_vertex_emit _)) in H4.
    rewrite (for_each_ext _ _ _ _ (model_vertex_dual_vertex_emit _)) in H5.
    pose proof (emit_loop_face_map_only _ _ _ _ _ (fun _ _ => eq_refl) H1) as M1.
    pose proof (emit_loop_face_map_only _ bind_face _ _ _
                  (fun _ _ => eq_refl) H2) as M2.
    pose proof (emit_loop_face_map_only _ bind_face _ _ _
                  (fun _ _ => eq_refl) H3) as M3.
    pose proof (emit_loop_face_map_only _ _ _ _ _ (fun _ _ => eq_refl) H5) as M5.
    apply emit_loop_spec in H1 as (O1 & _); [|simpl; lia].
    simpl in O1. rewrite length_seqZ in O1.
    apply emit_loop_spec in H2 as (O2 & _); [|lia].
    apply emit_loop_spec in H3 as (O3 & _); [|lia].
    unfold tagged_with_positions in H4. simpl in H4. rewrite app_nil_r in H4.
    fold tag in H4.
    intros k. rewrite M5.
    rewrite (edge_map_positions tet_mesh (enumerate tag) 0 st3 st4); cycle 1.
    { rewrite enumerate_fst. f_equal.
      rewrite <- (enumerate_snd tag) at 1. rewrite length_fmap. reflexivity. }
    { exact H4. }
    assert (Hlen : length (enumerate tag) = length tag)
      by (rewrite <- (enumerate_snd tag) at 2; rewrite length_fmap; reflexivity).
    rewrite Hlen, M3, M2, M1. simpl.
    unfold faces. rewrite length_app.
    destruct (decide _); [f_equal; lia | apply lookup_empty].
  - intros k edge Hk.
    destruct (generate_dual_vertices_layout _ _ _ _ _ _ _ _ Hnc H)
      as (_ & _ & _ & _ & Hedges & _).
    apply (Hedges k edge). unfold tagged. simpl. rewrite app_nil_r. exact Hk.
Qed.


(** ** order_nodes_of_dual_face *)

(** The condition of an assertion, from the hypotheses. *)
Ltac assert_holds :=
  first [ apply Z.leb_le; lia
        | apply negb_true_iff, Z.eqb_neq; first [assumption | lia]
        | reflexivity ].

(** A loop goes through when an invariant makes every iteration go
    through. *)
Lemma for_each_total {S A} (P : S -> Prop) (body : S -> A -> result S)
    (l : list A) (s : S) :
  P s ->
  (forall s a, a ∈ l -> P s -> exists s', body s a = Ok s' /\ P s') ->
  exists s', for_each body l s = Ok s' /\ P s'.
Proof.
  revert s. induction l as [|a l IH]; intros s Hs Hstep; simpl.
  - eauto.
  - destruct (Hstep s a) as (s1 & H1 & Hs1); [left | exact Hs |].
    rewrite H1. apply IH; [exact Hs1|].
    intros s2 b Hb. apply Hstep. right. exact Hb.
Qed.

(** The loop of lines 70-80 writes slot 0 of [tweener_nodes] and no
    other. *)
Lemma project_tweeners_slot_0 (plane : sp_func_t) (dual_nodes : list point_t)
    (dni : list Z) (tw0 : list dual_face_node_ordering_t) (cands : list Z) :
  (2 < length dni)%nat -> (0 < length tw0)%nat ->
  Forall (fun i => 0 <= i < Z.of_nat (length dual_nodes)) cands ->
  exists tw,
    for_each (project_tweener plane dual_nodes dni 0) cands tw0 = Ok tw
    /\ length tw = length tw0
    /\ (tw = tw0 \/ exists t, tw = <[0%nat := t]> tw0).
Proof.
  intros Hdni Htw Hc.
  apply (for_each_total
    (fun tw => length tw = length tw0
               /\ (tw = tw0 \/ exists t, tw = <[0%nat := t]> tw0))).
  { auto. }
  intros tw i Hi [Hlen Hshape].
  rewrite Forall_forall in Hc. specialize (Hc i Hi).
  unfold project_tweener.
  destruct (arr_get_in_range dni 0) as [d0 ->]; [lia|].
  destruct (arr_get_in_range dni 2) as [d2 ->]; [lia|].
  rewrite !bind_Ok_l.
  destruct (negb (i =? d0) && negb (i =? d2)); [|eauto].
  destruct (arr_get_in_range dual_nodes i) as [p ->]; [lia|].
  rewrite bind_Ok_l, arr_set_in_range by lia.
  eexists. split; [reflexivity|]. split; [rewrite length_insert; exact Hlen|].
  right. destruct Hshape as [->|[t ->]]; eexists; [reflexivity|].
  apply list_insert_insert_eq.
Qed.

(** The loop of lines 85-86 copies the indices of the first [m] tweeners
    to slots 1..m. *)
Lemma put_back_loop (tw : list dual_face_node_ordering_t) (m : nat)
    (d : list Z) :
  (m <= length tw)%nat -> (m < length d)%nat ->
  exists d',
    for_each (put_back tw) (seqZ 0 (Z.of_nat m)) d = Ok d'
    /\ length d' = length d
    /\ (forall i, (i < m)%nat -> d' !! S i = index <$> tw !! i)
    /\ (forall k, (k = 0 \/ m < k)%nat -> d' !! k = d !! k).
Proof.
  induction m as [|m IH]; intros Htw Hd.
  - exists d. simpl. split; [reflexivity|]. split; [reflexivity|].
    split; [intros i Hi; lia | reflexivity].
  - destruct IH as (d1 & Hrun & Hlen & Hcopied & Hkept); [lia | lia |].
    rewrite seqZ_S, for_each_app, Hrun, bind_Ok_l. simpl.
    rewrite Z.add_0_l. unfold put_back.
    destruct (lookup_lt_is_Some_2 tw m) as [t Ht]; [lia|].
    rewrite (proj2 (arr_get_Ok tw (Z.of_nat m) t))
      by (rewrite Nat2Z.id; split; [lia | exact Ht]).
    rewrite bind_Ok_l, arr_set_in_range by lia.
    replace (Z.to_nat (Z.of_nat m + 1)) with (S m) by lia.
    eexists. split; [reflexivity|].
    split; [rewrite length_insert; exact Hlen|]. split.
    + intros i Hi. destruct (decide (i = m)) as [->|Hne].
      * rewrite list_lookup_insert_eq by lia. rewrite Ht. reflexivity.
      * rewrite list_lookup_insert_ne by lia. apply Hcopied. lia.
    + intros k Hk. rewrite list_lookup_insert_ne by lia. apply Hkept. lia.
Qed.

(** C1 (the code departs from the claim).  With more than three nodes,
    and a [qsort] that keeps the length of the array, the function
    returns a list whose first and last entries are both the first
    endpoint, so the last entry is not the second endpoint; the entries
    in between are the indices of the sorted array [tweener_nodes], of
    which the loop of lines 70-80 has written at most slot 0. *)
Theorem order_nodes_ends_at_first_endpoint (plane : sp_func_t)
    (endpoint_indices : Z * Z) (dual_nodes : list point_t) (num_nodes : Z)
    (tweener_junk : nat -> dual_face_node_ordering_t)
    (dual_node_indices : list Z) :
  3 < num_nodes ->
  length dual_node_indices = Z.to_nat num_nodes ->
  length dual_nodes = Z.to_nat num_nodes ->
  (forall (A : Type) cmp (l : list A), length (qsort A cmp l) = length l) ->
  endpoint_indices.1 <> -1 -> endpoint_indices.2 <> -1 ->
  endpoint_indices.1 <> endpoint_indices.2 ->
  let junk := map tweener_junk (seq 0 (Z.to_nat (num_nodes - 2))) in
  exists dni' tweener_nodes,
    order_nodes_of_dual_face plane endpoint_indices dual_nodes num_nodes
      tweener_junk dual_node_indices = Ok dni'
    /\ length dni' = Z.to_nat num_nodes
    /\ dni' !! 0%nat = Some endpoint_indices.1
    /\ dni' !! Z.to_nat (num_nodes - 1) = Some endpoint_indices.1
    /\ dni' !! Z.to_nat (num_nodes - 1) <> Some endpoint_indices.2
    /\ (tweener_nodes = junk \/ exists t, tweener_nodes = <[0%nat := t]> junk)
    /\ (forall i, (i < Z.to_nat (num_nodes - 2))%nat ->
          dni' !! S i
          = index <$> qsort _ dual_face_node_cmp tweener_nodes !! i).
Proof.
  intros Hn Hdni Hdn Hqsort He1 He2 He12 junk.
  unfold order_nodes_of_dual_face.
  rewrite !ASSERT_true by assert_holds.
  rewrite !bind_Ok_l.
  destruct (Z.eqb_spec num_nodes 2) as [?|_]; [lia|].
  destruct (Z.eqb_spec num_nodes 3) as [?|_]; [lia|].
  unfold vla. destruct (Z.ltb_spec 0 (num_nodes - 2)) as [_|?]; [|lia].
  fold junk. rewrite bind_Ok_l. cbv zeta.
  unfold for_range. rewrite !Z.sub_0_r.
  destruct (project_tweeners_slot_0 plane dual_nodes dual_node_indices junk
              (seqZ 0 num_nodes)) as (tw & Htw & Htwlen & Hshape).
  { lia. }
  { unfold junk. rewrite length_map, length_seq. lia. }
  { apply Forall_forall. intros i Hi.
    apply list_elem_of_lookup in Hi as [k Hk].
    apply lookup_seqZ in Hk. lia. }
  rewrite Htw, bind_Ok_l.
  rewrite arr_set_in_range by lia. rewrite bind_Ok_l.
  set (sorted := qsort _ dual_face_node_cmp tw).
  set (d0 := <[Z.to_nat 0 := endpoint_indices.1]> dual_node_indices).
  assert (Hjunk : length junk = Z.to_nat (num_nodes - 2))
    by (unfold junk; rewrite length_map, length_seq; reflexivity).
  destruct (put_back_loop sorted (Z.to_nat (num_nodes - 2)) d0)
    as (d1 & Hrun & Hlen1 & Hcopied & Hkept).
  { unfold sorted. rewrite Hqsort, Htwlen, Hjunk. lia. }
  { unfold d0. rewrite length_insert. lia. }
  rewrite Z2Nat.id in Hrun by lia. rewrite Hrun, bind_Ok_l.
  assert (Hlen : length d1 = Z.to_nat num_nodes)
    by (rewrite Hlen1; unfold d0; rewrite length_insert; exact Hdni).
  rewrite arr_set_in_range by lia.
  assert (Hlast : <[Z.to_nat (num_nodes - 1) := endpoint_indices.1]> d1
                    !! Z.to_nat (num_nodes - 1) = Some endpoint_indices.1)
    by (apply list_lookup_insert_eq; lia).
  exists (<[Z.to_nat (num_nodes - 1) := endpoint_indices.1]> d1), tw.
  split; [reflexivity|].
  split; [rewrite length_insert; exact Hlen|].
  split.
  { rewrite list_lookup_insert_ne by lia. rewrite Hkept by lia.
    unfold d0. apply list_lookup_insert_eq. lia. }
  split; [exact Hlast|].
  split; [rewrite Hlast; congruence|].
  split; [exact Hshape|].
  intros i Hi. rewrite list_lookup_insert_ne by lia. apply Hcopied. exact Hi.
Qed.

(** With two nodes the list is the two endpoints, and nothing is
    sorted. *)
Lemma order_two_nodes (plane : sp_func_t) (endpoint_indices : Z * Z)
    (dual_nodes : list point_t)
    (tweener_junk : nat -> dual_face_node_ordering_t) (a b : Z) :
  endpoint_indices.1 <> -1 -> endpoint_indices.2 <> -1 ->
  endpoint_indices.1 <> endpoint_indices.2 ->
  order_nodes_of_dual_face plane endpoint_indices dual_nodes 2 tweener_junk
    [a; b] = Ok [endpoint_indices.1; endpoint_indices.2].
Proof.
  intros He1 He2 He12. unfold order_nodes_of_dual_face.
  rewrite !ASSERT_true by assert_holds. reflexivity.
Qed.

(** With three nodes whose endpoints are two of the positions 0, 1, 2,
    the third position is in the middle. *)
Lemma order_three_nodes (plane : sp_func_t) (endpoint_indices : Z * Z)
    (dual_nodes : list point_t)
    (tweener_junk : nat -> dual_face_node_ordering_t) (a b c : Z) :
  0 <= endpoint_indices.1 < 3 -> 0 <= endpoint_indices.2 < 3 ->
  endpoint_indices.1 <> endpoint_indices.2 ->
  order_nodes_of_dual_face plane endpoint_indices dual_nodes 3 tweener_junk
    [a; b; c]
  = Ok [endpoint_indices.1;
        3 - endpoint_indices.1 - endpoint_indices.2;
        endpoint_indices.2].
Proof.
  intros He1 He2 He12. unfold order_nodes_of_dual_face.
  rewrite !ASSERT_true by assert_holds.
  destruct endpoint_indices as [e1 e2]. simpl in *.
  assert (H1 : e1 = 0 \/ e1 = 1 \/ e1 = 2) by lia.
  assert (H2 : e2 = 0 \/ e2 = 1 \/ e2 = 2) by lia.
  destruct H1 as [->|[->| ->]], H2 as [->|[->| ->]];
    try (exfalso; apply He12; reflexivity); reflexivity.
Qed.


(** ** Dual faces of primal edges *)

Lemma memcpy_at_length {A} (dst src dst' : list A) (off n : Z) :
  memcpy_at dst off src n = Ok dst' -> length dst' = length dst.
Proof.
  unfold memcpy_at.
  destruct (Z.leb_spec 0 off), (Z.leb_spec 0 n),
    (Z.leb_spec n (Z.of_nat (length src))),
    (Z.leb_spec (off + n) (Z.of_nat (length dst))); simpl; try discriminate.
  intros [= <-]. rewrite !length_app, !length_take, length_drop. lia.
Qed.

Lemma int_array_resize_Ok (n : Z) (junk : nat -> Z) (a : list Z) :
  int_array_resize n junk = Ok a ->
  0 <= n /\ a = map junk (seq 0 (Z.to_nat n)).
Proof.
  unfold int_array_resize. destruct (Z.leb_spec 0 n); [|discriminate].
  intros [= <-]. auto.
Qed.

Lemma int_array_store_Ok (a : list Z) (i v : Z) (a' : list Z) :
  int_array_store a i v = Ok a' ->
  (0 <= i < Z.of_nat (length a) /\ a' = <[Z.to_nat i := v]> a)
  \/ (Z.of_nat (length a) <= i /\ a' = a).
Proof.
  unfold int_array_store. cbv zeta.
  destruct ((0 <=? i) && (i <? Z.of_nat (length a))) eqn:Hin.
  - intros [= <-]. left.
    apply andb_true_iff in Hin as [H0%Z.leb_le H1%Z.ltb_lt].
    split; [lia | reflexivity].
  - destruct ((Z.of_nat (length a) <=? i) && _) eqn:Hs; [|discriminate].
    intros [= <-]. right.
    apply andb_true_iff in Hs as [H0%Z.leb_le _]. auto.
Qed.

Lemma int_array_store_length (a : list Z) (i v : Z) (a' : list Z) :
  int_array_store a i v = Ok a' -> length a' = length a.
Proof.
  intros [[_ ->]|[_ ->]]%int_array_store_Ok;
    [apply length_insert | reflexivity].
Qed.

(** A write at [data[size]] is not a write to an element. *)
Lemma int_array_store_at_size (a : list Z) (n v : Z) (a' : list Z) :
  0 <= n -> length a = Z.to_nat n ->
  int_array_store a n v = Ok a' -> a' = a.
Proof.
  intros Hn Hl [[Hr _]|[_ ->]]%int_array_store_Ok; [lia | reflexivity].
Qed.

Lemma map_deref_Ok (line : Z) (m : gmap Z Z) (k v : Z) :
  map_deref line m k = Ok v -> m !! k = Some v.
Proof.
  unfold map_deref. intros H. ok_bind H u Hu.
  destruct (m !! k); [congruence | discriminate].
Qed.

Lemma last_insert_end (l : list Z) (n : Z) (v : Z) :
  0 <= n -> length l = Z.to_nat (n + 1) ->
  last (<[Z.to_nat n := v]> l) = Some v.
Proof.
  intros Hn Hl. rewrite last_lookup, length_insert, Hl.
  replace (Nat.pred (Z.to_nat (n + 1))) with (Z.to_nat n) by lia.
  apply list_lookup_insert_eq. lia.
Qed.

(** The external-boundary branch emits one face; for a model edge its
    last entry is what [dual_node_for_edge] binds to the key [edge]. *)
Lemma external_face_edge_Ok (tet_mesh : mesh_t) (ts : tagged_sets)
    (dnfe : gmap Z Z) (is_model_edge : bool) cells st st' (edge : Z) :
  external_face_edge tet_mesh ts dnfe is_model_edge cells st edge = Ok st' ->
  df_offset st' = df_offset st + 1
  /\ (is_model_edge = true ->
      exists face v,
        nodes_for_dual_face st' !! Z.to_nat (df_offset st) = Some (Some face)
        /\ dnfe !! edge = Some v
        /\ last face = Some v).
Proof.
  unfold external_face_edge. intros H.
  ok_bind H nn Hsize. ok_bind H dns Hdn. ok_bind H dni Hdni.
  ok_bind H cs Hcs. ok_bind H g Hg. ok_bind H n1 Hn1. ok_bind H n2 Hn2.
  ok_bind H x1 Hx1. ok_bind H x2 Hx2. cbv zeta in H.
  ok_bind H ordered Hordered. ok_bind H u Hu. ok_bind H off Hoff.
  ok_bind H fno Hfno. ok_bind H nfdf0 Hstore0. ok_bind H fn0 Hresize.
  ok_bind H fn1 Hcopy. ok_bind H fn2 Happend. ok_bind H nfdf1 Hstore1.
  injection H as <-. simpl. split; [reflexivity|].
  intros ->.
  apply arr_set_Ok in Hstore1 as [Hr1 ->].
  rewrite list_lookup_insert_eq by lia.
  ok_bind Happend v Hv. apply map_deref_Ok in Hv.
  apply memcpy_at_length in Hcopy.
  apply int_array_resize_Ok in Hresize as [Hn ->].
  rewrite length_map, length_seq in Hcopy.
  change (length fn1 = Z.to_nat (nn + 1)) in Hcopy.
  apply int_array_store_Ok in Happend as [[Hr2 ->]|[Hr2 _]]; [|lia].
  exists (<[Z.to_nat nn := v]> fn1), v.
  split; [reflexivity|]. split; [exact Hv|].
  apply last_insert_end; [lia | exact Hcopy].
Qed.


Lemma copy_ring_nodes_length (nc start : Z) (dni ordering : list Z)
    (l : list Z) (fn fn' : list Z) :
  for_each (copy_ring_node nc start dni ordering) l fn = Ok fn' ->
  length fn' = length fn.
Proof.
  apply (for_each_invariant (fun a => length a = length fn));
    [|reflexivity].
  intros a i a' Ha Hb. unfold copy_ring_node in Hb.
  ok_bind Hb o Ho. ok_bind Hb v Hv.
  apply int_array_store_length in Hb. congruence.
Qed.

(** Steps through the same statement of two runs of a branch that agree
    on what it reads. *)
Ltac same_bind H1 H2 x Hx :=
  ok_bind H1 x Hx;
  let y := fresh x in
  let Hy := fresh Hx in
  ok_bind H2 y Hy; rewrite Hx in Hy; injection Hy as <-.

(** On a model edge the writes of lines 539-540 leave the elements of the
    two arrays as they are. *)
Lemma model_edge_vertex_not_stored (dnfe : gmap Z Z) (is_model_edge : bool)
    (edge n1 n2 : Z) (f1 f2 : list Z) (fp : list Z * list Z) :
  0 <= n1 -> length f1 = Z.to_nat n1 ->
  0 <= n2 -> length f2 = Z.to_nat n2 ->
  (if is_model_edge then
     dual_node_from_edge ← map_deref 537 dnfe edge;
     face1_nodes ← int_array_store f1 n1 dual_node_from_edge;
     face2_nodes ← int_array_store f2 n2 dual_node_from_edge;
     Ok (face1_nodes, face2_nodes)
   else Ok (f1, f2)) = Ok fp ->
  fp = (f1, f2).
Proof.
  intros Hn1 Hl1 Hn2 Hl2 H. destruct is_model_edge.
  - ok_bind H v Hv. ok_bind H f1' Hs1. ok_bind H f2' Hs2.
    injection H as <-.
    apply (int_array_store_at_size _ _ _ _ Hn1 Hl1) in Hs1.
    apply (int_array_store_at_size _ _ _ _ Hn2 Hl2) in Hs2.
    congruence.
  - congruence.
Qed.

(** The internal-interface branch, when it returns: two faces are
    counted, and the array of the second face is as [int_array_resize]
    left it: nothing was stored in it. *)
Lemma internal_face_edge_Ok (tet_mesh : mesh_t) (ts : tagged_sets)
    (dnfe : gmap Z Z) (is_model_edge : bool) cells st st' (edge : Z) :
  internal_face_edge tet_mesh ts dnfe is_model_edge cells st edge = Ok st' ->
  df_offset st' = df_offset st + 2
  /\ exists n2 : nat,
       nodes_for_dual_face st' !! Z.to_nat (df_offset st + 1)
       = Some (Some (map (uninit_array (df_offset st + 1)) (seq 0 n2))).
Proof.
  unfold internal_face_edge. intros H.
  ok_bind H nc Hsize. ok_bind H dns Hdn. ok_bind H dni Hdni.
  ok_bind H cs Hcs. ok_bind H g Hg. cbv zeta in H.
  ok_bind H t Ht. ok_bind H u1 Hu1. ok_bind H off1 Hoff1.
  ok_bind H fno1 Hfno1. ok_bind H nfdf1 Hstore1. ok_bind H f1 Hresize1.
  ok_bind H f1a Hloop1. ok_bind H u2 Hu2. ok_bind H off2 Hoff2.
  ok_bind H fno2 Hfno2. ok_bind H nfdf2 Hstore2. ok_bind H f2 Hresize2.
  ok_bind H f1b Hloop2. ok_bind H fp Hpair.
  apply int_array_resize_Ok in Hresize1 as [Hn1 ->].
  apply int_array_resize_Ok in Hresize2 as [Hn2 ->].
  apply copy_ring_nodes_length in Hloop1, Hloop2.
  rewrite length_map, length_seq in Hloop1.
  apply model_edge_vertex_not_stored in Hpair as ->;
    [|lia|congruence|lia|rewrite length_map, length_seq; reflexivity].
  ok_bind H nfdf3 Hstore3. ok_bind H nfdf4 Hstore4.
  injection H as <-. simpl.
  split; [reflexivity|].
  apply arr_set_Ok in Hstore4 as [Hr4 ->].
  rewrite list_lookup_insert_eq by lia. eauto.
Qed.

(** On a model edge the internal-interface branch returns the same state
    whatever [dual_node_for_edge] binds to the edge. *)
Lemma internal_face_edge_ignores_vertex (tet_mesh : mesh_t)
    (ts : tagged_sets) (dnfe1 dnfe2 : gmap Z Z) cells st st1 st2 (edge : Z) :
  internal_face_edge tet_mesh ts dnfe1 true cells st edge = Ok st1 ->
  internal_face_edge tet_mesh ts dnfe2 true cells st edge = Ok st2 ->
  st1 = st2.
Proof.
  unfold internal_face_edge. intros H1 H2.
  same_bind H1 H2 nc Hsize. same_bind H1 H2 dns Hdn.
  same_bind H1 H2 dni Hdni. same_bind H1 H2 cs Hcs. same_bind H1 H2 g Hg.
  cbv zeta in H1, H2.
  same_bind H1 H2 t Ht. same_bind H1 H2 u1 Hu1. same_bind H1 H2 off1 Hoff1.
  same_bind H1 H2 fno1 Hfno1. same_bind H1 H2 nfdf1 Hstore1.
  same_bind H1 H2 f1 Hresize1. same_bind H1 H2 f1a Hloop1.
  same_bind H1 H2 u2 Hu2. same_bind H1 H2 off2 Hoff2.
  same_bind H1 H2 fno2 Hfno2. same_bind H1 H2 nfdf2 Hstore2.
  same_bind H1 H2 f2 Hresize2. same_bind H1 H2 f1b Hloop2.
  ok_bind H1 fp1 Hpair1. ok_bind H2 fp2 Hpair2.
  apply int_array_resize_Ok in Hresize1 as [Hn1 ->].
  apply int_array_resize_Ok in Hresize2 as [Hn2 ->].
  apply copy_ring_nodes_length in Hloop1, Hloop2.
  rewrite length_map, length_seq in Hloop1.
  apply (model_edge_vertex_not_stored _ true) in Hpair1 as ->;
    [|lia|congruence|lia|rewrite length_map, length_seq; reflexivity].
  apply (model_edge_vertex_not_stored _ true) in Hpair2 as ->;
    [|lia|congruence|lia|rewrite length_map, length_seq; reflexivity].
  congruence.
Qed.

Lemma interior_edge_Ok (tet_mesh : mesh_t) cells st st' (edge : Z) :
  interior_edge tet_mesh cells st edge = Ok st' ->
  df_offset st' = df_offset st + 1.
Proof.
  unfold interior_edge. intros H.
  ok_bind H nc Hsize. ok_bind H dns Hdn. ok_bind H cs Hcs. ok_bind H g Hg.
  ok_bind H off Hoff. ok_bind H fno Hfno. cbv zeta in H.
  ok_bind H fn Hresize. ok_bind H fn1 Hcopy. ok_bind H nfdf Hstore.
  injection H as <-. reflexivity.
Qed.

(** One face for an external-boundary or an interior edge, two for an
    internal-interface edge. *)
Lemma dual_faces_for_edge_Ok (tet_mesh : mesh_t) (ts : tagged_sets)
    (inc : incidence) (dnfe : gmap Z Z) st st' (edge : Z) :
  dual_faces_for_edge tet_mesh ts inc dnfe st edge = Ok st' ->
  df_offset st' = df_offset st
                  + (if is_interface_only_edge ts edge then 2 else 1).
Proof.
  unfold dual_faces_for_edge, is_interface_only_edge. intros H.
  ok_bind H cells Hcells. ok_bind H u Hu. cbv zeta in H.
  destruct (int_unordered_set_contains (external_model_face_edges ts) edge).
  - apply external_face_edge_Ok in H as [-> _]. reflexivity.
  - destruct (int_unordered_set_contains (internal_model_face_edges ts) edge).
    + apply internal_face_edge_Ok in H as (-> & _). reflexivity.
    + apply interior_edge_Ok in H as ->. reflexivity.
Qed.

Lemma edge_loop_counter (tet_mesh : mesh_t) (ts : tagged_sets)
    (inc : incidence) (dnfe : gmap Z Z) (l : list Z) st st' :
  for_each (dual_faces_for_edge tet_mesh ts inc dnfe) l st = Ok st' ->
  df_offset st' = df_offset st + Z.of_nat (length l)
    + Z.of_nat (length (filter (fun edge => is_interface_only_edge ts edge = true) l)).
Proof.
  revert st. induction l as [|edge l IH]; intros st; simpl.
  - intros [= <-]. lia.
  - destruct (dual_faces_for_edge _ _ _ _ st edge) as [st1|] eqn:H1;
      [|discriminate].
    intros H. rewrite (IH _ H). apply dual_faces_for_edge_Ok in H1 as ->.
    rewrite filter_cons.
    destruct (decide (is_interface_only_edge ts edge = true)) as [Hd|Hd].
    + rewrite Hd. simpl. lia.
    + apply not_true_is_false in Hd. rewrite Hd. lia.
Qed.

(** C4 (the code departs from the claim).  The number of dual faces
    allocated is the number of primal edges plus the number of edges of
    tagged external faces plus the faces counted for tagged nodes; but the
    loop over the primal edges, when it is passed, leaves the face counter
    at the number of primal edges plus the number of internal-interface
    edges: one face per external-boundary or interior edge and two per
    internal-interface edge.  The edges of tagged external faces, which
    the allocation counts, add nothing to the counter. *)
Theorem edge_loop_face_counter (tet_mesh : mesh_t) (ts : tagged_sets)
    (inc : incidence) (dnfe : gmap Z Z)
    (num_dual_faces_from_boundary_vertices : Z) (fno : list Z) fs :
  0 <= num_edges tet_mesh ->
  generate_edge_faces tet_mesh ts inc dnfe
    (count_dual_faces tet_mesh ts num_dual_faces_from_boundary_vertices) fno
  = Ok fs ->
  count_dual_faces tet_mesh ts num_dual_faces_from_boundary_vertices
  = num_edges tet_mesh
    + int_unordered_set_size (external_model_face_edges ts)
    + num_dual_faces_from_boundary_vertices
  /\ df_offset fs
     = num_edges tet_mesh
       + count_interface_only_edges ts (num_edges tet_mesh).
Proof.
  intros Hne H. split; [reflexivity|].
  unfold generate_edge_faces in H.
  ok_bind H fno1 Hfno. ok_bind H st Hloop. ok_bind H u Hu.
  injection H as <-.
  unfold for_range in Hloop. rewrite Z.sub_0_r in Hloop.
  apply edge_loop_counter in Hloop. rewrite Hloop, length_seqZ. simpl.
  unfold count_interface_only_edges. lia.
Qed.

(** C6 (the code departs from the claim).  On an external-boundary model
    edge, the last entry of the dual face is what the map
    [dual_node_for_edge] binds to the primal edge index, and that map is
    keyed by positions in the tag.  On an internal-interface model edge
    the two arrays are sized without room for the edge's dual vertex:
    the writes of lines 539-540 are past their elements, so the branch,
    when it returns, leaves the same two faces whatever the map binds to
    the edge, and the second of them is the array as it was allocated. *)
Theorem model_edge_vertex_appended_by_lookup (tet_mesh : mesh_t)
    (ts : tagged_sets) (dnfe : gmap Z Z) cells st (edge : Z) :
  (forall st',
     external_face_edge tet_mesh ts dnfe true cells st edge = Ok st' ->
     exists face v,
       nodes_for_dual_face st' !! Z.to_nat (df_offset st) = Some (Some face)
       /\ dnfe !! edge = Some v
       /\ last face = Some v)
  /\ (forall st',
        internal_face_edge tet_mesh ts dnfe true cells st edge = Ok st' ->
        (forall dnfe' st'',
           internal_face_edge tet_mesh ts dnfe' true cells st edge = Ok st'' ->
           st'' = st')
        /\ exists n2 : nat,
             nodes_for_dual_face st' !! Z.to_nat (df_offset st + 1)
             = Some (Some (map (uninit_array (df_offset st + 1)) (seq 0 n2)))).
Proof.
  split.
  - intros st' H. apply external_face_edge_Ok in H as [_ H]. auto.
  - intros st' H. split.
    + intros dnfe' st'' H'.
      exact (internal_face_edge_ignores_vertex _ _ _ _ _ _ _ _ _ H' H).
    + apply internal_face_edge_Ok in H as [_ H]. exact H.
Qed.

(** C2 (the code departs from the claim).  Whenever the
    internal-interface branch returns, it has counted two dual faces, but
    the node list of the second one is the array as it was allocated:
    the loop of lines 526-530 stores its nodes in the array of the first
    face, so the two faces are not the two arcs of the ring. *)
Theorem interface_faces_are_not_the_arcs (tet_mesh : mesh_t)
    (ts : tagged_sets) (dnfe : gmap Z Z) (is_model_edge : bool) cells st st'
    (edge : Z) :
  internal_face_edge tet_mesh ts dnfe is_model_edge cells st edge = Ok st' ->
  df_offset st' = df_offset st + 2
  /\ exists n2 : nat,
       nodes_for_dual_face st' !! Z.to_nat (df_offset st + 1)
       = Some (Some (map (uninit_array (df_offset st + 1)) (seq 0 n2))).
Proof.
  intros H. apply internal_face_edge_Ok in H as (Hdf & Hface). auto.
Qed.

(** * Further properties of the construction *)

(** ** The comparator of the dual face nodes *)

Lemma SFcompare_antisym (x y : spec_float) :
  SFcompare y x = CompOpp <$> SFcompare x y.
Proof.
  destruct x as [s1|s1| |s1 m1 e1], y as [s2|s2| |s2 m2 e2]; simpl;
    try reflexivity;
    try (destruct s1; reflexivity); try (destruct s2; reflexivity);
    try (destruct s1, s2; reflexivity).
  f_equal. destruct s1, s2; try reflexivity.
  - rewrite (Z.compare_antisym e2 e1).
    destruct (e2 ?= e1) eqn:He; simpl; try reflexivity.
    f_equal. apply (Pos.compare_antisym m1 m2).
  - rewrite (Z.compare_antisym e2 e1).
    destruct (e2 ?= e1) eqn:He; simpl; try reflexivity.
    apply (Pos.compare_antisym m1 m2).
Qed.

Lemma SFltb_asym (x y : spec_float) : SFltb x y = true -> SFltb y x = false.
Proof.
  unfold SFltb. rewrite (SFcompare_antisym x y).
  destruct (SFcompare x y) as [[]|]; simpl; congruence.
Qed.

Lemma lex_lt_trans (e1 e2 e3 : Z) (m1 m2 m3 : positive) :
  match e1 ?= e2 with Eq => Pos.compare m1 m2 | Lt => Lt | Gt => Gt end = Lt ->
  match e2 ?= e3 with Eq => Pos.compare m2 m3 | Lt => Lt | Gt => Gt end = Lt ->
  match e1 ?= e3 with Eq => Pos.compare m1 m3 | Lt => Lt | Gt => Gt end = Lt.
Proof.
  destruct (Z.compare_spec e1 e2), (Z.compare_spec e2 e3); try discriminate;
    intros H1 H2; subst.
  - rewrite Z.compare_refl. apply Pos.compare_lt_iff.
    apply Pos.compare_lt_iff in H1. apply Pos.compare_lt_iff in H2.
    exact (Pos.lt_trans _ _ _ H1 H2).
  - rewrite (proj2 (Z.compare_lt_iff _ _)); [reflexivity|lia].
  - rewrite (proj2 (Z.compare_lt_iff _ _)); [reflexivity|lia].
  - rewrite (proj2 (Z.compare_lt_iff _ _)); [reflexivity|lia].
Qed.

Lemma lex_gt_trans (e1 e2 e3 : Z) (m1 m2 m3 : positive) :
  match e1 ?= e2 with Eq => CompOpp (Pos.compare m1 m2) | Lt => Gt | Gt => Lt end = Lt ->
  match e2 ?= e3 with Eq => CompOpp (Pos.compare m2 m3) | Lt => Gt | Gt => Lt end = Lt ->
  match e1 ?= e3 with Eq => CompOpp (Pos.compare m1 m3) | Lt => Gt | Gt => Lt end = Lt.
Proof.
  destruct (Z.compare_spec e1 e2), (Z.compare_spec e2 e3); try discriminate;
    intros H1 H2; subst.
  - rewrite Z.compare_refl.
    destruct (Pos.compare_spec m1 m2) as [?|?|G1]; try discriminate.
    destruct (Pos.compare_spec m2 m3) as [?|?|G2]; try discriminate.
    rewrite (proj2 (Pos.compare_gt_iff _ _)); [reflexivity|].
    exact (Pos.lt_trans _ _ _ G2 G1).
  - rewrite (proj2 (Z.compare_gt_iff _ _)); [reflexivity|lia].
  - rewrite (proj2 (Z.compare_gt_iff _ _)); [reflexivity|lia].
  - rewrite (proj2 (Z.compare_gt_iff _ _)); [reflexivity|lia].
Qed.

Lemma SFltb_trans (x y z : spec_float) :
  SFltb x y = true -> SFltb y z = true -> SFltb x z = true.
Proof.
  unfold SFltb.
  destruct x as [s1|s1| |s1 m1 e1], y as [s2|s2| |s2 m2 e2],
           z as [s3|s3| |s3 m3 e3]; simpl; try discriminate;
    try (destruct s1; discriminate); try (destruct s2; discriminate);
    try (destruct s3; discriminate);
    try (destruct s1, s2; discriminate); try (destruct s2, s3; discriminate);
    try (destruct s1, s3; try discriminate; reflexivity);
    try (destruct s1, s2, s3; try discriminate; reflexivity).
  all: destruct s1, s2, s3; try discriminate; try reflexivity.
  all: intros H1 H2.
  - pose proof (lex_gt_trans e1 e2 e3 m1 m2 m3) as H.
    change (PosDef.Pos.compare_cont Eq) with Pos.compare in *.
    destruct (match e1 ?= e2 with Eq => CompOpp (m1 ?= m2)%positive | Lt => Gt | Gt => Lt end);
      try discriminate.
    destruct (match e2 ?= e3 with Eq => CompOpp (m2 ?= m3)%positive | Lt => Gt | Gt => Lt end);
      try discriminate.
    rewrite H; reflexivity.
  - pose proof (lex_lt_trans e1 e2 e3 m1 m2 m3) as H.
    change (PosDef.Pos.compare_cont Eq) with Pos.compare in *.
    destruct (match e1 ?= e2 with Eq => (m1 ?= m2)%positive | Lt => Lt | Gt => Gt end);
      try discriminate.
    destruct (match e2 ?= e3 with Eq => (m2 ?= m3)%positive | Lt => Lt | Gt => Gt end);
      try discriminate.
    rewrite H; reflexivity.
Qed.

Lemma SFcompare_nan_l (x y : spec_float) :
  SFeqb x x = false -> SFcompare x y = None /\ SFcompare y x = None.
Proof.
  unfold SFeqb.
  destruct x as [s1|s1| |s1 m1 e1]; simpl.
  - discriminate.
  - destruct s1; discriminate.
  - intros _. split; [reflexivity|]. destruct y; reflexivity.
  - destruct s1; rewrite Z.compare_refl;
      change (PosDef.Pos.compare_cont Eq m1 m1) with (Pos.compare m1 m1);
      rewrite Pos.compare_refl; discriminate.
Qed.

(** X1.  [dual_face_node_cmp] is antisymmetric: exchanging the two nodes
    negates the result, for all angles (NaN included) and all indices. *)
Theorem dual_face_node_cmp_antisymmetric (l r : dual_face_node_ordering_t) :
  dual_face_node_cmp r l = - dual_face_node_cmp l r.
Proof.
  unfold dual_face_node_cmp.
  destruct (angle l <? angle r)%float eqn:Hlr.
  - rewrite ltb_spec in Hlr. apply SFltb_asym in Hlr.
    rewrite <- ltb_spec in Hlr. rewrite Hlr. reflexivity.
  - destruct (angle r <? angle l)%float; reflexivity.
Qed.

Lemma cmp_lt (l r : dual_face_node_ordering_t) :
  dual_face_node_cmp l r = -1 <-> (angle l <? angle r)%float = true.
Proof.
  unfold dual_face_node_cmp.
  destruct (angle l <? angle r)%float; [tauto|].
  destruct (angle r <? angle l)%float; split; discriminate.
Qed.

(** X2.  The order that [dual_face_node_cmp] reports is transitive: when
    it puts [a] before [b] and [b] before [c] (result -1), it puts [a]
    before [c]. *)
Theorem dual_face_node_cmp_transitive (a b c : dual_face_node_ordering_t) :
  dual_face_node_cmp a b = -1 -> dual_face_node_cmp b c = -1 ->
  dual_face_node_cmp a c = -1.
Proof.
  rewrite !cmp_lt, !ltb_spec. apply SFltb_trans.
Qed.

(** X3.  A node whose angle is NaN compares equal to every node, on
    either side: both comparisons of line 26 and 27 are false. *)
Theorem dual_face_node_cmp_nan (l r : dual_face_node_ordering_t) :
  is_nan (angle l) = true ->
  dual_face_node_cmp l r = 0 /\ dual_face_node_cmp r l = 0.
Proof.
  unfold is_nan. intros H%negb_true_iff. rewrite FloatAxioms.eqb_spec in H.
  destruct (SFcompare_nan_l _ (Prim2SF (angle r)) H) as [H1 H2].
  unfold dual_face_node_cmp. rewrite !ltb_spec. unfold SFltb.
  rewrite H1, H2. auto.
Qed.

(** ** The tagged sets (lines 106-192) *)

Lemma for_each_Forall {S A} (Q : A -> Prop) (body : S -> A -> result S)
    (l : list A) (s s' : S) :
  (forall s a s', body s a = Ok s' -> Q a) ->
  for_each body l s = Ok s' -> Forall Q l.
Proof.
  intros Hq. revert s. induction l as [|a l IH]; intros s; simpl.
  - constructor.
  - destruct (body s a) as [s1|] eqn:Hb; [|discriminate].
    intros H. constructor; [eapply Hq; eauto | eapply IH; eauto].
Qed.

(** A loop whose iterations each add their own contribution to a relation
    [V] read off the state leaves the contributions of all of them. *)
Lemma for_each_accumulates {S A T} (V : S -> T -> Prop) (C : A -> T -> Prop)
    (body : S -> A -> result S) (l : list A) (s s' : S) :
  (forall s a s', body s a = Ok s' -> forall t, V s' t <-> V s t \/ C a t) ->
  for_each body l s = Ok s' ->
  forall t, V s' t <-> V s t \/ exists a, a ∈ l /\ C a t.
Proof.
  intros Hstep. revert s. induction l as [|a l IH]; intros s; simpl.
  - intros [= <-] t. split; [auto|]. intros [H|(a & Ha & _)]; [exact H|].
    inversion Ha.
  - destruct (body s a) as [s1|] eqn:Hb; [|discriminate].
    intros H t. rewrite (IH _ H t), (Hstep _ _ _ Hb t). split.
    + intros [[Hv|Hc]|(a' & Ha' & Hc)]; [auto| |].
      * right. exists a. split; [left|exact Hc].
      * right. exists a'. split; [right; exact Ha'|exact Hc].
    + intros [Hv|(a' & Ha' & Hc)]; [auto|].
      apply elem_of_cons in Ha' as [->|Ha']; [auto|].
      right. exists a'. auto.
Qed.

Lemma foldl_insert_elem (l : list Z) (s : gset Z) (x : Z) :
  x ∈ foldl int_unordered_set_insert s l <-> x ∈ s \/ x ∈ l.
Proof.
  revert s. induction l as [|a l IH]; intros s; simpl.
  - set_solver.
  - rewrite IH. unfold int_unordered_set_insert. set_solver.
Qed.

Lemma arr_get_pair_in_range {A} (a : list A) (k : Z) :
  pair_in_range a k <->
  (exists v, arr_get a (2 * k) = Ok v) /\ (exists v, arr_get a (2 * k + 1) = Ok v).
Proof.
  unfold pair_in_range. split.
  - intros [H0 H1]. split; apply arr_get_in_range; lia.
  - intros [[v Hv] [w Hw]]. apply arr_get_Ok in Hv as [Hv0 Hv], Hw as [Hw0 Hw].
    apply lookup_lt_Some in Hw. lia.
Qed.

Lemma add_model_face_Ok (tet_mesh : mesh_t) s face s' :
  add_model_face tet_mesh s face = Ok s' ->
  pair_in_range (face_cells tet_mesh) face
  /\ model_faces s' = {[face]} ∪ model_faces s
  /\ (forall c, c ∈ boundary_tets s' <->
        c ∈ boundary_tets s \/ face_has_tet tet_mesh face c)
  /\ (forall e, e ∈ model_face_edges s' <->
        e ∈ model_face_edges s \/ e ∈ mesh_face_edges tet_mesh face)
  /\ (forall n, n ∈ model_face_nodes s' <->
        n ∈ model_face_nodes s \/ n ∈ mesh_face_nodes tet_mesh face).
Proof.
  unfold add_model_face. intros H.
  ok_bind H btet1 H1. ok_bind H btet2 H2. injection H as <-. simpl.
  split; [apply arr_get_pair_in_range; eauto|].
  split; [reflexivity|].
  split; [|split; intros x; apply foldl_insert_elem].
  intros c. unfold face_has_tet. rewrite H1, H2.
  unfold int_unordered_set_insert.
  destruct (Z.eqb_spec btet2 (-1)) as [->|Hne]; simpl.
  - split; [set_solver|]. intros [?|[[= ->]|[[= <-] ?]]]; set_solver.
  - split; [set_solver|]. intros [?|[[= ->]|[[= <-] ?]]]; set_solver.
Qed.

Lemma add_model_face_total (tet_mesh : mesh_t) s face :
  pair_in_range (face_cells tet_mesh) face ->
  exists s', add_model_face tet_mesh s face = Ok s'.
Proof.
  intros [[v Hv] [w Hw]]%arr_get_pair_in_range.
  unfold add_model_face. rewrite Hv. simpl. rewrite Hw. simpl. eauto.
Qed.

Lemma add_model_edge_Ok (tet_mesh : mesh_t) s edge s' :
  add_model_edge tet_mesh s edge = Ok s' ->
  pair_in_range (edge_nodes tet_mesh) edge
  /\ s'.1 = {[edge]} ∪ s.1
  /\ (forall n, n ∈ s'.2 <-> n ∈ s.2 \/ edge_has_node tet_mesh edge n).
Proof.
  unfold add_model_edge. intros H.
  ok_bind H n1 H1. ok_bind H n2 H2. injection H as <-. simpl.
  split; [apply arr_get_pair_in_range; eauto|].
  split; [reflexivity|].
  intros n. unfold edge_has_node. rewrite H1, H2.
  unfold int_unordered_set_insert.
  split; [set_solver|]. intros [?|[[= ->]|[= ->]]]; set_solver.
Qed.

Lemma add_model_edge_total (tet_mesh : mesh_t) s edge :
  pair_in_range (edge_nodes tet_mesh) edge ->
  exists s', add_model_edge tet_mesh s edge = Ok s'.
Proof.
  intros [[v Hv] [w Hw]]%arr_get_pair_in_range.
  unfold add_model_edge. rewrite Hv. simpl. rewrite Hw. simpl. eauto.
Qed.

Lemma add_model_vertices_spec (l : list Z) (vs es fs : gset Z) :
  foldl add_model_vertex (vs, es, fs) l
  = (list_to_set l ∪ vs, es ∖ list_to_set l, fs ∖ list_to_set l).
Proof.
  revert vs es fs. induction l as [|v l IH]; intros vs es fs; simpl.
  - f_equal; [f_equal|]; set_solver.
  - unfold int_unordered_set_insert, int_unordered_set_delete. rewrite IH.
    f_equal; [f_equal|]; set_solver.
Qed.

Lemma for_each_total_forall {S A} (Q : A -> Prop) (body : S -> A -> result S)
    (l : list A) (s : S) :
  (forall s a, Q a -> exists s', body s a = Ok s') ->
  Forall Q l -> exists s', for_each body l s = Ok s'.
Proof.
  intros Hq Hl. revert s. induction Hl as [|a l Ha Hl IH]; intros s; simpl.
  - eauto.
  - destruct (Hq s a Ha) as [s1 ->]. apply IH.
Qed.

(** The three set-building loops, when passed. *)
Lemma build_tagged_sets_Ok (tet_mesh : mesh_t)
    (ext int edges verts : list string) ts :
  build_tagged_sets tet_mesh ext int edges verts = Ok ts ->
  let extf := tagged (face_tags tet_mesh) ext in
  let intf := tagged (face_tags tet_mesh) int in
  let es := tagged (edge_tags tet_mesh) edges in
  let vs := tagged (node_tags tet_mesh) verts in
  (Forall (pair_in_range (face_cells tet_mesh)) (extf ++ intf)
   /\ Forall (pair_in_range (edge_nodes tet_mesh)) es)
  /\ (forall c, c ∈ external_boundary_tets ts <->
        exists face, face ∈ extf /\ face_has_tet tet_mesh face c)
  /\ (forall c, c ∈ internal_boundary_tets ts <->
        exists face, face ∈ intf /\ face_has_tet tet_mesh face c)
  /\ (forall e, e ∈ external_model_face_edges ts <->
        exists face, face ∈ extf /\ e ∈ mesh_face_edges tet_mesh face)
  /\ (forall e, e ∈ internal_model_face_edges ts <->
        exists face, face ∈ intf /\ e ∈ mesh_face_edges tet_mesh face)
  /\ (forall n, n ∈ all_model_face_nodes ts <->
        (exists face, face ∈ extf ++ intf /\ n ∈ mesh_face_nodes tet_mesh face)
        /\ n ∉ vs)
  /\ (forall n, n ∈ model_edge_nodes ts <->
        (exists edge, edge ∈ es /\ edge_has_node tet_mesh edge n) /\ n ∉ vs)
  /\ model_vertices ts = list_to_set vs.
Proof.
  unfold build_tagged_sets. intros H.
  ok_bind H sext Hext. ok_bind H sint Hint. ok_bind H sed Hed.
  destruct sed as [eds ens].
  rewrite add_model_vertices_spec in H. injection H as <-. simpl.
  pose proof (for_each_Forall (pair_in_range (face_cells tet_mesh)) _ _ _ _
                (fun s a s' H => proj1 (add_model_face_Ok _ _ _ _ H)) Hext) as Fe.
  pose proof (for_each_Forall (pair_in_range (face_cells tet_mesh)) _ _ _ _
                (fun s a s' H => proj1 (add_model_face_Ok _ _ _ _ H)) Hint) as Fi.
  pose proof (for_each_Forall (pair_in_range (edge_nodes tet_mesh)) _ _ _ _
                (fun s a s' H => proj1 (add_model_edge_Ok _ _ _ _ H)) Hed) as Fd.
  pose proof (for_each_accumulates (fun s c => c ∈ boundary_tets s)
                (face_has_tet tet_mesh) _ _ _ _
                (fun s a s' H => proj1 (proj2 (proj2 (add_model_face_Ok _ _ _ _ H)))) Hext) as Te.
  pose proof (for_each_accumulates (fun s c => c ∈ boundary_tets s)
                (face_has_tet tet_mesh) _ _ _ _
                (fun s a s' H => proj1 (proj2 (proj2 (add_model_face_Ok _ _ _ _ H)))) Hint) as Ti.
  pose proof (for_each_accumulates (fun s c => c ∈ model_face_edges s)
                (fun face e => e ∈ mesh_face_edges tet_mesh face) _ _ _ _
                (fun s a s' H => proj1 (proj2 (proj2 (proj2 (add_model_face_Ok _ _ _ _ H))))) Hext) as Ee.
  pose proof (for_each_accumulates (fun s c => c ∈ model_face_edges s)
                (fun face e => e ∈ mesh_face_edges tet_mesh face) _ _ _ _
                (fun s a s' H => proj1 (proj2 (proj2 (proj2 (add_model_face_Ok _ _ _ _ H))))) Hint) as Ei.
  pose proof (for_each_accumulates (fun s c => c ∈ model_face_nodes s)
                (fun face e => e ∈ mesh_face_nodes tet_mesh face) _ _ _ _
                (fun s a s' H => proj2 (proj2 (proj2 (proj2 (add_model_face_Ok _ _ _ _ H))))) Hext) as Ne.
  pose proof (for_each_accumulates (fun s c => c ∈ model_face_nodes s)
                (fun face e => e ∈ mesh_face_nodes tet_mesh face) _ _ _ _
                (fun s a s' H => proj2 (proj2 (proj2 (proj2 (add_model_face_Ok _ _ _ _ H))))) Hint) as Ni.
  pose proof (for_each_accumulates (fun s n => n ∈ s.2)
                (edge_has_node tet_mesh) _ _ _ _
                (fun s a s' H => proj2 (proj2 (add_model_edge_Ok _ _ _ _ H))) Hed) as Nd.
  simpl in *.
  split; [split; [apply Forall_app; auto | exact Fd]|].
  split; [intros c; rewrite Te; set_solver|].
  split; [intros c; rewrite Ti; set_solver|].
  split; [intros c; rewrite Ee; set_solver|].
  split; [intros c; rewrite Ei; set_solver|].
  split.
  { intros n. rewrite elem_of_difference, Ni, Ne, elem_of_list_to_set.
    setoid_rewrite elem_of_app. set_solver. }
  split.
  { intros n. rewrite elem_of_difference, Nd, elem_of_list_to_set. set_solver. }
  set_solver.
Qed.

(** X5.  The loops of lines 106-192 stay inside [face_cells] and
    [edge_nodes] exactly when both entries of every tagged face (external
    and internal) and of every tagged edge are inside these arrays; tagged
    vertices are not read there. *)
Theorem build_tagged_sets_bounds (tet_mesh : mesh_t)
    (ext int edges verts : list string) :
  (exists ts, build_tagged_sets tet_mesh ext int edges verts = Ok ts)
  <-> Forall (pair_in_range (face_cells tet_mesh))
        (tagged (face_tags tet_mesh) ext ++ tagged (face_tags tet_mesh) int)
      /\ Forall (pair_in_range (edge_nodes tet_mesh))
           (tagged (edge_tags tet_mesh) edges).
Proof.
  split.
  - intros [ts Hts]. exact (proj1 (build_tagged_sets_Ok _ _ _ _ _ _ Hts)).
  - intros [[Fe Fi]%Forall_app Fd]. unfold build_tagged_sets.
    destruct (for_each_total_forall _ (add_model_face tet_mesh) _
                {| boundary_tets := ∅; model_faces := ∅;
                   model_face_edges := ∅; model_face_nodes := ∅ |}
                (fun s a => add_model_face_total tet_mesh s a) Fe) as [sext ->].
    rewrite bind_Ok_l.
    destruct (for_each_total_forall _ (add_model_face tet_mesh) _
                {| boundary_tets := ∅; model_faces := ∅;
                   model_face_edges := ∅;
                   model_face_nodes := model_face_nodes sext |}
                (fun s a => add_model_face_total tet_mesh s a) Fi) as [sint ->].
    rewrite bind_Ok_l.
    destruct (for_each_total_forall _ (add_model_edge tet_mesh) _ (∅, ∅)
                (fun s a => add_model_edge_total tet_mesh s a) Fd) as [sed ->].
    rewrite bind_Ok_l.
    destruct (foldl add_model_vertex _ _) as [[vs es] fs]. eauto.
Qed.

(** X6.  When lines 106-160 are passed, the boundary tets are the first
    cell of every tagged face and its second cell when that is not -1,
    and the face edges are the edges of the tagged faces, for the external
    and for the internal tags alike. *)
Theorem boundary_tets_of_tagged_faces (tet_mesh : mesh_t)
    (ext int edges verts : list string) ts :
  build_tagged_sets tet_mesh ext int edges verts = Ok ts ->
  (forall c, c ∈ external_boundary_tets ts <->
     exists face, face ∈ tagged (face_tags tet_mesh) ext
                  /\ face_has_tet tet_mesh face c)
  /\ (forall c, c ∈ internal_boundary_tets ts <->
        exists face, face ∈ tagged (face_tags tet_mesh) int
                     /\ face_has_tet tet_mesh face c)
  /\ (forall e, e ∈ external_model_face_edges ts <->
        exists face, face ∈ tagged (face_tags tet_mesh) ext
                     /\ e ∈ mesh_face_edges tet_mesh face)
  /\ (forall e, e ∈ internal_model_face_edges ts <->
        exists face, face ∈ tagged (face_tags tet_mesh) int
                     /\ e ∈ mesh_face_edges tet_mesh face).
Proof.
  intros H. destruct (build_tagged_sets_Ok _ _ _ _ _ _ H)
    as (_ & H1 & H2 & H3 & H4 & _). auto.
Qed.

(** X7.  When lines 106-192 are passed, [model_face_nodes] holds the
    nodes of the tagged faces and [model_edge_nodes] the ends of the
    tagged edges, both without the tagged vertices (lines 189-190): no
    model vertex is in either set. *)
Theorem model_vertices_leave_node_sets (tet_mesh : mesh_t)
    (ext int edges verts : list string) ts :
  build_tagged_sets tet_mesh ext int edges verts = Ok ts ->
  let vs := tagged (node_tags tet_mesh) verts in
  (forall n, n ∈ all_model_face_nodes ts <->
     (exists face,
        face ∈ tagged (face_tags tet_mesh) ext ++ tagged (face_tags tet_mesh) int
        /\ n ∈ mesh_face_nodes tet_mesh face)
     /\ n ∉ vs)
  /\ (forall n, n ∈ model_edge_nodes ts <->
        (exists edge, edge ∈ tagged (edge_tags tet_mesh) edges
                      /\ edge_has_node tet_mesh edge n)
        /\ n ∉ vs)
  /\ model_vertices ts ## all_model_face_nodes ts
  /\ model_vertices ts ## model_edge_nodes ts.
Proof.
  intros H. destruct (build_tagged_sets_Ok _ _ _ _ _ _ H)
    as (_ & _ & _ & _ & _ & Hf & He & Hv).
  split; [exact Hf|]. split; [exact He|].
  split; intros n; rewrite Hv, elem_of_list_to_set.
  - rewrite Hf. tauto.
  - rewrite He. tauto.
Qed.

(** ** Edge and node incidence (lines 197-248) *)

(** What every iteration that goes through requires of its element, under
    an invariant of the state. *)
Lemma for_each_requires {S A} (P : S -> Prop) (Q : A -> Prop)
    (body : S -> A -> result S) (l : list A) (s s' : S) :
  (forall s a s', P s -> body s a = Ok s' -> Q a /\ P s') ->
  P s -> for_each body l s = Ok s' -> Forall Q l /\ P s'.
Proof.
  intros Hq. revert s. induction l as [|a l IH]; intros s Hs; simpl.
  - intros [= <-]. split; [constructor | exact Hs].
  - destruct (body s a) as [s1|] eqn:Hb; [|discriminate].
    intros H. destruct (Hq _ _ _ Hs Hb) as [Ha Hs1].
    destruct (IH _ Hs1 H) as [Hl Hs']. split; [constructor; auto | exact Hs'].
Qed.

Lemma set_at_null (sets : list (option (gset Z))) (k : Z) :
  inhabited_sets sets -> 0 <= k < Z.of_nat (length sets) ->
  (arr_get sets k = Ok None <-> set_at sets k = ∅).
Proof.
  intros Hin Hk. unfold set_at.
  destruct (arr_get_in_range sets k Hk) as [[s|] Hs]; rewrite Hs.
  - apply arr_get_Ok in Hs as [_ Hs]. apply Hin in Hs.
    split; [discriminate | intros ?; contradiction].
  - tauto.
Qed.

Lemma incidence_insert_Ok (sets sets' : list (option (gset Z))) (k v : Z) :
  incidence_insert sets k v = Ok sets' ->
  0 <= k < Z.of_nat (length sets)
  /\ length sets' = length sets
  /\ (forall k' x, x ∈ set_at sets' k' <-> x ∈ set_at sets k' \/ (k' = k /\ x = v))
  /\ (inhabited_sets sets -> inhabited_sets sets').
Proof.
  unfold incidence_insert. intros H. ok_bind H s Hs.
  apply arr_set_Ok in H as [Hk ->].
  split; [exact Hk|]. split; [apply length_insert|]. split.
  - intros k' x. unfold set_at at 1. unfold arr_get at 1.
    destruct (Z.leb_spec 0 k') as [Hk'|Hk'].
    + destruct (decide (k' = k)) as [->|Hne].
      * rewrite list_lookup_insert_eq by lia.
        unfold int_unordered_set_insert, set_at. rewrite Hs.
        rewrite elem_of_union, elem_of_singleton. clear. intuition auto.
      * rewrite list_lookup_insert_ne by lia.
        unfold set_at, arr_get.
        destruct (Z.leb_spec 0 k'); [|lia].
        destruct (sets !! Z.to_nat k') as [[?|]|]; set_solver.
    + unfold set_at, arr_get. destruct (Z.leb_spec 0 k'); [lia|].
      split; [auto | intros [?|[-> _]]; [assumption | lia]].
  - intros Hin j t Hj.
    destruct (decide (j = Z.to_nat k)) as [->|Hne].
    + rewrite list_lookup_insert_eq in Hj by lia. injection Hj as <-.
      unfold int_unordered_set_insert. set_solver.
    + rewrite list_lookup_insert_ne in Hj by lia. eauto.
Qed.

Lemma incidence_insert_total (sets : list (option (gset Z))) (k v : Z) :
  0 <= k < Z.of_nat (length sets) ->
  exists sets', incidence_insert sets k v = Ok sets'.
Proof.
  intros Hk. unfold incidence_insert.
  destruct (arr_get_in_range sets k Hk) as [s ->]. rewrite bind_Ok_l.
  rewrite arr_set_in_range by exact Hk. eauto.
Qed.

Lemma incidence_edge_Ok (tet_mesh : mesh_t) (cell face : Z) inc edge inc' :
  incidence_shape tet_mesh inc ->
  incidence_edge cell face inc edge = Ok inc' ->
  0 <= edge < num_edges tet_mesh
  /\ incidence_shape tet_mesh inc'
  /\ (forall e c, c ∈ set_at (primal_cells_for_edge inc') e <->
        c ∈ set_at (primal_cells_for_edge inc) e \/ (e = edge /\ c = cell))
  /\ (forall e f, f ∈ set_at (primal_faces_for_edge inc') e <->
        f ∈ set_at (primal_faces_for_edge inc) e \/ (e = edge /\ f = face))
  /\ primal_boundary_faces_for_node inc' = primal_boundary_faces_for_node inc.
Proof.
  intros ((L1 & L2 & L3) & I1 & I2 & I3). unfold incidence_edge. intros H.
  ok_bind H ce Hce. ok_bind H fe Hfe. injection H as <-. simpl.
  apply incidence_insert_Ok in Hce as (Hk & Lc & Vc & Ic).
  apply incidence_insert_Ok in Hfe as (_ & Lf & Vf & If).
  split; [lia|]. split; [|auto].
  unfold incidence_shape; simpl. repeat split; auto; congruence.
Qed.

Lemma incidence_node_Ok (tet_mesh : mesh_t) (face : Z) inc node inc' :
  incidence_shape tet_mesh inc ->
  incidence_node face inc node = Ok inc' ->
  0 <= node < num_nodes tet_mesh
  /\ incidence_shape tet_mesh inc'
  /\ primal_cells_for_edge inc' = primal_cells_for_edge inc
  /\ primal_faces_for_edge inc' = primal_faces_for_edge inc
  /\ (forall n f, f ∈ set_at (primal_boundary_faces_for_node inc') n <->
        f ∈ set_at (primal_boundary_faces_for_node inc) n
        \/ (n = node /\ f = face)).
Proof.
  intros ((L1 & L2 & L3) & I1 & I2 & I3). unfold incidence_node. intros H.
  ok_bind H fn Hfn. injection H as <-. simpl.
  apply incidence_insert_Ok in Hfn as (Hk & Ln & Vn & In).
  split; [lia|]. split; [|auto].
  unfold incidence_shape; simpl. repeat split; auto; congruence.
Qed.

Lemma incidence_edges_Ok (tet_mesh : mesh_t) (cell face : Z) l inc inc' :
  incidence_shape tet_mesh inc ->
  for_each (incidence_edge cell face) l inc = Ok inc' ->
  (Forall (fun e => 0 <= e < num_edges tet_mesh) l
   /\ incidence_shape tet_mesh inc')
  /\ (forall t, cell_at_edge inc' t <->
        cell_at_edge inc t \/ (t.1 ∈ l /\ t.2 = cell))
  /\ (forall t, face_at_edge inc' t <->
        face_at_edge inc t \/ (t.1 ∈ l /\ t.2 = face))
  /\ primal_boundary_faces_for_node inc' = primal_boundary_faces_for_node inc.
Proof.
  revert inc. induction l as [|a l IH]; intros inc Hs; simpl.
  - intros [= <-]. split; [split; [constructor|exact Hs]|].
    split; [|split; [|reflexivity]]; intros t; set_solver.
  - destruct (incidence_edge cell face inc a) as [s1|] eqn:Hb; [|discriminate].
    intros H.
    destruct (incidence_edge_Ok _ _ _ _ _ _ Hs Hb) as (Ha & Hs1 & Vc & Vf & Vn).
    destruct (IH _ Hs1 H) as ((Hl & Hs') & Wc & Wf & Wn).
    split; [split; [constructor; auto|exact Hs']|].
    split; [|split; [|congruence]].
    + intros [e c]. rewrite Wc. unfold cell_at_edge. simpl. rewrite Vc.
      set_solver.
    + intros [e c]. rewrite Wf. unfold face_at_edge. simpl. rewrite Vf.
      set_solver.
Qed.

Lemma incidence_nodes_Ok (tet_mesh : mesh_t) (face : Z) l inc inc' :
  incidence_shape tet_mesh inc ->
  for_each (incidence_node face) l inc = Ok inc' ->
  (Forall (fun n => 0 <= n < num_nodes tet_mesh) l
   /\ incidence_shape tet_mesh inc')
  /\ primal_cells_for_edge inc' = primal_cells_for_edge inc
  /\ primal_faces_for_edge inc' = primal_faces_for_edge inc
  /\ (forall t, face_at_node inc' t <->
        face_at_node inc t \/ (t.1 ∈ l /\ t.2 = face)).
Proof.
  revert inc. induction l as [|a l IH]; intros inc Hs; simpl.
  - intros [= <-]. split; [split; [constructor|exact Hs]|].
    split; [reflexivity|]. split; [reflexivity|]. intros t; set_solver.
  - destruct (incidence_node face inc a) as [s1|] eqn:Hb; [|discriminate].
    intros H.
    destruct (incidence_node_Ok _ _ _ _ _ Hs Hb) as (Ha & Hs1 & Vc & Vf & Vn).
    destruct (IH _ Hs1 H) as ((Hl & Hs') & Wc & Wf & Wn).
    split; [split; [constructor; auto|exact Hs']|].
    split; [congruence|]. split; [congruence|].
    intros [n f]. rewrite Wn. unfold face_at_node. simpl. rewrite Vn.
    set_solver.
Qed.

Lemma incidence_face_Ok (tet_mesh : mesh_t) (ts : tagged_sets) (cell : Z)
    inc face inc' :
  incidence_shape tet_mesh inc ->
  incidence_face tet_mesh ts cell inc face = Ok inc' ->
  (face_in_range tet_mesh ts face /\ incidence_shape tet_mesh inc')
  /\ (forall t, cell_at_edge inc' t <->
        cell_at_edge inc t
        \/ (t.1 ∈ mesh_face_edges tet_mesh face /\ t.2 = cell))
  /\ (forall t, face_at_edge inc' t <->
        face_at_edge inc t
        \/ (t.1 ∈ mesh_face_edges tet_mesh face /\ t.2 = face))
  /\ (forall t, face_at_node inc' t <->
        face_at_node inc t
        \/ (is_model_face ts face = true
            /\ t.1 ∈ mesh_face_nodes tet_mesh face /\ t.2 = face)).
Proof.
  intros Hs. unfold incidence_face. intros H. ok_bind H inc1 H1.
  destruct (incidence_edges_Ok _ _ _ _ _ _ Hs H1) as ((Fe & Hs1) & Vc & Vf & Vn).
  fold (is_model_face ts face) in H. unfold face_in_range.
  destruct (is_model_face ts face) eqn:Hm.
  - destruct (incidence_nodes_Ok _ _ _ _ _ Hs1 H) as ((Fn & Hs') & Wc & Wf & Wn).
    split; [split; [split; auto|exact Hs']|].
    unfold cell_at_edge, face_at_edge in *. rewrite Wc, Wf.
    split; [exact Vc|]. split; [exact Vf|].
    intros t. rewrite Wn. unfold face_at_node. rewrite Vn. tauto.
  - injection H as <-.
    split; [split; [split; [exact Fe|discriminate]|exact Hs1]|].
    split; [exact Vc|]. split; [exact Vf|].
    intros t. unfold face_at_node. rewrite Vn. split; [auto|].
    intros [?|[? _]]; [assumption|discriminate].
Qed.

Lemma for_each_accumulates_under {S A T} (P : S -> Prop) (V : S -> T -> Prop)
    (C : A -> T -> Prop) (body : S -> A -> result S) (l : list A) (s s' : S) :
  (forall s a s', P s -> body s a = Ok s' ->
     P s' /\ forall t, V s' t <-> V s t \/ C a t) ->
  P s -> for_each body l s = Ok s' ->
  forall t, V s' t <-> V s t \/ exists a, a ∈ l /\ C a t.
Proof.
  intros Hstep. revert s. induction l as [|a l IH]; intros s Hs; simpl.
  - intros [= <-] t. split; [auto|]. intros [H|(a & Ha & _)]; [exact H|].
    inversion Ha.
  - destruct (body s a) as [s1|] eqn:Hb; [|discriminate].
    destruct (Hstep _ _ _ Hs Hb) as [Hs1 Hv].
    intros H t. rewrite (IH _ Hs1 H t), (Hv t). split.
    + intros [[?|Hc]|(a' & Ha' & Hc)]; [auto| |].
      * right. exists a. split; [left|exact Hc].
      * right. exists a'. split; [right; exact Ha'|exact Hc].
    + intros [?|(a' & Ha' & Hc)]; [auto|].
      apply elem_of_cons in Ha' as [->|Ha']; [auto|].
      right. exists a'. auto.
Qed.

Lemma incidence_cell_Ok (tet_mesh : mesh_t) (ts : tagged_sets)
    inc cell inc' :
  incidence_shape tet_mesh inc ->
  incidence_cell tet_mesh ts inc cell = Ok inc' ->
  (Forall (face_in_range tet_mesh ts) (mesh_cell_faces tet_mesh cell)
   /\ incidence_shape tet_mesh inc')
  /\ (forall t, cell_at_edge inc' t <->
        cell_at_edge inc t
        \/ exists face, face ∈ mesh_cell_faces tet_mesh cell
             /\ t.1 ∈ mesh_face_edges tet_mesh face /\ t.2 = cell)
  /\ (forall t, face_at_edge inc' t <->
        face_at_edge inc t
        \/ exists face, face ∈ mesh_cell_faces tet_mesh cell
             /\ t.1 ∈ mesh_face_edges tet_mesh face /\ t.2 = face)
  /\ (forall t, face_at_node inc' t <->
        face_at_node inc t
        \/ exists face, face ∈ mesh_cell_faces tet_mesh cell
             /\ is_model_face ts face = true
             /\ t.1 ∈ mesh_face_nodes tet_mesh face /\ t.2 = face).
Proof.
  intros Hs. unfold incidence_cell. intros H.
  split; [|split; [|split]].
  - eapply (for_each_requires (incidence_shape tet_mesh)); [|exact Hs|exact H].
    intros s a s' Ps Hb. exact (proj1 (incidence_face_Ok _ _ _ _ _ _ Ps Hb)).
  - eapply (for_each_accumulates_under (incidence_shape tet_mesh) cell_at_edge
              (fun face t => t.1 ∈ mesh_face_edges tet_mesh face /\ t.2 = cell));
      [|exact Hs|exact H].
    intros s a s' Ps Hb.
    destruct (incidence_face_Ok _ _ _ _ _ _ Ps Hb) as ((_ & ?) & ? & _). auto.
  - eapply (for_each_accumulates_under (incidence_shape tet_mesh) face_at_edge
              (fun face t => t.1 ∈ mesh_face_edges tet_mesh face /\ t.2 = face));
      [|exact Hs|exact H].
    intros s a s' Ps Hb.
    destruct (incidence_face_Ok _ _ _ _ _ _ Ps Hb) as ((_ & ?) & _ & ? & _). auto.
  - eapply (for_each_accumulates_under (incidence_shape tet_mesh) face_at_node
              (fun face t => is_model_face ts face = true
                 /\ t.1 ∈ mesh_face_nodes tet_mesh face /\ t.2 = face));
      [|exact Hs|exact H].
    intros s a s' Ps Hb.
    destruct (incidence_face_Ok _ _ _ _ _ _ Ps Hb) as ((_ & ?) & _ & _ & ?). auto.
Qed.

Lemma set_at_replicate (n : nat) (k : Z) : set_at (replicate n None) k = ∅.
Proof.
  unfold set_at, arr_get. destruct (0 <=? k); [|reflexivity].
  destruct (replicate n None !! Z.to_nat k) as [o|] eqn:Ho; [|reflexivity].
  apply lookup_replicate in Ho as [-> _]. reflexivity.
Qed.

Lemma incidence_shape_init (tet_mesh : mesh_t) :
  incidence_shape tet_mesh
    {| primal_cells_for_edge := replicate (Z.to_nat (num_edges tet_mesh)) None;
       primal_faces_for_edge := replicate (Z.to_nat (num_edges tet_mesh)) None;
       primal_boundary_faces_for_node :=
         replicate (Z.to_nat (num_nodes tet_mesh)) None |}.
Proof.
  unfold incidence_shape, inhabited_sets; simpl.
  rewrite !length_replicate.
  repeat split; try reflexivity;
    intros k s [? _]%lookup_replicate; discriminate.
Qed.

(** Lines 203-248, when passed. *)
Lemma build_incidence_Ok (tet_mesh : mesh_t) (ts : tagged_sets) inc :
  build_incidence tet_mesh ts = Ok inc ->
  ((forall cell face, face_of_cell tet_mesh cell face ->
      face_in_range tet_mesh ts face)
   /\ incidence_shape tet_mesh inc)
  /\ (forall edge c, c ∈ set_at (primal_cells_for_edge inc) edge <->
        exists face, face_of_cell tet_mesh c face
                     /\ edge ∈ mesh_face_edges tet_mesh face)
  /\ (forall edge f, f ∈ set_at (primal_faces_for_edge inc) edge <->
        exists cell, face_of_cell tet_mesh cell f
                     /\ edge ∈ mesh_face_edges tet_mesh f)
  /\ (forall node f, f ∈ set_at (primal_boundary_faces_for_node inc) node <->
        exists cell, face_of_cell tet_mesh cell f
                     /\ is_model_face ts f = true
                     /\ node ∈ mesh_face_nodes tet_mesh f).
Proof.
  unfold build_incidence, for_range. rewrite Z.sub_0_r. intros H.
  pose proof (incidence_shape_init tet_mesh) as Hs.
  assert (Hseq : forall c, c ∈ seqZ 0 (num_cells tet_mesh)
                           <-> 0 <= c < num_cells tet_mesh).
  { intros c. rewrite elem_of_seqZ. lia. }
  split; [|split; [|split]].
  - destruct (for_each_requires (incidence_shape tet_mesh)
                (fun cell => Forall (face_in_range tet_mesh ts)
                               (mesh_cell_faces tet_mesh cell))
                _ _ _ _
                (fun s a s' Ps Hb => proj1 (incidence_cell_Ok _ _ _ _ _ Ps Hb))
                Hs H) as [Hall Hs'].
    split; [|exact Hs'].
    intros cell face [Hc Hf]. rewrite Forall_forall in Hall.
    specialize (Hall cell (proj2 (Hseq cell) Hc)).
    rewrite Forall_forall in Hall. auto.
  - intros edge c.
    pose proof (for_each_accumulates_under (incidence_shape tet_mesh)
                  cell_at_edge
                  (fun cell t => exists face, face ∈ mesh_cell_faces tet_mesh cell
                     /\ t.1 ∈ mesh_face_edges tet_mesh face /\ t.2 = cell)
                  _ _ _ _
                  (fun s a s' Ps Hb =>
                     conj (proj2 (proj1 (incidence_cell_Ok _ _ _ _ _ Ps Hb)))
                          (proj1 (proj2 (incidence_cell_Ok _ _ _ _ _ Ps Hb))))
                  Hs H (edge, c)) as V.
    unfold cell_at_edge in V; simpl in V. rewrite set_at_replicate in V.
    rewrite V. unfold face_of_cell. split.
    + intros [?|(cell & Hc & face & Hf & He & ->)]; [set_solver|].
      exists face. rewrite <- Hseq. auto.
    + intros (face & [Hc Hf] & He). right. exists c. rewrite Hseq. eauto.
  - intros edge f.
    pose proof (for_each_accumulates_under (incidence_shape tet_mesh)
                  face_at_edge
                  (fun cell t => exists face, face ∈ mesh_cell_faces tet_mesh cell
                     /\ t.1 ∈ mesh_face_edges tet_mesh face /\ t.2 = face)
                  _ _ _ _
                  (fun s a s' Ps Hb =>
                     conj (proj2 (proj1 (incidence_cell_Ok _ _ _ _ _ Ps Hb)))
                          (proj1 (proj2 (proj2 (incidence_cell_Ok _ _ _ _ _ Ps Hb)))))
                  Hs H (edge, f)) as V.
    unfold face_at_edge in V; simpl in V. rewrite set_at_replicate in V.
    rewrite V. unfold face_of_cell. split.
    + intros [?|(cell & Hc & face & Hf & He & ->)]; [set_solver|].
      exists cell. rewrite <- Hseq. auto.
    + intros (cell & [Hc Hf] & He). right. exists cell. rewrite Hseq. eauto.
  - intros node f.
    pose proof (for_each_accumulates_under (incidence_shape tet_mesh)
                  face_at_node
                  (fun cell t => exists face, face ∈ mesh_cell_faces tet_mesh cell
                     /\ is_model_face ts face = true
                     /\ t.1 ∈ mesh_face_nodes tet_mesh face /\ t.2 = face)
                  _ _ _ _
                  (fun s a s' Ps Hb =>
                     conj (proj2 (proj1 (incidence_cell_Ok _ _ _ _ _ Ps Hb)))
                          (proj2 (proj2 (proj2 (incidence_cell_Ok _ _ _ _ _ Ps Hb)))))
                  Hs H (node, f)) as V.
    unfold face_at_node in V; simpl in V. rewrite set_at_replicate in V.
    rewrite V. unfold face_of_cell. split.
    + intros [?|(cell & Hc & face & Hf & Hm & He & ->)]; [set_solver|].
      exists cell. rewrite <- Hseq. auto.
    + intros (cell & [Hc Hf] & Hm & He). right. exists cell. rewrite Hseq.
      split; [exact Hc|]. exists f. auto.
Qed.

Lemma incidence_face_total (tet_mesh : mesh_t) (ts : tagged_sets) (cell : Z)
    inc face :
  incidence_shape tet_mesh inc -> face_in_range tet_mesh ts face ->
  exists inc', incidence_face tet_mesh ts cell inc face = Ok inc'
               /\ incidence_shape tet_mesh inc'.
Proof.
  intros Hs [Fe Fn]. unfold incidence_face.
  destruct (for_each_total (incidence_shape tet_mesh)
              (incidence_edge cell face) (mesh_face_edges tet_mesh face) inc Hs)
    as (inc1 & H1 & Hs1).
  { intros s a Ha Ps. rewrite Forall_forall in Fe. specialize (Fe a Ha).
    destruct Ps as ((L1 & L2 & L3) & I) eqn:EPs. unfold incidence_edge.
    destruct (incidence_insert_total (primal_cells_for_edge s) a cell) as [ce Hce];
      [lia|].
    destruct (incidence_insert_total (primal_faces_for_edge s) a face) as [fe Hfe];
      [lia|].
    pose proof (incidence_edge_Ok tet_mesh cell face s a) as Hok.
    unfold incidence_edge in Hok. rewrite Hce, Hfe in *. simpl in *.
    eexists. split; [reflexivity|]. exact (proj1 (proj2 (Hok _ Ps eq_refl))). }
  rewrite H1. rewrite bind_Ok_l. fold (is_model_face ts face).
  destruct (is_model_face ts face); [|eauto].
  apply (for_each_total (incidence_shape tet_mesh)); [exact Hs1|].
  intros s a Ha Ps. specialize (Fn eq_refl). rewrite Forall_forall in Fn.
  specialize (Fn a Ha).
  destruct Ps as ((L1 & L2 & L3) & I) eqn:EPs. unfold incidence_node.
  destruct (incidence_insert_total (primal_boundary_faces_for_node s) a face)
    as [fn Hfn]; [lia|].
  pose proof (incidence_node_Ok tet_mesh face s a) as Hok.
  unfold incidence_node in Hok. rewrite Hfn in *. simpl in *.
  eexists. split; [reflexivity|]. exact (proj1 (proj2 (Hok _ Ps eq_refl))).
Qed.

Lemma set_at_empty_iff (sets : list (option (gset Z))) (k : Z) :
  set_at sets k = ∅ <-> forall x, x ∉ set_at sets k.
Proof. set_solver. Qed.

(** X8.  The loops of lines 203-248 stay inside the three incidence
    arrays exactly when, for every face of every cell, the edges of the
    face are in 0 .. num_edges-1 and, if the face is tagged, its nodes are
    in 0 .. num_nodes-1. *)
Theorem build_incidence_bounds (tet_mesh : mesh_t) (ts : tagged_sets) :
  (exists inc, build_incidence tet_mesh ts = Ok inc)
  <-> forall cell face, face_of_cell tet_mesh cell face ->
        face_in_range tet_mesh ts face.
Proof.
  split.
  - intros [inc H]. exact (proj1 (proj1 (build_incidence_Ok _ _ _ H))).
  - intros Hall. unfold build_incidence, for_range. rewrite Z.sub_0_r.
    destruct (for_each_total (incidence_shape tet_mesh)
                (incidence_cell tet_mesh ts) (seqZ 0 (num_cells tet_mesh)) _
                (incidence_shape_init tet_mesh)) as (inc & H & _); [|eauto].
    intros s cell Hc Ps. unfold incidence_cell.
    apply (for_each_total (incidence_shape tet_mesh)); [exact Ps|].
    intros s1 face Hf Ps1. apply incidence_face_total; [exact Ps1|].
    apply (Hall cell). split; [|exact Hf]. apply elem_of_seqZ in Hc. lia.
Qed.

(** X9.  When lines 203-248 are passed, [primal_cells_for_edge[edge]]
    holds the cells that have a face with that edge and
    [primal_faces_for_edge[edge]] these faces; for an edge of the mesh the
    first pointer is NULL exactly when no cell has the edge, and the two
    pointers are NULL together. *)
Theorem cells_and_faces_around_edge (tet_mesh : mesh_t) (ts : tagged_sets)
    inc (edge : Z) :
  build_incidence tet_mesh ts = Ok inc ->
  (forall c, c ∈ set_at (primal_cells_for_edge inc) edge <->
     exists face, face_of_cell tet_mesh c face
                  /\ edge ∈ mesh_face_edges tet_mesh face)
  /\ (forall f, f ∈ set_at (primal_faces_for_edge inc) edge <->
        exists cell, face_of_cell tet_mesh cell f
                     /\ edge ∈ mesh_face_edges tet_mesh f)
  /\ (0 <= edge < num_edges tet_mesh ->
      (arr_get (primal_cells_for_edge inc) edge = Ok None
       <-> forall cell face, face_of_cell tet_mesh cell face ->
             edge ∉ mesh_face_edges tet_mesh face)
      /\ (arr_get (primal_faces_for_edge inc) edge = Ok None
          <-> arr_get (primal_cells_for_edge inc) edge = Ok None)).
Proof.
  intros H.
  destruct (build_incidence_Ok _ _ _ H)
    as ((_ & (L1 & L2 & _) & I1 & I2 & _) & Vc & Vf & _).
  split; [apply Vc|]. split; [apply Vf|]. intros He.
  rewrite !set_at_null by (auto; lia). rewrite !set_at_empty_iff.
  split.
  - split.
    + intros Hn cell face Hcf Hin. apply (Hn cell), Vc. eauto.
    + intros Hn c (face & Hcf & Hin)%Vc. exact (Hn _ _ Hcf Hin).
  - split.
    + intros Hn c (face & Hcf & Hin)%Vc. apply (Hn face), Vf. eauto.
    + intros Hn f (cell & Hcf & Hin)%Vf. apply (Hn cell), Vc. eauto.
Qed.

(** X10.  When lines 203-248 are passed,
    [primal_boundary_faces_for_node[node]] holds the tagged faces
    (external or internal) of the cells that have the node; for a node of
    the mesh the pointer is NULL exactly when there is none. *)
Theorem boundary_faces_at_node (tet_mesh : mesh_t) (ts : tagged_sets)
    inc (node : Z) :
  build_incidence tet_mesh ts = Ok inc ->
  (forall f, f ∈ set_at (primal_boundary_faces_for_node inc) node <->
     exists cell, face_of_cell tet_mesh cell f
                  /\ is_model_face ts f = true
                  /\ node ∈ mesh_face_nodes tet_mesh f)
  /\ (0 <= node < num_nodes tet_mesh ->
      (arr_get (primal_boundary_faces_for_node inc) node = Ok None
       <-> forall cell face, face_of_cell tet_mesh cell face ->
             is_model_face ts face = true ->
             node ∉ mesh_face_nodes tet_mesh face)).
Proof.
  intros H.
  destruct (build_incidence_Ok _ _ _ H)
    as ((_ & (_ & _ & L3) & _ & _ & I3) & _ & _ & Vn).
  split; [apply Vn|]. intros Hn.
  rewrite set_at_null by (auto; lia). rewrite set_at_empty_iff.
  split.
  - intros Hno cell face Hcf Hm Hin. apply (Hno face), Vn. eauto.
  - intros Hno f (cell & Hcf & Hm & Hin)%Vn. exact (Hno _ _ Hcf Hm Hin).
Qed.

(** ** Counting the faces of tagged nodes *)

Lemma count_model_edge_faces_Ok (ts : tagged_sets) (inc : incidence)
    (count edge count' : Z) :
  count_model_edge_faces ts inc count edge = Ok count' ->
  exists s, arr_get (primal_faces_for_edge inc) edge = Ok (Some s).
Proof.
  unfold count_model_edge_faces. intros H. ok_bind H o Ho. ok_bind H fs Hfs.
  destruct o as [s|]; [eauto | discriminate].
Qed.

Lemma count_model_vertex_faces_Ok (inc : incidence) (count node count' : Z) :
  count_model_vertex_faces inc count node = Ok count' ->
  exists s, arr_get (primal_boundary_faces_for_node inc) node = Ok (Some s).
Proof.
  unfold count_model_vertex_faces. intros H. ok_bind H o Ho. ok_bind H u Hu.
  ok_bind H n Hn. destruct o as [s|]; [eauto | discriminate].
Qed.

Lemma set_at_Some (sets : list (option (gset Z))) (k : Z) (s : gset Z) :
  inhabited_sets sets -> arr_get sets k = Ok (Some s) ->
  exists x, x ∈ set_at sets k.
Proof.
  intros Hin Hs. unfold set_at. rewrite Hs.
  apply arr_get_Ok in Hs as [_ Hs]. apply Hin in Hs.
  apply set_choose_L in Hs. exact Hs.
Qed.

(** X11.  The count of lines 254-286 is reached only when every tagged
    model edge is an edge of a face of some cell and every tagged model
    vertex is a node of a tagged face of some cell: otherwise line 269 or
    line 284 goes through a NULL set (in a debugging build the assertion
    of line 283 fails first). *)
Theorem tagged_edges_and_vertices_need_faces (tet_mesh : mesh_t)
    (ts : tagged_sets) inc (n : Z) :
  build_incidence tet_mesh ts = Ok inc ->
  count_dual_faces_from_boundary_vertices tet_mesh ts inc = Ok n ->
  (forall edge, edge ∈ model_edges ts ->
     exists cell face, face_of_cell tet_mesh cell face
                       /\ edge ∈ mesh_face_edges tet_mesh face)
  /\ (forall node, node ∈ model_vertices ts ->
        exists cell face, face_of_cell tet_mesh cell face
                          /\ is_model_face ts face = true
                          /\ node ∈ mesh_face_nodes tet_mesh face).
Proof.
  intros Hinc H.
  destruct (build_incidence_Ok _ _ _ Hinc)
    as ((_ & _ & _ & I2 & I3) & _ & Vf & Vn).
  unfold count_dual_faces_from_boundary_vertices in H.
  ok_bind H c1 H1. ok_bind H c2 H2.
  split.
  - intros edge He.
    pose proof (for_each_Forall _ _ _ _ _
                  (fun s a s' Hb => count_model_edge_faces_Ok ts inc s a s' Hb) H2)
      as Hall.
    rewrite Forall_forall in Hall.
    destruct (Hall edge) as [s Hs]; [apply elem_of_elements; exact He|].
    destruct (set_at_Some _ _ _ I2 Hs) as [f Hf].
    apply Vf in Hf as (cell & Hcf & Hin). eauto.
  - intros node Hv.
    pose proof (for_each_Forall _ _ _ _ _
                  (fun s a s' Hb => count_model_vertex_faces_Ok inc s a s' Hb) H)
      as Hall.
    rewrite Forall_forall in Hall.
    destruct (Hall node) as [s Hs]; [apply elem_of_elements; exact Hv|].
    destruct (set_at_Some _ _ _ I3 Hs) as [f Hf].
    apply Vn in Hf as (cell & Hcf & Hm & Hin). eauto.
Qed.

(** ** The face lookup map *)

Lemma face_map_loop (src : Z -> result point_t) (l : list Z) st st' :
  for_each (emit src bind_face) l st = Ok st' ->
  forall f,
    (f ∉ l -> dual_node_for_model_face st' !! f
              = dual_node_for_model_face st !! f)
    /\ (f ∈ l -> exists j : nat,
          l !! j = Some f
          /\ dual_node_for_model_face st' !! f
             = Some (dv_offset st + Z.of_nat j)).
Proof.
  revert st. induction l as [|a l IH]; intros st; simpl.
  - intros [= <-] f. split; [reflexivity|]. intros Hf. inversion Hf.
  - destruct (emit src bind_face st a) as [st1|] eqn:H1; [|discriminate].
    intros H f.
    apply emit_Ok in H1 as (p & _ & _ & _ & Ho1 & Hm1 & _). simpl in Hm1.
    destruct (IH _ H f) as [Hout Hin].
    destruct (decide (f ∈ l)) as [Hfl|Hfl].
    + split; [intros Hn; exfalso; apply Hn; right; exact Hfl|].
      intros _. destruct (Hin Hfl) as (j & Hj & Hlk).
      exists (S j). split; [exact Hj|]. rewrite Hlk. f_equal. lia.
    + rewrite (Hout Hfl), Hm1. split.
      * intros Hn. apply lookup_insert_ne. intros <-. apply Hn. left.
      * intros [->|?]%elem_of_cons; [|contradiction].
        exists 0%nat. split; [reflexivity|].
        rewrite lookup_insert_eq. f_equal. lia.
Qed.

Lemma emit_loop_keeps_face_map {A} (src : A -> result point_t) upd
    (l : list A) st st' :
  (forall st a, dual_node_for_model_face (upd st a)
                = dual_node_for_model_face st) ->
  for_each (emit src upd) l st = Ok st' ->
  dual_node_for_model_face st' = dual_node_for_model_face st.
Proof.
  intros Hupd H.
  eapply (for_each_invariant
    (fun s => dual_node_for_model_face s = dual_node_for_model_face st));
    [| |exact H].
  - intros s a s' Hs Hb.
    apply emit_Ok in Hb as (_ & _ & _ & _ & _ & -> & _).
    rewrite Hupd. exact Hs.
  - reflexivity.
Qed.

(** The face map when lines 297-365 are passed. *)
Lemma face_map_bindings (tet_mesh : mesh_t)
    (ext int edges verts : list string) (n : Z) (nodes0 : list point_t) st :
  0 <= num_cells tet_mesh ->
  generate_dual_vertices tet_mesh ext int edges verts n nodes0 = Ok st ->
  let faces := tagged (face_tags tet_mesh) ext ++ tagged (face_tags tet_mesh) int in
  forall f,
    (f ∉ faces -> dual_node_for_model_face st !! f = None)
    /\ (f ∈ faces -> exists j : nat,
          faces !! j = Some f
          /\ dual_node_for_model_face st !! f
             = Some (num_cells tet_mesh + Z.of_nat j)).
Proof.
  intros Hnc H faces f. unfold generate_dual_vertices in H.
  ok_bind H st1 H1. ok_bind H st2 H2. ok_bind H st3 H3. ok_bind H st4 H4.
  ok_bind H st5 H5. ok_bind H u Hu. injection H as <-.
  unfold for_range in H1. rewrite Z.sub_0_r in H1.
  rewrite (for_each_ext _ _ _ _ (cell_dual_vertex_emit _)) in H1.
  rewrite (for_each_ext _ _ _ _ (model_face_dual_vertex_emit _)) in H2.
  rewrite (for_each_ext _ _ _ _ (model_face_dual_vertex_emit _)) in H3.
  rewrite (for_each_ext _ _ _ _ (model_edge_dual_vertex_emit _)) in H4.
  rewrite (for_each_ext _ _ _ _ (model_vertex_dual_vertex_emit _)) in H5.
  pose proof (emit_loop_keeps_face_map _ _ _ _ _ (fun _ _ => eq_refl) H5) as M5.
  pose proof (emit_loop_keeps_face_map _ bind_edge_position _ _ _
                (fun _ _ => eq_refl) H4) as M4.
  pose proof (emit_loop_keeps_face_map _ _ _ _ _ (fun _ _ => eq_refl) H1) as M1.
  simpl in M1.
  apply emit_loop_spec in H1 as (O1 & _); [|simpl; lia].
  simpl in O1. rewrite length_seqZ in O1.
  destruct (face_map_loop _ _ _ _ H2 f) as [Out2 In2].
  destruct (face_map_loop _ _ _ _ H3 f) as [Out3 In3].
  apply emit_loop_spec in H2 as (O2 & _); [|lia].
  rewrite M5, M4. unfold faces. split.
  - intros Hn. rewrite Out3, Out2, M1 by set_solver. apply lookup_empty.
  - intros Hf.
    destruct (decide (f ∈ tagged (face_tags tet_mesh) int)) as [Hi|Hi].
    + destruct (In3 Hi) as (j & Hj & ->).
      exists (length (tagged (face_tags tet_mesh) ext) + j)%nat.
      split; [rewrite lookup_app_r by lia; rewrite <- Hj; f_equal; lia|].
      f_equal. lia.
    + assert (He : f ∈ tagged (face_tags tet_mesh) ext) by set_solver.
      rewrite (Out3 Hi). destruct (In2 He) as (j & Hj & ->).
      exists j. split; [apply lookup_app_l_Some; exact Hj|]. f_equal. lia.
Qed.

(** X12.  When lines 297-365 are passed, [dual_node_for_model_face] binds
    exactly the tagged faces (external and internal), each to an index in
    the block of face vertices, and the dual node stored at that index is
    the centre of the face. *)
Theorem face_lookup_round_trip (tet_mesh : mesh_t)
    (ext int edges verts : list string) (n : Z) (nodes0 : list point_t) st
    (face : Z) :
  0 <= num_cells tet_mesh ->
  generate_dual_vertices tet_mesh ext int edges verts n nodes0 = Ok st ->
  let faces := tagged (face_tags tet_mesh) ext ++ tagged (face_tags tet_mesh) int in
  match dual_node_for_model_face st !! face with
  | Some k =>
      face ∈ faces
      /\ num_cells tet_mesh <= k < num_cells tet_mesh + Z.of_nat (length faces)
      /\ exists p, arr_get (face_centers tet_mesh) face = Ok p
                   /\ arr_get (dv_nodes st) k = Ok p
  | None => face ∉ faces
  end.
Proof.
  intros Hnc H faces.
  destruct (face_map_bindings _ _ _ _ _ _ _ _ Hnc H face) as [Hout Hin].
  fold faces in Hout, Hin.
  destruct (decide (face ∈ faces)) as [Hf|Hf].
  - destruct (Hin Hf) as (j & Hj & ->).
    destruct (generate_dual_vertices_layout _ _ _ _ _ _ _ _ Hnc H)
      as (_ & _ & _ & Hfaces & _).
    destruct (Hfaces j face Hj) as (p & Hp & Hlk).
    pose proof (lookup_lt_Some _ _ _ Hj).
    split; [exact Hf|]. split; [lia|].
    exists p. split; [exact Hp|]. apply arr_get_Ok. split; [lia|].
    rewrite <- Hlk. f_equal. lia.
  - rewrite (Hout Hf). exact Hf.
Qed.

(** ** The dual faces of the primal edges (lines 368-571) *)

Lemma arr_get_insert_eq {A} (a : list A) (i : Z) (v : A) :
  0 <= i < Z.of_nat (length a) ->
  arr_get (<[Z.to_nat i := v]> a) i = Ok v.
Proof.
  intros Hi. apply arr_get_Ok. split; [lia|].
  apply list_lookup_insert_eq. lia.
Qed.

Lemma arr_get_insert_ne {A} (a : list A) (i j : Z) (v : A) :
  0 <= i -> i <> j ->
  arr_get (<[Z.to_nat i := v]> a) j = arr_get a j.
Proof.
  intros Hi Hne. unfold arr_get. destruct (Z.leb_spec 0 j); [|reflexivity].
  rewrite list_lookup_insert_ne by lia. reflexivity.
Qed.

Lemma appends_face_laid_out (st st' : face_state) (face : list Z) :
  faces_laid_out st -> appends_face st st' face ->
  faces_laid_out st'
  /\ length (nodes_for_dual_face st') = length (nodes_for_dual_face st)
  /\ length (face_node_offsets st') = length (face_node_offsets st).
Proof.
  intros (H0 & Hz & Hlow & Hhigh) (off & Hoff & Hfno & Hnf & Hdf).
  apply arr_set_Ok in Hfno as [Rf Ef]. apply arr_set_Ok in Hnf as [Rn En].
  rewrite En, Ef, !length_insert.
  split; [|split; reflexivity].
  unfold faces_laid_out. rewrite Hdf, En, Ef, length_insert.
  split; [lia|]. split; [rewrite arr_get_insert_ne by lia; exact Hz|]. split.
  - intros k Hk. destruct (decide (k = df_offset st)) as [->|Hne].
    + exists face, off. rewrite !arr_get_insert_eq by lia.
      rewrite arr_get_insert_ne by lia. auto.
    + destruct (Hlow k) as (fk & ok & H1 & H2 & H3); [lia|].
      exists fk, ok. rewrite !arr_get_insert_ne by lia. auto.
  - intros k Hk. rewrite arr_get_insert_ne by lia. apply Hhigh. lia.
Qed.

Lemma vla_Ok {A} (n : Z) (junk : nat -> A) (a : list A) :
  vla n junk = Ok a -> 0 < n /\ length a = Z.to_nat n.
Proof.
  unfold vla. destruct (Z.ltb_spec 0 n); [|discriminate].
  intros [= <-]. rewrite length_map, length_seq. auto.
Qed.

Lemma size_of_Ok (o : option (gset Z)) (n : Z) :
  size_of o = Ok n -> exists s, o = Some s /\ n = Z.of_nat (size s).
Proof. destruct o as [s|]; [intros [= <-]; eauto | discriminate]. Qed.

Lemma elements_of_Ok (o : option (gset Z)) (l : list Z) :
  elements_of o = Ok l -> exists s, o = Some s /\ l = elements s.
Proof. destruct o as [s|]; [intros [= <-]; eauto | discriminate]. Qed.

Lemma length_elements (s : gset Z) : length (elements s) = size s.
Proof. reflexivity. Qed.

(** The loop of line 554 fills [dual_nodes] with the centres of the cells,
    in the order of the traversal. *)
Lemma gather_cell_centers (tet_mesh : mesh_t) (cells : list Z)
    (k : nat) (dn : list point_t) g :
  (k + length cells = length dn)%nat ->
  for_each (gather_cell_center tet_mesh) cells (Z.of_nat k, dn) = Ok g ->
  exists centers,
    centers_of tet_mesh cells centers
    /\ g = (Z.of_nat (k + length cells), take k dn ++ centers).
Proof.
  revert k dn. induction cells as [|c cells IH]; intros k dn Hlen; simpl.
  - intros [= <-]. exists []. split; [constructor|].
    simpl in Hlen. rewrite Nat.add_0_r in *. rewrite app_nil_r.
    rewrite take_ge by lia. reflexivity.
  - simpl in Hlen.
    destruct (gather_cell_center tet_mesh (Z.of_nat k, dn) c) as [g1|] eqn:H1;
      [|discriminate].
    intros H. unfold gather_cell_center in H1. simpl in H1.
    ok_bind H1 xc Hxc. ok_bind H1 dn1 Hdn1. injection H1 as <-.
    apply arr_set_Ok in Hdn1 as [Hr ->]. rewrite Nat2Z.id in H.
    replace (Z.of_nat k + 1) with (Z.of_nat (S k)) in H by lia.
    destruct (IH (S k) (<[k := xc]> dn)) as (centers & Hc & ->);
      [rewrite length_insert; lia | exact H |].
    exists (xc :: centers). split; [constructor; assumption|].
    f_equal; [f_equal; lia|].
    rewrite (take_S_r _ _ xc) by (apply list_lookup_insert_eq; lia).
    rewrite take_insert_ge by lia. rewrite <- app_assoc. reflexivity.
Qed.

Lemma memcpy_whole (dst src dst' : list Z) (n : Z) :
  length dst = Z.to_nat n ->
  memcpy_at dst 0 src n = Ok dst' ->
  dst' = take (Z.to_nat n) src /\ length dst' = Z.to_nat n
  /\ 0 <= n <= Z.of_nat (length src).
Proof.
  intros Hlen H. pose proof (memcpy_at_length _ _ _ _ _ H) as Hl.
  unfold memcpy_at in H.
  destruct (Z.leb_spec 0 n), (Z.leb_spec n (Z.of_nat (length src))),
    (Z.leb_spec (0 + n) (Z.of_nat (length dst))); simpl in H;
    try discriminate.
  injection H as <-. simpl. rewrite drop_ge by lia. rewrite app_nil_r.
  split; [reflexivity|]. split; [|lia].
  rewrite length_take. lia.
Qed.

(** The interior branch (lines 550-568). *)
Lemma interior_edge_appends (tet_mesh : mesh_t) cells st st' (edge : Z) :
  interior_edge tet_mesh cells st edge = Ok st' ->
  exists s centers,
    cells = Some s
    /\ centers_of tet_mesh (elements s) centers
    /\ (size s <= length (polygon_giftwrap_ordering centers))%nat
    /\ appends_face st st' (take (size s) (polygon_giftwrap_ordering centers)).
Proof.
  unfold interior_edge. intros H.
  ok_bind H nc Hsize. ok_bind H dns Hdn. ok_bind H cs Hcs. ok_bind H g Hg.
  ok_bind H off Hoff. ok_bind H fno Hfno. cbv zeta in H.
  ok_bind H fn Hresize. ok_bind H fn1 Hcopy. ok_bind H nfdf Hstore.
  injection H as <-.
  apply size_of_Ok in Hsize as (s & -> & ->).
  apply elements_of_Ok in Hcs as (s' & [= <-] & ->).
  apply vla_Ok in Hdn as [Hpos Hlen]. rewrite Nat2Z.id in Hlen.
  destruct (gather_cell_centers tet_mesh (elements s) 0 dns g)
    as (centers & Hc & ->); [rewrite length_elements; lia | exact Hg |].
  simpl in *.
  apply int_array_resize_Ok in Hresize as [_ ->].
  apply memcpy_whole in Hcopy as (-> & Hl & Hle);
    [|rewrite length_map, length_seq; reflexivity].
  rewrite Nat2Z.id in *.
  exists s, centers. split; [reflexivity|]. split; [exact Hc|].
  split; [lia|].
  exists off. simpl. rewrite length_take.
  replace (Z.of_nat (size s `min` length (polygon_giftwrap_ordering centers)))
    with (Z.of_nat (size s)) by lia.
  auto.
Qed.

Lemma place_middle_node_length (dni dni' : list Z) (cands : list Z) :
  place_middle_node dni cands = Ok dni' -> length dni' = length dni.
Proof.
  induction cands as [|i cands IH]; simpl.
  - intros [= <-]. reflexivity.
  - intros H. ok_bind H d0 H0. ok_bind H d2 H2.
    destruct (negb (i =? d0) && negb (i =? d2)).
    + apply arr_set_length in H. exact H.
    + apply IH. exact H.
Qed.

Lemma put_back_length (tw : list dual_face_node_ordering_t) (l : list Z)
    (d d' : list Z) :
  for_each (put_back tw) l d = Ok d' -> length d' = length d.
Proof.
  apply (for_each_invariant (fun a => length a = length d)); [|reflexivity].
  intros a i a' Ha Hb. unfold put_back in Hb. ok_bind Hb t Ht.
  apply arr_set_length in Hb. congruence.
Qed.

(** [order_nodes_of_dual_face] returns only for two nodes or more, and
    keeps the length of [dual_node_indices]. *)
Lemma order_nodes_Ok (plane : sp_func_t) (ep : Z * Z)
    (dual_nodes : list point_t) (n : Z)
    (junk : nat -> dual_face_node_ordering_t) (dni dni' : list Z) :
  order_nodes_of_dual_face plane ep dual_nodes n junk dni = Ok dni' ->
  (2 <= n /\ length dni' = length dni)
  /\ (ndebug = false -> ep.1 <> -1 /\ ep.2 <> -1 /\ ep.1 <> ep.2).
Proof.
  unfold order_nodes_of_dual_face. intros H.
  ok_bind H u1 A1. ok_bind H u2 A2. ok_bind H u3 A3. ok_bind H u4 A4.
  split; cycle 1.
  { intros Hd.
    apply (ASSERT_Ok_debug _ _ _ Hd), negb_true_iff, Z.eqb_neq in A2, A3, A4.
    auto. }
  destruct (Z.eqb_spec n 2) as [->|Hn2].
  - ok_bind H d1 H1. apply arr_set_length in H1, H. split; [lia|congruence].
  - destruct (Z.eqb_spec n 3) as [->|Hn3].
    + ok_bind H d1 H1. ok_bind H d2 H2.
      apply arr_set_length in H1, H2. apply place_middle_node_length in H.
      split; [lia|congruence].
    + ok_bind H tw Htw. apply vla_Ok in Htw as [Hpos _]. cbv zeta in H.
      ok_bind H tw1 Htw1. ok_bind H d1 H1. ok_bind H d2 H2.
      apply arr_set_length in H1, H. apply put_back_length in H2.
      split; [lia|congruence].
Qed.

Lemma arr_set_twice {A} (a a1 a2 : list A) (i : Z) (v w : A) :
  arr_set a i v = Ok a1 -> arr_set a1 i w = Ok a2 -> arr_set a i w = Ok a2.
Proof.
  intros [Hr ->]%arr_set_Ok [_ ->]%arr_set_Ok.
  rewrite list_insert_insert_eq. apply arr_set_in_range. exact Hr.
Qed.

Lemma enumerate_snoc (l : list Z) (c : Z) :
  enumerate (l ++ [c]) = enumerate l ++ [(Z.of_nat (length l), c)].
Proof.
  unfold enumerate. rewrite length_app. simpl.
  replace (length l + 1)%nat with (S (length l)) by lia.
  rewrite seqZ_S, Z.add_0_l.
  rewrite zip_with_app by (rewrite length_seqZ; lia). reflexivity.
Qed.

Lemma boundary_positions_snoc (ts : tagged_sets) (l : list Z) (c : Z) :
  boundary_positions ts (l ++ [c])
  = boundary_positions ts l
    ++ (if int_unordered_set_contains (external_boundary_tets ts) c
        then [Z.of_nat (length l)] else []).
Proof.
  unfold boundary_positions. rewrite enumerate_snoc, filter_app, fmap_app.
  f_equal. rewrite filter_cons, filter_nil. simpl.
  destruct (int_unordered_set_contains (external_boundary_tets ts) c).
  - destruct (decide (true = true)); [reflexivity | contradiction].
  - destruct (decide (false = true)); [discriminate | reflexivity].
Qed.

Lemma boundary_positions_range (ts : tagged_sets) (l : list Z) (p : Z) :
  p ∈ boundary_positions ts l ->
  0 <= p < Z.of_nat (length l)
  /\ exists c, l !! Z.to_nat p = Some c /\ c ∈ external_boundary_tets ts.
Proof.
  unfold boundary_positions. intros Hp.
  apply list_elem_of_fmap in Hp as ([q c] & -> & Hin).
  apply list_elem_of_filter in Hin as [Hc Hin]. simpl in *.
  apply list_elem_of_lookup in Hin as [i Hi].
  unfold enumerate in Hi. apply lookup_zip_with_Some in Hi
    as (a & b & [= <- <-] & Ha & Hb).
  apply lookup_seqZ in Ha as [-> Hlt].
  split; [lia|]. exists c. rewrite Z.add_0_l, Nat2Z.id.
  split; [exact Hb|].
  unfold int_unordered_set_contains in Hc. apply bool_decide_eq_true in Hc.
  exact Hc.
Qed.

Lemma first_and_last_snoc (ps : list Z) (p : Z) :
  Forall (fun q => q <> -1) ps ->
  first_and_last (ps ++ [p])
  = if (first_and_last ps).1 =? -1 then (p, (first_and_last ps).2)
    else ((first_and_last ps).1, p).
Proof.
  intros Hps. destruct ps as [|q ps]; simpl.
  - reflexivity.
  - apply Forall_cons in Hps as [Hq _].
    destruct (Z.eqb_spec q (-1)); [contradiction|].
    f_equal. rewrite last_last. reflexivity.
Qed.

(** The loop of lines 395-407. *)
Lemma gather_boundary_cells (tet_mesh : mesh_t) (ts : tagged_sets)
    (cells : list Z) (dn : list point_t) (dni : list Z) g :
  for_each (gather_boundary_cell tet_mesh ts) cells
    {| g_c := 0; g_dual_nodes := dn; g_dual_node_indices := dni;
       g_endpoint_indices := (-1, -1) |} = Ok g ->
  g_c g = Z.of_nat (length cells)
  /\ g_endpoint_indices g = first_and_last (boundary_positions ts cells)
  /\ length (g_dual_node_indices g) = length dni
  /\ length (g_dual_nodes g) = length dn.
Proof.
  revert g. induction cells as [|c cells IH] using rev_ind; intros g.
  - simpl. intros [= <-]. simpl. auto.
  - rewrite for_each_app. intros H. ok_bind H g1 H1.
    destruct (IH _ H1) as (Hc & He & Hi & Hn).
    simpl in H. destruct (gather_boundary_cell tet_mesh ts g1 c) as [g2|] eqn:H2;
      [|discriminate].
    injection H as <-. unfold gather_boundary_cell in H2.
    ok_bind H2 xc Hxc. ok_bind H2 dn1 Hdn1. ok_bind H2 dni1 Hdni1.
    injection H2 as <-. simpl.
    apply arr_set_length in Hdn1, Hdni1.
    rewrite length_app. simpl.
    split; [lia|]. split; [|split; congruence].
    rewrite boundary_positions_snoc.
    destruct (int_unordered_set_contains (external_boundary_tets ts) c).
    + rewrite first_and_last_snoc.
      * rewrite <- He, Hc. reflexivity.
      * apply Forall_forall. intros q Hq.
        apply boundary_positions_range in Hq. lia.
    + rewrite app_nil_r. exact He.
Qed.

Lemma boundary_positions_length (ts : tagged_sets) (l : list Z) :
  length (boundary_positions ts l)
  = length (filter (fun c => int_unordered_set_contains
                               (external_boundary_tets ts) c = true) l).
Proof.
  induction l as [|c l IH] using rev_ind; [reflexivity|].
  rewrite boundary_positions_snoc, filter_app, !length_app, IH. f_equal.
  rewrite filter_cons, filter_nil.
  destruct (int_unordered_set_contains (external_boundary_tets ts) c).
  - destruct (decide (true = true)); [reflexivity | contradiction].
  - destruct (decide (false = true)); [discriminate | reflexivity].
Qed.

Lemma boundary_tets_around (ts : tagged_sets) (s : gset Z) :
  length (boundary_positions ts (elements s))
  = size (s ∩ external_boundary_tets ts).
Proof.
  rewrite boundary_positions_length.
  rewrite <- (size_list_to_set (C := gset Z)).
  - f_equal. apply set_eq. intros x.
    rewrite elem_of_list_to_set, list_elem_of_filter, elem_of_elements,
      elem_of_intersection.
    unfold int_unordered_set_contains. rewrite bool_decide_eq_true. tauto.
  - apply NoDup_filter, NoDup_elements.
Qed.

Lemma first_and_last_two (ps : list Z) :
  (first_and_last ps).2 <> -1 -> (2 <= length ps)%nat.
Proof.
  destruct ps as [|p [|q ps]]; simpl; try (intros H; contradiction).
  intros _. lia.
Qed.

(** The external-boundary branch (lines 390-439). *)
Lemma external_face_edge_appends (tet_mesh : mesh_t) (ts : tagged_sets)
    (dnfe : gmap Z Z) (is_model_edge : bool) cells st st' (edge : Z) :
  external_face_edge tet_mesh ts dnfe is_model_edge cells st edge = Ok st' ->
  exists s face,
    cells = Some s
    /\ (2 <= size s)%nat
    /\ length face = (size s + if is_model_edge then 1 else 0)%nat
    /\ (ndebug = false ->
        (3 <= length face)%nat
        /\ (2 <= size (s ∩ external_boundary_tets ts))%nat)
    /\ appends_face st st' face.
Proof.
  unfold external_face_edge. intros H.
  ok_bind H nn Hsize. ok_bind H dns Hdn. ok_bind H dni Hdni.
  ok_bind H cs Hcs. ok_bind H g Hg. ok_bind H n1 Hn1. ok_bind H n2 Hn2.
  ok_bind H x1 Hx1. ok_bind H x2 Hx2. cbv zeta in H.
  ok_bind H ordered Hordered. ok_bind H u Hu. ok_bind H off Hoff.
  ok_bind H fno Hfno. ok_bind H nfdf0 Hstore0. ok_bind H fn0 Hresize.
  ok_bind H fn1 Hcopy. ok_bind H fn2 Happend. ok_bind H nfdf1 Hstore1.
  injection H as <-.
  apply size_of_Ok in Hsize as (s & -> & ->).
  apply elements_of_Ok in Hcs as (s' & [= <-] & ->).
  apply gather_boundary_cells in Hg as (_ & Hep & _ & _).
  apply order_nodes_Ok in Hordered as [[Hn2' _] Hends].
  apply int_array_resize_Ok in Hresize as [Hnn ->].
  apply memcpy_at_length in Hcopy. rewrite length_map, length_seq in Hcopy.
  assert (Hlen : length fn2 = Z.to_nat (if is_model_edge
                   then Z.of_nat (size s) + 1 else Z.of_nat (size s))).
  { destruct is_model_edge.
    - ok_bind Happend v Hv. apply int_array_store_length in Happend.
      congruence.
    - injection Happend as <-. exact Hcopy. }
  exists s, fn2. split; [reflexivity|]. split; [lia|].
  split; [destruct is_model_edge; lia|]. split.
  - intros Hd. apply (ASSERT_Ok_debug _ _ _ Hd) in Hu.
    apply Z.leb_le in Hu. split; [destruct is_model_edge; lia|].
    destruct (Hends Hd) as (_ & He2 & _). rewrite Hep in He2.
    apply first_and_last_two in He2. rewrite boundary_tets_around in He2.
    exact He2.
  - exists off. simpl. split; [exact Hoff|]. split.
    + rewrite Hlen, Z2Nat.id by (destruct is_model_edge; lia). exact Hfno.
    + split; [|reflexivity]. exact (arr_set_twice _ _ _ _ _ _ Hstore0 Hstore1).
Qed.

(** The internal-interface branch (lines 450-542), when it returns for
    an edge that is not a model edge. *)
Lemma internal_face_edge_appends (tet_mesh : mesh_t) (ts : tagged_sets)
    (dnfe : gmap Z Z) cells st st' (edge : Z) :
  internal_face_edge tet_mesh ts dnfe false cells st edge = Ok st' ->
  exists st1 face1 face2,
    appends_face st st1 face1 /\ appends_face st1 st' face2.
Proof.
  unfold internal_face_edge. intros H.
  ok_bind H nc Hsize. ok_bind H dns Hdn. ok_bind H dni Hdni.
  ok_bind H cs Hcs. ok_bind H g Hg. cbv zeta in H.
  ok_bind H t Ht. ok_bind H u1 Hu1. ok_bind H off1 Hoff1.
  ok_bind H fno1 Hfno1. ok_bind H nfdf1 Hstore1. ok_bind H f1 Hresize1.
  ok_bind H f1a Hloop1. ok_bind H u2 Hu2. ok_bind H off2 Hoff2.
  ok_bind H fno2 Hfno2. ok_bind H nfdf2 Hstore2. ok_bind H f2 Hresize2.
  ok_bind H f1b Hloop2. ok_bind H fp Hpair. destruct fp as [f1c f2c].
  ok_bind H nfdf3 Hstore3. ok_bind H nfdf4 Hstore4.
  injection H as <-.
  apply int_array_resize_Ok in Hresize1 as [Hn1 ->].
  apply int_array_resize_Ok in Hresize2 as [Hn2 ->].
  apply copy_ring_nodes_length in Hloop1, Hloop2.
  rewrite length_map, length_seq in Hloop1.
  injection Hpair as <- <-.
  apply arr_set_Ok in Hstore1 as [R1 ->]. apply arr_set_Ok in Hstore2 as [R2 ->].
  apply arr_set_Ok in Hstore3 as [R3 ->]. apply arr_set_Ok in Hstore4 as [R4 ->].
  rewrite !length_insert in *.
  exists {| df_offset := df_offset st + 1; face_node_offsets := fno1;
            nodes_for_dual_face :=
              <[Z.to_nat (df_offset st) := Some f1b]> (nodes_for_dual_face st) |},
         f1b, (map (uninit_array (df_offset st + 1))
                 (seq 0 (Z.to_nat (stop_index2 t - start_index2 t + 1)))).
  split.
  - exists off1. simpl. split; [exact Hoff1|]. split.
    + rewrite Hloop2, Hloop1, Z2Nat.id by lia. exact Hfno1.
    + split; [|reflexivity]. apply arr_set_in_range. exact R1.
  - exists off2. simpl. split; [exact Hoff2|]. split.
    + rewrite length_map, length_seq, Z2Nat.id by lia.
      replace (df_offset st + 1 + 1) with (df_offset st + 2) by lia.
      exact Hfno2.
    + split; [|lia].
      rewrite arr_set_in_range by (rewrite length_insert; lia).
      f_equal.
      rewrite (list_insert_insert_ne _ (Z.to_nat (df_offset st))
                 (Z.to_nat (df_offset st + 1))) by lia.
      rewrite !list_insert_insert_eq. reflexivity.
Qed.

(** Every primal edge appends one or two faces; an internal-interface
    edge that is a model edge is left out: there the offsets count one node
    more than each of the two arrays holds (lines 507-512, 520-525). *)
Lemma dual_faces_for_edge_laid_out (tet_mesh : mesh_t) (ts : tagged_sets)
    (inc : incidence) (dnfe : gmap Z Z) st st' (edge : Z) (n : nat) :
  (is_interface_only_edge ts edge = true ->
   int_unordered_set_contains (model_edges ts) edge = false) ->
  faces_laid_out st /\ length (nodes_for_dual_face st) = n ->
  dual_faces_for_edge tet_mesh ts inc dnfe st edge = Ok st' ->
  faces_laid_out st' /\ length (nodes_for_dual_face st') = n.
Proof.
  intros Hplain [Hlo Hlen]. unfold dual_faces_for_edge. intros H.
  ok_bind H cells Hcells. ok_bind H u Hu. cbv zeta in H.
  unfold is_interface_only_edge in Hplain.
  destruct (int_unordered_set_contains (external_model_face_edges ts) edge).
  - apply external_face_edge_appends in H as (s & face & _ & _ & _ & _ & Ha).
    destruct (appends_face_laid_out _ _ _ Hlo Ha) as (? & ? & _).
    split; [assumption | congruence].
  - destruct (int_unordered_set_contains (internal_model_face_edges ts) edge).
    + rewrite (Hplain eq_refl) in H.
      apply internal_face_edge_appends in H as (st1 & f1 & f2 & Ha1 & Ha2).
      destruct (appends_face_laid_out _ _ _ Hlo Ha1) as (Hlo1 & ? & _).
      destruct (appends_face_laid_out _ _ _ Hlo1 Ha2) as (? & ? & _).
      split; [assumption | congruence].
    + apply interior_edge_appends in H as (s & centers & _ & _ & _ & Ha).
      destruct (appends_face_laid_out _ _ _ Hlo Ha) as (? & ? & _).
      split; [assumption | congruence].
Qed.

Lemma arr_get_replicate {A} (n : nat) (x : A) (k : Z) :
  0 <= k < Z.of_nat n -> arr_get (replicate n x) k = Ok x.
Proof.
  intros Hk. apply arr_get_Ok. split; [lia|].
  apply lookup_replicate. split; [reflexivity | lia].
Qed.

(** The loop of lines 368-571 keeps the length of [nodes_for_dual_face],
    and a debugging build leaves it only with the counter at
    [num_dual_faces]. *)
Lemma generate_edge_faces_length (tet_mesh : mesh_t) (ts : tagged_sets)
    (inc : incidence) (dnfe : gmap Z Z) (num_dual_faces : Z) (fno : list Z) fs :
  generate_edge_faces tet_mesh ts inc dnfe num_dual_faces fno = Ok fs ->
  length (nodes_for_dual_face fs) = Z.to_nat num_dual_faces
  /\ (ndebug = false -> df_offset fs = num_dual_faces).
Proof.
  unfold generate_edge_faces. intros H.
  ok_bind H fno1 Hfno. ok_bind H st Hloop. ok_bind H u Hu. injection H as <-.
  unfold for_range in Hloop. split.
  - eapply (for_each_invariant
              (fun st => length (nodes_for_dual_face st)
                         = Z.to_nat num_dual_faces));
      [| |exact Hloop]; [|apply length_replicate].
    intros s edge s' Hs Hb. rewrite <- Hs. clear Hs Hloop.
    unfold dual_faces_for_edge in Hb.
    ok_bind Hb cells Hcells. ok_bind Hb u' Hu'. cbv zeta in Hb.
    destruct (int_unordered_set_contains (external_model_face_edges ts) edge).
    + apply external_face_edge_appends in Hb
        as (s0 & face & _ & _ & _ & _ & (off & _ & _ & Hn & _)).
      apply arr_set_Ok in Hn as [_ ->]. apply length_insert.
    + destruct (int_unordered_set_contains (internal_model_face_edges ts) edge).
      * unfold internal_face_edge in Hb.
        ok_bind Hb nc Hsize. ok_bind Hb dns Hdn. ok_bind Hb dni Hdni.
        ok_bind Hb cs Hcs. ok_bind Hb g Hg. cbv zeta in Hb.
        ok_bind Hb t Ht. ok_bind Hb u1 Hu1. ok_bind Hb off1 Hoff1.
        ok_bind Hb fno1' Hfno1. ok_bind Hb nfdf1 Hstore1.
        ok_bind Hb f1 Hresize1. ok_bind Hb f1a Hloop1. ok_bind Hb u2 Hu2.
        ok_bind Hb off2 Hoff2. ok_bind Hb fno2 Hfno2. ok_bind Hb nfdf2 Hstore2.
        ok_bind Hb f2 Hresize2. ok_bind Hb f1b Hloop2. ok_bind Hb fp Hpair.
        destruct fp as [f1c f2c].
        ok_bind Hb nfdf3 Hstore3. ok_bind Hb nfdf4 Hstore4.
        injection Hb as <-. simpl.
        apply arr_set_length in Hstore1, Hstore2, Hstore3, Hstore4.
        congruence.
      * apply interior_edge_appends in Hb
          as (s0 & centers & _ & _ & _ & (off & _ & _ & Hn & _)).
        apply arr_set_Ok in Hn as [_ ->]. apply length_insert.
  - intros Hd. apply (ASSERT_Ok_debug _ _ _ Hd) in Hu. apply Z.eqb_eq in Hu.
    exact Hu.
Qed.

Lemma generate_edge_faces_laid_out (tet_mesh : mesh_t) (ts : tagged_sets)
    (inc : incidence) (dnfe : gmap Z Z) (num_dual_faces : Z) (fno : list Z) fs :
  (forall edge, is_interface_only_edge ts edge = true ->
     int_unordered_set_contains (model_edges ts) edge = false) ->
  generate_edge_faces tet_mesh ts inc dnfe num_dual_faces fno = Ok fs ->
  faces_laid_out fs.
Proof.
  intros Hplain. unfold generate_edge_faces. intros H.
  ok_bind H fno1 Hfno. ok_bind H st Hloop. ok_bind H u Hu. injection H as <-.
  apply arr_set_Ok in Hfno as [Hr ->].
  unfold for_range in Hloop.
  assert (Hinv : faces_laid_out st
                 /\ length (nodes_for_dual_face st) = Z.to_nat num_dual_faces).
  { eapply (for_each_invariant
              (fun st => faces_laid_out st
                 /\ length (nodes_for_dual_face st) = Z.to_nat num_dual_faces));
      [| |exact Hloop].
    - intros s a s' Hs Hb.
      exact (dual_faces_for_edge_laid_out _ _ _ _ _ _ _ _ (Hplain a) Hs Hb).
    - split; [|apply length_replicate].
      unfold faces_laid_out. simpl.
      split; [lia|]. split; [apply (arr_get_insert_eq fno 0); exact Hr|].
      split; [intros k Hk; lia|].
      intros k Hk. rewrite length_replicate in Hk.
      apply arr_get_replicate. lia. }
  exact (proj1 Hinv).
Qed.

(** X15.  For an interior edge (lines 550-568) the node list of the dual
    face is the gift-wrap ordering of the centres of the incident cells,
    cut to their number: its entries are positions in that local array of
    centres, whatever the indices of the cells are. *)
Theorem interior_face_lists_positions (tet_mesh : mesh_t) cells st st'
    (edge : Z) :
  interior_edge tet_mesh cells st edge = Ok st' ->
  exists s centers,
    cells = Some s
    /\ centers_of tet_mesh (elements s) centers
    /\ (size s <= length (polygon_giftwrap_ordering centers))%nat
    /\ arr_get (nodes_for_dual_face st') (df_offset st)
       = Ok (Some (take (size s) (polygon_giftwrap_ordering centers)))
    /\ df_offset st' = df_offset st + 1.
Proof.
  intros H. apply interior_edge_appends in H as (s & centers & Hs & Hc & Hle & Ha).
  exists s, centers. split; [exact Hs|]. split; [exact Hc|]. split; [exact Hle|].
  destruct Ha as (off & _ & _ & Hn & Hd). split; [|exact Hd].
  apply arr_set_Ok in Hn as [Hr ->]. apply arr_get_insert_eq. exact Hr.
Qed.

(** X14.  The external-boundary branch (lines 390-439) returns only for
    an edge with at least two incident cells; in a debugging build only
    when, besides, the dual face has at least three nodes and at least two
    of the cells are external boundary tets. *)
Theorem external_edge_needs_two_cells (tet_mesh : mesh_t) (ts : tagged_sets)
    (dnfe : gmap Z Z) (is_model_edge : bool) cells st st' (edge : Z) :
  external_face_edge tet_mesh ts dnfe is_model_edge cells st edge = Ok st' ->
  exists s,
    cells = Some s
    /\ (2 <= size s)%nat
    /\ (ndebug = false ->
        (3 <= size s + if is_model_edge then 1 else 0)%nat
        /\ (2 <= size (s ∩ external_boundary_tets ts))%nat).
Proof.
  intros H.
  apply external_face_edge_appends in H as (s & face & Hs & H2 & Hl & Hd & _).
  exists s. split; [exact Hs|]. split; [exact H2|]. rewrite <- Hl. exact Hd.
Qed.

(** X13.  The loop of lines 395-407 leaves in [endpoint_indices] the
    positions, in the order of the traversal, of the first and of the last
    cell that is an external boundary tet: -1 twice when there is none,
    -1 for the second when there is one only, and the ones in between are
    forgotten when there are more than two. *)
Theorem endpoints_are_first_and_last_boundary_tets (tet_mesh : mesh_t)
    (ts : tagged_sets) (cells : list Z) (dn : list point_t) (dni : list Z) g :
  for_each (gather_boundary_cell tet_mesh ts) cells
    {| g_c := 0; g_dual_nodes := dn; g_dual_node_indices := dni;
       g_endpoint_indices := (-1, -1) |} = Ok g ->
  g_endpoint_indices g = first_and_last (boundary_positions ts cells)
  /\ (forall p, p ∈ boundary_positions ts cells <->
        exists c, arr_get cells p = Ok c /\ c ∈ external_boundary_tets ts).
Proof.
  intros H. apply gather_boundary_cells in H as (_ & He & _ & _).
  split; [exact He|]. intros p. split.
  - intros (Hr & c & Hc & Hin)%boundary_positions_range. exists c.
    split; [apply arr_get_Ok; split; [lia | exact Hc] | exact Hin].
  - intros (c & [H0 Hc]%arr_get_Ok & Hin). unfold boundary_positions.
    apply list_elem_of_fmap. exists (p, c). split; [reflexivity|].
    apply list_elem_of_filter. split.
    + simpl. unfold int_unordered_set_contains. apply bool_decide_eq_true.
      exact Hin.
    + apply list_elem_of_lookup. exists (Z.to_nat p). unfold enumerate.
      apply lookup_zip_with_Some. exists p, c. split; [reflexivity|].
      split; [|exact Hc]. apply lookup_seqZ. apply lookup_lt_Some in Hc.
      split; lia.
Qed.

(** X16.  When no internal-interface edge is a model edge and the loop
    over the primal edges (lines 368-571) is passed, [face_node_offsets]
    starts at 0, every dual face below [df_offset] is stored with
    [face_node_offsets[k+1] = face_node_offsets[k] + size of face k], and
    every slot of [nodes_for_dual_face] from [df_offset] on is still
    NULL. *)
Theorem edge_faces_are_laid_out (tet_mesh : mesh_t) (ts : tagged_sets)
    (inc : incidence) (dnfe : gmap Z Z) (num_dual_faces : Z) (fno : list Z) fs :
  (forall edge, is_interface_only_edge ts edge = true ->
     int_unordered_set_contains (model_edges ts) edge = false) ->
  generate_edge_faces tet_mesh ts inc dnfe num_dual_faces fno = Ok fs ->
  arr_get (face_node_offsets fs) 0 = Ok 0
  /\ (forall k, 0 <= k < df_offset fs ->
        exists face off,
          arr_get (nodes_for_dual_face fs) k = Ok (Some face)
          /\ arr_get (face_node_offsets fs) k = Ok off
          /\ arr_get (face_node_offsets fs) (k + 1)
             = Ok (off + Z.of_nat (length face)))
  /\ (forall k, df_offset fs <= k < num_dual_faces ->
        arr_get (nodes_for_dual_face fs) k = Ok None).
Proof.
  intros Hplain H.
  destruct (generate_edge_faces_laid_out _ _ _ _ _ _ _ Hplain H)
    as (H0 & Hz & Hlow & Hhigh).
  destruct (generate_edge_faces_length _ _ _ _ _ _ _ H) as [Hlen _].
  split; [exact Hz|]. split; [exact Hlow|].
  intros k Hk. apply Hhigh. lia.
Qed.

Lemma find_transition_Ok (tet_mesh : mesh_t) (ts : tagged_sets)
    (num_cells : Z) (dni ordering : list Z) (t : transitions) (i : Z) t' :
  0 <= i < num_cells ->
  find_transition tet_mesh ts num_cells dni ordering t i = Ok t' ->
  t' = t
  \/ exists this_cell next_cell,
       is_transition tet_mesh ts num_cells dni ordering this_cell next_cell
       /\ (t' = {| start_index1 := next_cell; start_index2 := start_index2 t;
                   stop_index1 := stop_index1 t; stop_index2 := this_cell |}
           \/ t' = {| start_index1 := start_index1 t; start_index2 := next_cell;
                      stop_index1 := this_cell; stop_index2 := stop_index2 t |}).
Proof.
  intros Hi. unfold find_transition. intros H.
  ok_bind H o1 Ho1. ok_bind H this_cell Hthis. ok_bind H o2 Ho2.
  ok_bind H next_cell Hnext.
  unfold int_unordered_set_contains in H.
  destruct (bool_decide (this_cell ∈ internal_boundary_tets ts)) eqn:Ht;
    simpl in H; [|injection H as <-; auto].
  destruct (bool_decide (next_cell ∈ internal_boundary_tets ts)) eqn:Hn;
    simpl in H; [|injection H as <-; auto].
  destruct (Z.eqb_spec (mesh_cell_face_for_neighbor tet_mesh this_cell next_cell)
              (-1)) as [|Hs]; simpl in H; [injection H as <-; auto|].
  destruct (bool_decide (mesh_cell_face_for_neighbor tet_mesh this_cell next_cell
                         ∈ internal_model_faces ts)) eqn:Hf;
    simpl in H; [|injection H as <-; auto].
  apply bool_decide_eq_true in Ht, Hn, Hf.
  right. exists this_cell, next_cell. split.
  - exists i, o1, o2. repeat split; try assumption; lia.
  - destruct (start_index1 t =? -1); injection H as <-; auto.
Qed.

(** X22.  The four indices that the loop of lines 472-502 leaves are taken
    in pairs from transitions: [start_index1] and [stop_index2] are both
    -1, or the next cell and this cell of one transition, and likewise
    [start_index2] and [stop_index1]; they are indices of cells, entries
    of [dual_node_indices], not positions in the ordering. *)
Theorem transition_indices_are_cells (tet_mesh : mesh_t) (ts : tagged_sets)
    (num_cells : Z) (dual_node_indices ordering : list Z) (t : transitions) :
  for_range 0 num_cells
    (find_transition tet_mesh ts num_cells dual_node_indices ordering)
    {| start_index1 := -1; start_index2 := -1;
       stop_index1 := -1; stop_index2 := -1 |} = Ok t ->
  ((start_index1 t = -1 /\ stop_index2 t = -1)
   \/ is_transition tet_mesh ts num_cells dual_node_indices ordering
        (stop_index2 t) (start_index1 t))
  /\ ((start_index2 t = -1 /\ stop_index1 t = -1)
      \/ is_transition tet_mesh ts num_cells dual_node_indices ordering
           (stop_index1 t) (start_index2 t)).
Proof.
  unfold for_range. rewrite Z.sub_0_r. intros H.
  pose (P := fun t : transitions =>
    ((start_index1 t = -1 /\ stop_index2 t = -1)
     \/ is_transition tet_mesh ts num_cells dual_node_indices ordering
          (stop_index2 t) (start_index1 t))
    /\ ((start_index2 t = -1 /\ stop_index1 t = -1)
        \/ is_transition tet_mesh ts num_cells dual_node_indices ordering
             (stop_index1 t) (start_index2 t))).
  change (P t).
  assert (Hgen : forall l s s',
            Forall (fun i => 0 <= i < num_cells) l -> P s ->
            for_each (find_transition tet_mesh ts num_cells dual_node_indices
                        ordering) l s = Ok s' -> P s').
  { induction l as [|i l IH]; intros s s' Hl Hs; simpl.
    - intros [= <-]. exact Hs.
    - apply Forall_cons in Hl as [Hi Hl].
      destruct (find_transition _ _ _ _ _ s i) as [s1|] eqn:H1; [|discriminate].
      apply IH; [exact Hl|].
      apply find_transition_Ok in H1 as [->|(a & b & Htr & [-> | ->])];
        [exact Hs| | |exact Hi]; destruct Hs as [H1' H2']; split; simpl; auto. }
  eapply Hgen; [| |exact H].
  - apply Forall_forall. intros i Hi. apply elem_of_seqZ in Hi. lia.
  - split; left; split; reflexivity.
Qed.

(** ** The dual faces of the tagged nodes (lines 573-640) *)

Lemma dual_face_for_model_face_node_Ok (ts : tagged_sets) (inc : incidence)
    (vs : vertex_state) st node st' :
  dual_face_for_model_face_node ts inc vs st node = Ok st' ->
  face_node_offsets st' = face_node_offsets st
  /\ if int_unordered_set_contains (model_edge_nodes ts) node
     then st' = st
     else df_offset st' = df_offset st + 1
          /\ exists face, arr_set (nodes_for_dual_face st) (df_offset st)
                            (Some face) = Ok (nodes_for_dual_face st').
Proof.
  unfold dual_face_for_model_face_node.
  destruct (int_unordered_set_contains (model_edge_nodes ts) node); simpl.
  - intros [= <-]. auto.
  - intros H. ok_bind H bf Hbf. ok_bind H u Hu. ok_bind H n Hn.
    ok_bind H dn Hdn. ok_bind H bfs Hbfs. ok_bind H g Hg. cbv zeta in H.
    ok_bind H fn Hfn. ok_bind H fn1 Hfn1. ok_bind H nfdf Hnfdf.
    injection H as <-. simpl. split; [reflexivity|]. split; [reflexivity|].
    exists fn1. exact Hnfdf.
Qed.

(** The loop of lines 577-607 over any list of nodes. *)
Lemma node_faces_loop (ts : tagged_sets) (inc : incidence) (vs : vertex_state)
    (l : list Z) st st' :
  for_each (dual_face_for_model_face_node ts inc vs) l st = Ok st' ->
  face_node_offsets st' = face_node_offsets st
  /\ df_offset st' = df_offset st + Z.of_nat (length (filter
        (fun n => int_unordered_set_contains (model_edge_nodes ts) n = false) l))
  /\ length (nodes_for_dual_face st') = length (nodes_for_dual_face st)
  /\ (filter (fun n => int_unordered_set_contains (model_edge_nodes ts) n = false)
        l <> [] ->
      0 <= df_offset st
      /\ df_offset st' <= Z.of_nat (length (nodes_for_dual_face st)))
  /\ (forall k, df_offset st <= k < df_offset st' ->
        exists face, arr_get (nodes_for_dual_face st') k = Ok (Some face))
  /\ (forall k, ~ df_offset st <= k < df_offset st' ->
        arr_get (nodes_for_dual_face st') k
        = arr_get (nodes_for_dual_face st) k).
Proof.
  revert st. induction l as [|a l IH]; intros st; simpl.
  - intros [= <-]. simpl.
    split; [reflexivity|]. split; [lia|]. split; [reflexivity|].
    split; [intros Hne; exfalso; apply Hne; reflexivity|].
    split; [intros k Hk; lia | reflexivity].
  - destruct (dual_face_for_model_face_node ts inc vs st a) as [st1|] eqn:H1;
      [|discriminate].
    intros H. destruct (IH _ H) as (Ho & Hd & Hl & Hb & Hnew & Hold).
    apply dual_face_for_model_face_node_Ok in H1 as [Ho1 H1].
    rewrite filter_cons.
    destruct (int_unordered_set_contains (model_edge_nodes ts) a) eqn:Ha.
    + subst st1. destruct (decide (true = false)); [discriminate|].
      split; [exact Ho|]. split; [exact Hd|]. split; [exact Hl|].
      split; [exact Hb|]. split; assumption.
    + destruct (decide (false = false)) as [_|?]; [|contradiction].
      destruct H1 as (Hd1 & face & Hset).
      apply arr_set_Ok in Hset as [Hr Hn1]. rewrite Hn1 in *.
      rewrite length_insert in *. simpl.
      split; [congruence|]. split; [lia|]. split; [exact Hl|]. split.
      * intros _. split; [lia|].
        destruct (filter _ l) as [|b bs] eqn:Hf; [simpl in Hd; lia|].
        destruct Hb as [_ Hb]; [discriminate|]. exact Hb.
      * split.
        -- intros k Hk. destruct (decide (k = df_offset st)) as [->|Hne].
           ++ rewrite Hold by lia. exists face. apply arr_get_insert_eq. exact Hr.
           ++ apply Hnew. lia.
        -- intros k Hk. rewrite Hold by lia. apply arr_get_insert_ne; lia.
Qed.

Lemma filter_elements_size (s t : gset Z) :
  length (filter (fun n => int_unordered_set_contains t n = false) (elements s))
  = size (s ∖ t).
Proof.
  rewrite <- (size_list_to_set (C := gset Z)).
  - f_equal. apply set_eq. intros x.
    rewrite elem_of_list_to_set, list_elem_of_filter, elem_of_elements,
      elem_of_difference.
    unfold int_unordered_set_contains. rewrite bool_decide_eq_false. tauto.
  - apply NoDup_filter, NoDup_elements.
Qed.

(** X17.  Lines 573-640, when passed, append one dual face for every node
    of a tagged face that is neither on a tagged edge nor a tagged vertex,
    and none for the tagged edges and vertices (the loops of lines 613-639
    store nothing); [face_node_offsets] is not written, and no face stored
    before is touched. *)
Theorem node_faces_leave_offsets (ts : tagged_sets) (inc : incidence)
    (vs : vertex_state) st st' :
  generate_node_faces ts inc vs st = Ok st' ->
  face_node_offsets st' = face_node_offsets st
  /\ df_offset st' = df_offset st + int_unordered_set_size (face_only_nodes ts)
  /\ (forall k, df_offset st <= k < df_offset st' ->
        exists face, arr_get (nodes_for_dual_face st') k = Ok (Some face))
  /\ (forall k, ~ df_offset st <= k < df_offset st' ->
        arr_get (nodes_for_dual_face st') k
        = arr_get (nodes_for_dual_face st) k).
Proof.
  unfold generate_node_faces. intros H.
  ok_bind H st1 H1. ok_bind H u1 H2. ok_bind H u2 H3. injection H as <-.
  destruct (node_faces_loop _ _ _ _ _ _ H1) as (Ho & Hd & _ & _ & Hnew & Hold).
  rewrite filter_elements_size in Hd.
  split; [exact Ho|]. split; [exact Hd|]. split; [exact Hnew | exact Hold].
Qed.

(** X18.  Line 603 stores the dual face of a node at
    [nodes_for_dual_face[df_offset]]: when some node of a tagged face is
    on no tagged edge, lines 573-640 are passed only if the counter they
    start from is not negative and the array has a free slot, from the
    counter on, for every such node. *)
Theorem node_faces_need_room (ts : tagged_sets) (inc : incidence)
    (vs : vertex_state) st st' :
  generate_node_faces ts inc vs st = Ok st' ->
  face_only_nodes ts <> ∅ ->
  0 <= df_offset st
  /\ df_offset st + int_unordered_set_size (face_only_nodes ts)
     <= Z.of_nat (length (nodes_for_dual_face st)).
Proof.
  unfold generate_node_faces. intros H Hne.
  ok_bind H st1 H1. ok_bind H u1 H2. ok_bind H u2 H3. injection H as <-.
  destruct (node_faces_loop _ _ _ _ _ _ H1) as (_ & Hd & _ & Hb & _).
  rewrite filter_elements_size in Hd.
  unfold face_only_nodes, int_unordered_set_size in *.
  destruct Hb as [Hb0 Hb1].
  - intros Hnil. apply Hne. apply leibniz_equiv, size_empty_iff.
    rewrite <- filter_elements_size, Hnil. reflexivity.
  - split; [exact Hb0 | lia].
Qed.

(** ** Compaction of the face nodes (lines 664-668) *)

Lemma compact_face_Ok (nfdf : list (option (list Z))) dm f dm' :
  compact_face nfdf dm f = Ok dm' ->
  exists face off fn,
    arr_get nfdf f = Ok (Some face)
    /\ arr_get (dm_face_node_offsets dm) f = Ok off
    /\ memcpy_at (dm_face_nodes dm) off face (Z.of_nat (length face)) = Ok fn
    /\ dm' = with_face_nodes dm fn.
Proof.
  unfold compact_face. intros H. ok_bind H o Ho.
  destruct o as [face|]; [|discriminate].
  ok_bind H off Hoff. ok_bind H fn Hfn. injection H as <-.
  exists face, off, fn. auto.
Qed.

(** X19.  The loop of lines 664-668 reads the node list of every dual face
    below [num_dual_faces]: it is passed only when none of these pointers
    is NULL. *)
Theorem compaction_needs_every_face (nfdf : list (option (list Z)))
    (n : Z) dm dm' (k : Z) :
  for_range 0 n (compact_face nfdf) dm = Ok dm' ->
  0 <= k < n ->
  exists face, arr_get nfdf k = Ok (Some face).
Proof.
  unfold for_range. rewrite Z.sub_0_r. intros H Hk.
  pose proof (for_each_Forall
                (fun f => exists face, arr_get nfdf f = Ok (Some face))
                _ _ _ _
                (fun s a s' Hb =>
                   match compact_face_Ok _ _ _ _ Hb with
                   | ex_intro _ face (ex_intro _ _ (ex_intro _ _ (conj Hf _))) =>
                       ex_intro _ face Hf
                   end) H) as Hall.
  rewrite Forall_forall in Hall. apply Hall. apply elem_of_seqZ. lia.
Qed.

Lemma length_concat_take_le (faces : list (list Z)) (k : nat) :
  (length (concat (take k faces)) <= length (concat faces))%nat.
Proof.
  rewrite <- (take_drop k faces) at 2. rewrite concat_app, length_app. lia.
Qed.

(** The offsets of a laid-out table are the lengths of the faces before
    each face. *)
Lemma offsets_are_prefix_lengths (faces : list (list Z)) (offsets : list Z) :
  arr_get offsets 0 = Ok 0 ->
  (forall (k : nat) face, faces !! k = Some face ->
     exists off, arr_get offsets (Z.of_nat k) = Ok off
                 /\ arr_get offsets (Z.of_nat k + 1)
                    = Ok (off + Z.of_nat (length face))) ->
  forall k : nat, (k <= length faces)%nat ->
    arr_get offsets (Z.of_nat k)
    = Ok (Z.of_nat (length (concat (take k faces)))).
Proof.
  intros H0 Hstep k. induction k as [|k IH]; intros Hk.
  - exact H0.
  - destruct (lookup_lt_is_Some_2 faces k) as [face Hf]; [lia|].
    destruct (Hstep k face Hf) as (off & Ho & Ho1).
    rewrite IH in Ho by lia. injection Ho as <-.
    rewrite (take_S_r _ _ face) by exact Hf.
    rewrite concat_app, length_app. simpl. rewrite app_nil_r.
    replace (Z.of_nat (S k)) with (Z.of_nat k + 1) by lia.
    rewrite Ho1. f_equal. lia.
Qed.

Lemma compact_faces_prefix (faces : list (list Z)) dm (k : nat) :
  arr_get (dm_face_node_offsets dm) 0 = Ok 0 ->
  (forall (k : nat) face, faces !! k = Some face ->
     exists off, arr_get (dm_face_node_offsets dm) (Z.of_nat k) = Ok off
                 /\ arr_get (dm_face_node_offsets dm) (Z.of_nat k + 1)
                    = Ok (off + Z.of_nat (length face))) ->
  length (dm_face_nodes dm) = length (concat faces) ->
  (k <= length faces)%nat ->
  for_each (compact_face (Some <$> faces)) (seqZ 0 (Z.of_nat k)) dm
  = Ok (with_face_nodes dm
          (concat (take k faces)
           ++ drop (length (concat (take k faces))) (dm_face_nodes dm))).
Proof.
  intros H0 Hstep Hlen. induction k as [|k IH]; intros Hk.
  - simpl. rewrite drop_0. destruct dm; reflexivity.
  - rewrite seqZ_S, for_each_app, IH by lia. rewrite bind_Ok_l. simpl.
    rewrite Z.add_0_l.
    destruct (lookup_lt_is_Some_2 faces k) as [face Hf]; [lia|].
    unfold compact_face.
    rewrite (proj2 (arr_get_Ok (Some <$> faces) (Z.of_nat k) (Some face)))
      by (rewrite Nat2Z.id, list_lookup_fmap, Hf; auto with lia).
    rewrite bind_Ok_l. simpl.
    rewrite (offsets_are_prefix_lengths faces _ H0 Hstep k) by lia.
    rewrite bind_Ok_l.
    pose proof (length_concat_take_le faces (S k)) as Hle.
    rewrite (take_S_r _ _ face) in * by exact Hf.
    rewrite concat_app, length_app in *. simpl in *.
    rewrite app_nil_r in *.
    set (pre := concat (take k faces)) in *.
    unfold memcpy_at.
    assert (Hcur : length (pre ++ drop (length pre) (dm_face_nodes dm))
                   = length (dm_face_nodes dm)).
    { rewrite length_app, length_drop. lia. }
    rewrite Hcur.
    destruct (Z.leb_spec 0 (Z.of_nat (length pre))); [|lia].
    destruct (Z.leb_spec 0 (Z.of_nat (length face))); [|lia].
    destruct (Z.leb_spec (Z.of_nat (length face)) (Z.of_nat (length face)));
      [|lia].
    destruct (Z.leb_spec (Z.of_nat (length pre) + Z.of_nat (length face))
                (Z.of_nat (length (dm_face_nodes dm)))); [|lia].
    simpl. unfold with_face_nodes. simpl. f_equal. f_equal.
    rewrite !Nat2Z.id.
    rewrite take_app_length, firstn_all.
    rewrite <- Nat2Z.inj_add, Nat2Z.id.
    rewrite drop_app_add' by reflexivity.
    rewrite drop_drop. rewrite <- app_assoc. reflexivity.
Qed.

(** X20.  When the offset table holds the prefix sums of the sizes of the
    dual faces and [face_nodes] has as many entries as its last offset
    says, the loop of lines 664-668 is passed and leaves in [face_nodes]
    the node lists of the faces one after the other; nothing else of the
    mesh changes. *)
Theorem compaction_flattens_faces (faces : list (list Z)) (dm : dual_mesh_t) :
  arr_get (dm_face_node_offsets dm) 0 = Ok 0 ->
  (forall (k : nat) face, faces !! k = Some face ->
     exists off, arr_get (dm_face_node_offsets dm) (Z.of_nat k) = Ok off
                 /\ arr_get (dm_face_node_offsets dm) (Z.of_nat k + 1)
                    = Ok (off + Z.of_nat (length face))) ->
  arr_get (dm_face_node_offsets dm) (Z.of_nat (length faces))
  = Ok (Z.of_nat (length (dm_face_nodes dm))) ->
  for_range 0 (Z.of_nat (length faces)) (compact_face (Some <$> faces)) dm
  = Ok (with_face_nodes dm (concat faces)).
Proof.
  intros H0 Hstep Hn.
  rewrite (offsets_are_prefix_lengths faces _ H0 Hstep (length faces)) in Hn
    by lia.
  rewrite firstn_all in Hn. injection Hn as Hn. apply Nat2Z.inj in Hn.
  unfold for_range. rewrite Z.sub_0_r.
  rewrite (compact_faces_prefix faces dm (length faces) H0 Hstep) by lia.
  rewrite firstn_all, drop_ge by lia. rewrite app_nil_r. reflexivity.
Qed.

(** ** Small faces, and the entry point *)

(** X4.  With two or three nodes, and endpoints that are two distinct
    positions of the node array, [order_nodes_of_dual_face] returns, in
    either build, a permutation of the positions 0 .. num_nodes-1 that
    starts at the first endpoint and ends at the second. *)
Theorem order_small_face (plane : sp_func_t) (endpoint_indices : Z * Z)
    (dual_nodes : list point_t) (num_nodes : Z)
    (tweener_junk : nat -> dual_face_node_ordering_t)
    (dual_node_indices : list Z) :
  num_nodes = 2 \/ num_nodes = 3 ->
  length dual_node_indices = Z.to_nat num_nodes ->
  0 <= endpoint_indices.1 < num_nodes ->
  0 <= endpoint_indices.2 < num_nodes ->
  endpoint_indices.1 <> endpoint_indices.2 ->
  exists dni',
    order_nodes_of_dual_face plane endpoint_indices dual_nodes num_nodes
      tweener_junk dual_node_indices = Ok dni'
    /\ dni' ≡ₚ seqZ 0 num_nodes
    /\ head dni' = Some endpoint_indices.1
    /\ last dni' = Some endpoint_indices.2.
Proof.
  intros Hn Hlen H1 H2 H12. destruct endpoint_indices as [e1 e2]. simpl in *.
  destruct Hn as [-> | ->].
  - destruct dual_node_indices as [|a [|b [|? ?]]]; try discriminate.
    rewrite (order_two_nodes plane (e1, e2) dual_nodes tweener_junk a b)
      by (simpl; lia).
    eexists. split; [reflexivity|]. simpl.
    split; [|split; reflexivity].
    assert (He : (e1 = 0 /\ e2 = 1) \/ (e1 = 1 /\ e2 = 0)) by lia.
    destruct He as [[-> ->]|[-> ->]]; [reflexivity | apply Permutation_swap].
  - destruct dual_node_indices as [|a [|b [|c [|? ?]]]]; try discriminate.
    rewrite (order_three_nodes plane (e1, e2) dual_nodes tweener_junk a b c)
      by (simpl; lia).
    eexists. split; [reflexivity|]. simpl.
    split; [|split; reflexivity].
    assert (He1 : e1 = 0 \/ e1 = 1 \/ e1 = 2) by lia.
    assert (He2 : e2 = 0 \/ e2 = 1 \/ e2 = 2) by lia.
    destruct He1 as [->|[->| ->]], He2 as [->|[->| ->]];
      try (exfalso; apply H12; reflexivity); simpl;
      change (seqZ 0 3) with [0; 1; 2];
      apply NoDup_Permutation;
      try (apply (bool_decide_unpack _); vm_compute; exact I);
      intros x; rewrite !elem_of_cons, !elem_of_nil; tauto.
Qed.

(** X21.  [create_dual_mesh] with [NDEBUG] checks nothing and is
    [create_dual_mesh_from_tet_mesh]; a debugging build stops at the first
    of: no external face tag (line 720), no edge tag (721), no vertex tag
    (722), a mesh that is not tetrahedral (725), internal face tags being
    optional; and for a mesh with a node it returns no mesh in either
    build. *)
Theorem create_dual_mesh_entry_point (original_mesh : mesh_t)
    (ext int edges verts : list string) :
  (ndebug = true ->
   create_dual_mesh original_mesh ext int edges verts
   = create_dual_mesh_from_tet_mesh original_mesh ext int edges verts)
  /\ (ndebug = false ->
      (ext = [] ->
       create_dual_mesh original_mesh ext int edges verts
       = Fault (AssertionFailed 720))
      /\ (ext <> [] -> edges = [] ->
          create_dual_mesh original_mesh ext int edges verts
          = Fault (AssertionFailed 721))
      /\ (ext <> [] -> edges <> [] -> verts = [] ->
          create_dual_mesh original_mesh ext int edges verts
          = Fault (AssertionFailed 722))
      /\ (ext <> [] -> edges <> [] -> verts <> [] ->
          mesh_is_tetrahedral original_mesh = false ->
          create_dual_mesh original_mesh ext int edges verts
          = Fault (AssertionFailed 725)))
  /\ (0 < num_nodes original_mesh ->
      is_ok (create_dual_mesh original_mesh ext int edges verts) = false).
Proof.
  assert (Hpos : forall l : list string, l <> [] ->
                   (0 <? Z.of_nat (length l)) = true).
  { intros [|x l] Hl; [contradiction | reflexivity]. }
  split; [|split].
  - intros Hr. unfold create_dual_mesh, ASSERT. rewrite Hr. reflexivity.
  - intros Hd. unfold create_dual_mesh.
    split; [intros ->; rewrite (ASSERT_debug _ _ Hd eq_refl); reflexivity|].
    split.
    { intros He ->. rewrite (ASSERT_true _ _ (Hpos _ He)), bind_Ok_l.
      rewrite (ASSERT_debug _ _ Hd eq_refl). reflexivity. }
    split.
    { intros He Hed ->.
      rewrite (ASSERT_true _ _ (Hpos _ He)), bind_Ok_l.
      rewrite (ASSERT_true _ _ (Hpos _ Hed)), bind_Ok_l.
      rewrite (ASSERT_debug _ _ Hd eq_refl). reflexivity. }
    intros He Hed Hv Ht.
    rewrite (ASSERT_true _ _ (Hpos _ He)), bind_Ok_l.
    rewrite (ASSERT_true _ _ (Hpos _ Hed)), bind_Ok_l.
    rewrite (ASSERT_true _ _ (Hpos _ Hv)), bind_Ok_l.
    rewrite (ASSERT_debug _ _ Hd Ht). reflexivity.
  - intros Hn. unfold create_dual_mesh.
    destruct (ASSERT 720 _); [|reflexivity]. rewrite bind_Ok_l.
    destruct (ASSERT 721 _); [|reflexivity]. rewrite bind_Ok_l.
    destruct (ASSERT 722 _); [|reflexivity]. rewrite bind_Ok_l.
    destruct (ASSERT 725 _); [|reflexivity]. rewrite bind_Ok_l.
    apply construction_never_returns. exact Hn.
Qed.

End Properties.

(** * The properties on the sample meshes *)

Lemma insert_by_length {A} (cmp : A -> A -> Z) (a : A) (l : list A) :
  length (Reference.insert_by cmp a l) = S (length l).
Proof.
  induction l as [|b l IH]; simpl; [reflexivity|].
  destruct (cmp a b <=? 0); simpl; [reflexivity | rewrite IH; reflexivity].
Qed.

Lemma insertion_sort_length (A : Type) (cmp : A -> A -> Z) (l : list A) :
  length (Reference.insertion_sort A cmp l) = length l.
Proof.
  induction l as [|a l IH]; simpl; [reflexivity|].
  rewrite insert_by_length, IH. reflexivity.
Qed.

(** Runs the stage at the head of the goal [exists x, stage = Ok x /\ _]
    and goes on with its value. *)
Ltac run_stage :=
  match goal with
  | |- exists x, ?e = Ok x /\ _ =>
      let H := fresh "Hstage" in
      let v := fresh "v" in
      let f := fresh "f" in
      destruct e as [v|f] eqn:H;
      [ vm_compute in H; injection H as <-; eexists; split; [reflexivity|]
      | exfalso; vm_compute in H; discriminate ]
  end.

(** Names the value of the stage at the head of the goal without
    computing it. *)
Ltac name_stage v H :=
  match goal with
  | |- exists x, ?e = Ok x /\ _ =>
      let f := fresh "f" in
      destruct e as [v|f] eqn:H;
      [ exists v; split; [reflexivity|]
      | exfalso; vm_compute in H; discriminate ]
  end.

Section DebuggingBuild.
Import Samples.
#[local] Existing Instance Reference.debug_build.

(** Four dual nodes on a circle around the edge, the endpoints at
    positions 0 and 1, and the cell indices 10..13 in the caller's
    array. *)
Lemma order_nodes_ends_at_first_endpoint_witness :
  exists dni',
    order_nodes_of_dual_face
      (plane_sp_func_new (pt 0 0 1) (pt 0 0 0)) (0, 1)
      [pt 1 0 0; pt 0 1 0; pt (-1) 0 0; pt 0 (-1) 0] 4
      (uninit_tweener 0) [10; 11; 12; 13]
    = Ok dni'
    /\ dni' !! 0%nat = Some 0
    /\ dni' !! 3%nat = Some 0.
Proof.
  destruct (order_nodes_ends_at_first_endpoint
              (plane_sp_func_new (pt 0 0 1) (pt 0 0 0)) (0, 1)
              [pt 1 0 0; pt 0 1 0; pt (-1) 0 0; pt 0 (-1) 0] 4
              (uninit_tweener 0) [10; 11; 12; 13])
    as (dni' & tw & Hrun & _ & Hfirst & Hlast & _);
    [lia | reflexivity | reflexivity | exact insertion_sort_length
    | simpl; lia | simpl; lia | simpl; lia |].
  exists dni'. split; [exact Hrun|]. split; [exact Hfirst | exact Hlast].
Defined.

(** The run behind the lemma above: the slots between the two ends hold
    the last node projected and the index that was in [tweener_nodes]
    before the loop, and the list ends with endpoint 0. *)
Example order_four_nodes :
  order_nodes_of_dual_face
    (plane_sp_func_new (pt 0 0 1) (pt 0 0 0)) (0, 1)
    [pt 1 0 0; pt 0 1 0; pt (-1) 0 0; pt 0 (-1) 0] 4
    (uninit_tweener 0) [10; 11; 12; 13]
  = Ok [0; -7; 3; 0].
Proof. vm_compute. reflexivity. Qed.

(** The stellated tetrahedron with its skin, outer edges and corners
    tagged: every cell receives the dual vertex of the reference
    tetrahedron. *)
Lemma cell_dual_vertex_ignores_cell_witness :
  exists st,
    generate_dual_vertices (skin_tagged [0; 1; 2; 3; 4; 5])
      ["skin"] [] ["ridges"] ["corners"] 18 (dm_nodes (mesh_new 5 52 18))
    = Ok st
    /\ dv_nodes st !! 0%nat = Some default_dual_vertex
    /\ dv_nodes st !! 3%nat = Some default_dual_vertex.
Proof.
  name_stage st H. split.
  - refine (cell_dual_vertex_ignores_cell _ _ _ _ _ _ _ _ 0 _ H).
    simpl. lia.
  - refine (cell_dual_vertex_ignores_cell _ _ _ _ _ _ _ _ 3 _ H).
    simpl. lia.
Defined.

(** There, cell 0 is the tetrahedron on nodes 0, 1, 2 and 4, and the dual
    vertex stored for it fails the point-in-tetrahedron test. *)
Example cell_dual_vertex_outside_cell :
  (st ← generate_dual_vertices (skin_tagged [0; 1; 2; 3; 4; 5])
          ["skin"] [] ["ridges"] ["corners"] 18 (dm_nodes (mesh_new 5 52 18));
   xc ← arr_get (dv_nodes st) 0;
   Ok (Reference.inside
         {| tet_v1 := pt 0 0 0; tet_v2 := pt 1 0 0; tet_v3 := pt 0 1 0;
            tet_v4 := pt 0.25 0.25 0.25 |} xc))
  = Ok false.
Proof. vm_compute. reflexivity. Qed.

(** There, the dual vertex of the fourth tagged edge (primal edge 3, from
    node 1 to node 2) has the coordinates [(1 + 0) / 2], [(0 + 1) / 2],
    [(0 + 0) / 2]. *)
Lemma model_edge_dual_vertex_is_midpoint_witness :
  exists st,
    generate_dual_vertices (skin_tagged [0; 1; 2; 3; 4; 5])
      ["skin"] [] ["ridges"] ["corners"] 18 (dm_nodes (mesh_new 5 52 18))
    = Ok st
    /\ exists p, dv_nodes st !! 11%nat = Some p
         /\ px p = ((1 + 0) / 2)%float
         /\ py p = ((0 + 1) / 2)%float
         /\ pz p = ((0 + 0) / 2)%float.
Proof.
  name_stage st H.
  assert (Hnc : 0 <= num_cells (skin_tagged [0; 1; 2; 3; 4; 5]))
    by (simpl; lia).
  destruct (model_edge_dual_vertex_is_midpoint _ _ _ _ _ _ _ _ 3%nat 3
              Hnc H eq_refl)
    as (n1 & n2 & x1 & x2 & p & Hn1 & Hn2 & Hx1 & Hx2 & Hp & Hpx & Hpy & Hpz).
  vm_compute in Hn1, Hn2. injection Hn1 as <-. injection Hn2 as <-.
  vm_compute in Hx1, Hx2. injection Hx1 as <-. injection Hx2 as <-.
  exists p. split; [exact Hp|].
  split; [exact Hpx|]. split; [exact Hpy | exact Hpz].
Defined.

(** With the tag [[3; 4; 5]], the keys of the map are 0, 1, 2: key 0 is
    bound to the dual vertex of primal edge 3, and primal edge 3 is not a
    key. *)
Lemma edge_map_keyed_by_position_witness :
  exists st,
    generate_dual_vertices (skin_tagged [3; 4; 5])
      ["skin"] [] ["ridges"] ["corners"] 15 (dm_nodes (mesh_new 5 52 15))
    = Ok st
    /\ dual_node_for_edge st !! 3 = None
    /\ dual_node_for_edge st !! 0 = Some 8
    /\ exists p, edge_midpoint (skin_tagged [3; 4; 5]) 3 = Ok p
                 /\ dv_nodes st !! 8%nat = Some p.
Proof.
  name_stage st H.
  assert (Hnc : 0 <= num_cells (skin_tagged [3; 4; 5])) by (simpl; lia).
  destruct (edge_map_keyed_by_position _ _ _ _ _ _ _ _ Hnc H)
    as [Hkeys Hvals].
  split; [exact (Hkeys 3)|]. split; [exact (Hkeys 0)|].
  exact (Hvals 0%nat 3 eq_refl).
Defined.

(** There the dual face of primal edge 3, a tagged model edge, cannot be
    completed: the lookup of line 434 finds nothing. *)
Example tagged_edge_not_found :
  (ts ← build_tagged_sets (skin_tagged [3; 4; 5])
          ["skin"] [] ["ridges"] ["corners"];
   inc ← build_incidence (skin_tagged [3; 4; 5]) ts;
   vs ← generate_dual_vertices (skin_tagged [3; 4; 5])
          ["skin"] [] ["ridges"] ["corners"] 15 (dm_nodes (mesh_new 5 52 15));
   dual_faces_for_edge (skin_tagged [3; 4; 5]) ts inc (dual_node_for_edge vs)
     {| df_offset := 3;
        face_node_offsets := dm_face_node_offsets (mesh_new 5 52 15);
        nodes_for_dual_face := replicate 52 None |} 3)
  = Fault (AssertionFailed 435).
Proof. vm_compute. reflexivity. Qed.

(** The dual-node count and the blocks on the stellated tetrahedron. *)
Lemma dual_node_count_and_blocks_witness :
  exists ts,
    build_tagged_sets (skin_tagged [0; 1; 2; 3; 4; 5])
      ["skin"] [] ["ridges"] ["corners"] = Ok ts
    /\ count_dual_nodes (skin_tagged [0; 1; 2; 3; 4; 5]) ts = 4 + 4 + 6 + 4
    /\ exists st,
         generate_dual_vertices (skin_tagged [0; 1; 2; 3; 4; 5])
           ["skin"] [] ["ridges"] ["corners"]
           (count_dual_nodes (skin_tagged [0; 1; 2; 3; 4; 5]) ts)
           (dm_nodes (mesh_new 5 52 18)) = Ok st.
Proof.
  name_stage ts Hts.
  destruct (dual_node_count_and_blocks (skin_tagged [0; 1; 2; 3; 4; 5])
              ["skin"] [] ["ridges"] ["corners"] ts
              (dm_nodes (mesh_new 5 52 18)) Hts)
    as (Hn & _ & Htotal).
  - vm_compute. repeat constructor; set_solver.
  - constructor.
  - vm_compute. repeat constructor; set_solver.
  - vm_compute. repeat constructor; set_solver.
  - simpl. lia.
  - split; [exact Hn|]. apply Htotal.
    + rewrite Hn. reflexivity.
    + vm_compute. repeat constructor.
    + vm_compute. repeat constructor.
    + vm_compute. repeat constructor.
Defined.

(** Outer face 0 carries the two external tags "skin" and "inlet": 18
    dual nodes are counted and 19 are generated. *)
Lemma repeated_tag_entry_overruns_dual_nodes_witness :
  let m := stellated_tet {[ "skin" := [0; 1; 2; 3]; "inlet" := [0] ]}
             {[ "ridges" := [0; 1; 2; 3; 4; 5] ]}
             {[ "corners" := [0; 1; 2; 3] ]} in
  exists ts,
    build_tagged_sets m ["skin"; "inlet"] [] ["ridges"] ["corners"] = Ok ts
    /\ is_ok (generate_dual_vertices m ["skin"; "inlet"] [] ["ridges"]
                ["corners"] (count_dual_nodes m ts)
                (dm_nodes (mesh_new 5 52 18))) = false.
Proof.
  intros m. name_stage ts Hts.
  refine (proj1 (proj2 (proj2
    (repeated_tag_entry_overruns_dual_nodes m ["skin"; "inlet"] []
       ["ridges"] ["corners"] ts (dm_nodes (mesh_new 5 52 18)) Hts _ _))) _ _).
  - simpl. lia.
  - left. apply (bool_decide_unpack _). vm_compute. exact I.
  - vm_compute in Hts. injection Hts as <-. vm_compute. reflexivity.
Defined.

(** There the count is 18, and the generation, with 19 dual vertices to
    store, runs past the node array. *)
Lemma overlapping_tags_overrun_dual_nodes :
  let m := stellated_tet {[ "skin" := [0; 1; 2; 3]; "inlet" := [0] ]}
             {[ "ridges" := [0; 1; 2; 3; 4; 5] ]}
             {[ "corners" := [0; 1; 2; 3] ]} in
  exists ts,
    build_tagged_sets m ["skin"; "inlet"] [] ["ridges"] ["corners"] = Ok ts
    /\ count_dual_nodes m ts = 18
    /\ generate_dual_vertices m ["skin"; "inlet"] [] ["ridges"] ["corners"]
         (count_dual_nodes m ts) (dm_nodes (mesh_new 5 52 18))
       = Fault OutOfBounds.
Proof.
  intros m. name_stage ts Hts.
  vm_compute in Hts. injection Hts as <-.
  split; vm_compute; reflexivity.
Qed.

(** With room for a nineteenth dual vertex the assertion of line 365
    fails. *)
Example repeated_tag_entry_fails_the_assertion :
  let m := stellated_tet {[ "skin" := [0; 1; 2; 3]; "inlet" := [0] ]}
             {[ "ridges" := [0; 1; 2; 3; 4; 5] ]}
             {[ "corners" := [0; 1; 2; 3] ]} in
  generate_dual_vertices m ["skin"; "inlet"] [] ["ridges"] ["corners"] 18
    (dm_nodes (mesh_new 5 52 19))
  = Fault (AssertionFailed 365).
Proof. vm_compute. reflexivity. Qed.



(** The third dual cell that lists a face is not rejected: the loop
    returns normally and the second cell is no longer recorded. *)
Lemma third_cell_is_not_rejected :
  exists dm',
    for_range 0 3 (compact_cell [Some [0]; Some [0]; Some [0]])
      one_face_three_cells = Ok dm'
    /\ dm_face_cells dm' = [0; 2].
Proof. eexists. split; vm_compute; reflexivity. Qed.

(** The construction on the stellated tetrahedron never returns. *)
Lemma dual_cells_never_assembled_witness :
  0 < num_nodes (skin_tagged [0; 1; 2; 3; 4; 5])
  /\ is_ok (create_dual_mesh_from_tet_mesh (skin_tagged [0; 1; 2; 3; 4; 5])
              ["skin"] [] ["ridges"] ["corners"]) = false.
Proof.
  assert (Hn : 0 < num_nodes (skin_tagged [0; 1; 2; 3; 4; 5]))
    by (simpl; lia).
  split; [exact Hn|].
  apply (dual_cells_never_assembled (skin_tagged [0; 1; 2; 3; 4; 5])
           ["skin"] [] ["ridges"] ["corners"] Hn).
Defined.

(** In a debugging build the assertion of line 571 stops the
    construction on the stellated tetrahedron: the counter is 10 and the
    number of faces allocated is 52. *)
Example edge_counter_assertion_fails :
  generate_dual_entities (skin_tagged [0; 1; 2; 3; 4; 5])
    ["skin"] [] ["ridges"] ["corners"] = Fault (AssertionFailed 571).
Proof. vm_compute. reflexivity. Qed.

(** Six tetrahedra around an axis, the interface through inner faces 0
    and 3: the first face would have [0 - 2 + 1] nodes. *)
Example symmetric_interface_edge_fails :
  generate_dual_entities (interface_tagged [])
    ["skin"] ["interface"] ["axis"] ["corners"] = Fault (AssertionFailed 508).
Proof. vm_compute. reflexivity. Qed.

(** ** The further properties on the sample meshes *)

(** Angles 1, 2 and 3. *)
Lemma dual_face_node_cmp_transitive_witness :
  dual_face_node_cmp {| angle := 1; index := 0 |} {| angle := 3; index := 2 |}
  = -1.
Proof.
  apply (dual_face_node_cmp_transitive _ {| angle := 2; index := 1 |});
    vm_compute; reflexivity.
Defined.

(** A NaN angle against the angle 1. *)
Lemma dual_face_node_cmp_nan_witness :
  dual_face_node_cmp {| angle := nan; index := 0 |} {| angle := 1; index := 1 |}
  = 0
  /\ dual_face_node_cmp {| angle := 1; index := 1 |} {| angle := nan; index := 0 |}
     = 0.
Proof.
  apply dual_face_node_cmp_nan. vm_compute. reflexivity.
Defined.

(** Three nodes, the endpoints at positions 2 and 0. *)
Lemma order_small_face_witness :
  exists dni',
    order_nodes_of_dual_face
      (plane_sp_func_new (pt 0 0 1) (pt 0 0 0)) (2, 0)
      [pt 1 0 0; pt 0 1 0; pt (-1) 0 0] 3 (uninit_tweener 0) [10; 11; 12]
    = Ok dni'
    /\ dni' ≡ₚ seqZ 0 3 /\ head dni' = Some 2 /\ last dni' = Some 0.
Proof.
  apply (order_small_face _ (2, 0));
    [right; reflexivity | reflexivity | simpl; lia | simpl; lia | simpl; lia].
Defined.

(** The boundary tets of the stellated tetrahedron with its skin
    tagged. *)
Lemma boundary_tets_of_tagged_faces_witness :
  exists ts,
    build_tagged_sets (skin_tagged [0; 1; 2; 3; 4; 5])
      ["skin"] [] ["ridges"] ["corners"] = Ok ts
    /\ (forall c, c ∈ external_boundary_tets ts <->
          exists face,
            face ∈ tagged (face_tags (skin_tagged [0; 1; 2; 3; 4; 5])) ["skin"]
            /\ face_has_tet (skin_tagged [0; 1; 2; 3; 4; 5]) face c).
Proof.
  name_stage ts H.
  exact (proj1 (boundary_tets_of_tagged_faces _ _ _ _ _ _ H)).
Defined.

(** There the four corners are model vertices, and are in neither node
    set. *)
Lemma model_vertices_leave_node_sets_witness :
  exists ts,
    build_tagged_sets (skin_tagged [0; 1; 2; 3; 4; 5])
      ["skin"] [] ["ridges"] ["corners"] = Ok ts
    /\ model_vertices ts ## all_model_face_nodes ts
    /\ model_vertices ts ## model_edge_nodes ts.
Proof.
  name_stage ts H.
  exact (proj2 (proj2 (model_vertices_leave_node_sets _ _ _ _ _ _ H))).
Defined.

(** The cells around primal edge 6, which joins node 0 to the interior
    node. *)
Lemma cells_and_faces_around_edge_witness :
  exists ts,
    build_tagged_sets (skin_tagged [0; 1; 2; 3; 4; 5])
      ["skin"] [] ["ridges"] ["corners"] = Ok ts
    /\ exists inc,
         build_incidence (skin_tagged [0; 1; 2; 3; 4; 5]) ts = Ok inc
         /\ forall c, c ∈ set_at (primal_cells_for_edge inc) 6 <->
              exists face,
                face_of_cell (skin_tagged [0; 1; 2; 3; 4; 5]) c face
                /\ 6 ∈ mesh_face_edges (skin_tagged [0; 1; 2; 3; 4; 5]) face.
Proof.
  run_stage. name_stage inc H.
  exact (proj1 (cells_and_faces_around_edge _ _ _ 6 H)).
Defined.

(** The interior node 4 is on no tagged face. *)
Lemma boundary_faces_at_node_witness :
  exists ts,
    build_tagged_sets (skin_tagged [0; 1; 2; 3; 4; 5])
      ["skin"] [] ["ridges"] ["corners"] = Ok ts
    /\ exists inc,
         build_incidence (skin_tagged [0; 1; 2; 3; 4; 5]) ts = Ok inc
         /\ (arr_get (primal_boundary_faces_for_node inc) 4 = Ok None
             <-> forall cell face,
                   face_of_cell (skin_tagged [0; 1; 2; 3; 4; 5]) cell face ->
                   is_model_face ts face = true ->
                   4 ∉ mesh_face_nodes (skin_tagged [0; 1; 2; 3; 4; 5]) face).
Proof.
  run_stage. name_stage inc H.
  apply (proj2 (boundary_faces_at_node _ _ _ 4 H)).
  change (0 <= 4 < 5). lia.
Defined.

(** The count is reached on the stellated tetrahedron: every tagged edge
    is an edge of a face of a cell. *)
Lemma tagged_edges_and_vertices_need_faces_witness :
  exists ts,
    build_tagged_sets (skin_tagged [0; 1; 2; 3; 4; 5])
      ["skin"] [] ["ridges"] ["corners"] = Ok ts
    /\ exists inc,
         build_incidence (skin_tagged [0; 1; 2; 3; 4; 5]) ts = Ok inc
    /\ exists n,
         count_dual_faces_from_boundary_vertices
           (skin_tagged [0; 1; 2; 3; 4; 5]) ts inc = Ok n
         /\ forall edge, edge ∈ model_edges ts ->
              exists cell face,
                face_of_cell (skin_tagged [0; 1; 2; 3; 4; 5]) cell face
                /\ edge ∈ mesh_face_edges (skin_tagged [0; 1; 2; 3; 4; 5]) face.
Proof.
  run_stage. run_stage. name_stage n Hn.
  refine (proj1 (tagged_edges_and_vertices_need_faces _ _ _ _ _ Hn)).
  vm_compute. reflexivity.
Defined.

(** Outer face 2 is bound to a dual node of the face block, which holds
    its centre. *)
Lemma face_lookup_round_trip_witness :
  exists st,
    generate_dual_vertices (skin_tagged [0; 1; 2; 3; 4; 5])
      ["skin"] [] ["ridges"] ["corners"] 18 (dm_nodes (mesh_new 5 52 18))
    = Ok st
    /\ exists k p,
         dual_node_for_model_face st !! 2 = Some k
         /\ 4 <= k < 8
         /\ arr_get (face_centers (skin_tagged [0; 1; 2; 3; 4; 5])) 2 = Ok p
         /\ arr_get (dv_nodes st) k = Ok p.
Proof.
  name_stage st H.
  assert (Hnc : 0 <= num_cells (skin_tagged [0; 1; 2; 3; 4; 5]))
    by (simpl; lia).
  pose proof (face_lookup_round_trip _ _ _ _ _ _ _ _ 2 Hnc H) as H2.
  destruct (dual_node_for_model_face st !! 2) as [k|].
  - destruct H2 as (_ & Hk & p & Hp & Hq). exists k, p. auto.
  - exfalso. apply H2. vm_compute. repeat constructor.
Defined.

(** Three cells in a row, all of them external boundary tets. *)
Lemma endpoints_are_first_and_last_boundary_tets_witness :
  exists ts,
    build_tagged_sets (skin_tagged [0; 1; 2; 3; 4; 5])
      ["skin"] [] ["ridges"] ["corners"] = Ok ts
    /\ exists g,
         for_each (gather_boundary_cell (skin_tagged [0; 1; 2; 3; 4; 5]) ts)
           [0; 1; 2]
           {| g_c := 0; g_dual_nodes := replicate 3 (pt 0 0 0);
              g_dual_node_indices := replicate 3 0;
              g_endpoint_indices := (-1, -1) |} = Ok g
         /\ g_endpoint_indices g = first_and_last (boundary_positions ts [0; 1; 2]).
Proof.
  run_stage. name_stage g H.
  exact (proj1 (endpoints_are_first_and_last_boundary_tets _ _ _ _ _ _ H)).
Defined.

(** There the endpoints are the positions 0 and 2. *)
Example endpoints_of_three_boundary_tets :
  (ts ← build_tagged_sets (skin_tagged [0; 1; 2; 3; 4; 5])
          ["skin"] [] ["ridges"] ["corners"];
   g ← for_each (gather_boundary_cell (skin_tagged [0; 1; 2; 3; 4; 5]) ts)
         [0; 1; 2]
         {| g_c := 0; g_dual_nodes := replicate 3 (pt 0 0 0);
            g_dual_node_indices := replicate 3 0;
            g_endpoint_indices := (-1, -1) |};
   Ok (g_endpoint_indices g, boundary_positions ts [0; 1; 2]))
  = Ok ((0, 2), [0; 1; 2]).
Proof. vm_compute. reflexivity. Qed.

(** Primal edge 0 of the stellated tetrahedron, a tagged edge between
    the boundary tets 0 and 1. *)
Lemma external_edge_needs_two_cells_witness :
  exists ts,
    build_tagged_sets (skin_tagged [0; 1; 2; 3; 4; 5])
      ["skin"] [] ["ridges"] ["corners"] = Ok ts
    /\ exists st',
         external_face_edge (skin_tagged [0; 1; 2; 3; 4; 5]) ts {[0 := 8]}
           true (Some {[0; 1]})
           {| df_offset := 0; face_node_offsets := replicate 53 0;
              nodes_for_dual_face := replicate 52 None |} 0 = Ok st'
         /\ (2 <= size (({[0%Z; 1%Z]} : gset Z) ∩ external_boundary_tets ts))%nat.
Proof.
  run_stage. name_stage st' H.
  destruct (external_edge_needs_two_cells _ _ _ _ _ _ _ _ H)
    as (s & Hs & H2 & Hd).
  injection Hs as <-. exact (proj2 (Hd eq_refl)).
Defined.

(** With the skin tagged and no edge, an outer edge has two incident
    cells and its dual face two nodes: the assertion of line 423 fails. *)
Example external_face_of_two_nodes :
  generate_dual_entities face_tagged ["skin"] [] ["ridges"] ["corners"]
  = Fault (AssertionFailed 423).
Proof. vm_compute. reflexivity. Qed.

(** Primal edge 6 of the stellated tetrahedron, between the cells 0, 1
    and 2. *)
Lemma interior_face_lists_positions_witness :
  exists st',
    interior_edge (stellated_tet ∅ ∅ ∅) (Some {[0; 1; 2]})
      {| df_offset := 0; face_node_offsets := replicate 11 0;
         nodes_for_dual_face := replicate 10 None |} 6 = Ok st'
    /\ exists centers,
         centers_of (stellated_tet ∅ ∅ ∅) (elements ({[0; 1; 2]} : gset Z))
           centers
         /\ arr_get (nodes_for_dual_face st') 0
            = Ok (Some (take 3 (polygon_giftwrap_ordering centers))).
Proof.
  name_stage st' H.
  destruct (interior_face_lists_positions _ _ _ _ _ H)
    as (s & centers & Hs & Hc & Hle & Hface & Hdf).
  injection Hs as <-. exists centers. split; [exact Hc | exact Hface].
Defined.

(** Primal edge 9, between the cells 1, 2 and 3: the dual face lists
    positions, position 0 among them, and not the cells. *)
Example interior_face_of_cells_1_2_3 :
  (st' ← interior_edge (stellated_tet ∅ ∅ ∅) (Some {[1; 2; 3]})
           {| df_offset := 0; face_node_offsets := replicate 11 0;
              nodes_for_dual_face := replicate 10 None |} 9;
   Ok (nodes_for_dual_face st' !! 0%nat))
  = Ok (Some (Some [2; 0; 1])).
Proof. vm_compute. reflexivity. Qed.

(** Six tetrahedra around the axis, the interface through inner faces 1
    and 3, the ordering starting at cell 3. *)
Lemma transition_indices_are_cells_witness :
  let m := ring_mesh {[ "skin" := []; "interface" := [1; 3] ]}
             {[ "axis" := [] ]} {[ "corners" := [] ]} in
  exists ts,
    build_tagged_sets m ["skin"] ["interface"] ["axis"] ["corners"] = Ok ts
    /\ exists t,
         for_range 0 6
           (find_transition m ts 6 [0; 1; 2; 3; 4; 5] [3; 4; 5; 0; 1; 2])
           {| start_index1 := -1; start_index2 := -1;
              stop_index1 := -1; stop_index2 := -1 |} = Ok t
         /\ ((start_index1 t = -1 /\ stop_index2 t = -1)
             \/ is_transition m ts 6 [0; 1; 2; 3; 4; 5] [3; 4; 5; 0; 1; 2]
                  (stop_index2 t) (start_index1 t)).
Proof.
  intros m. run_stage. name_stage t H.
  exact (proj1 (transition_indices_are_cells _ _ _ _ _ _ H)).
Defined.

(** There the transitions are at positions 3 and 5 of the ordering; the
    indices kept are the cells 0, 1 and 2, 3. *)
Example transitions_of_the_interface :
  let m := ring_mesh {[ "skin" := []; "interface" := [1; 3] ]}
             {[ "axis" := [] ]} {[ "corners" := [] ]} in
  (ts ← build_tagged_sets m ["skin"] ["interface"] ["axis"] ["corners"];
   for_range 0 6
     (find_transition m ts 6 [0; 1; 2; 3; 4; 5] [3; 4; 5; 0; 1; 2])
     {| start_index1 := -1; start_index2 := -1;
        stop_index1 := -1; stop_index2 := -1 |})
  = Ok {| start_index1 := 1; start_index2 := 3;
          stop_index1 := 2; stop_index2 := 0 |}.
Proof. vm_compute. reflexivity. Qed.

(** Two faces of three and of two nodes. *)
Lemma compaction_needs_every_face_witness :
  exists dm',
    for_range 0 2 (compact_face [Some [0; 1; 2]; Some [2; 3]]) two_faces
    = Ok dm'
    /\ exists face, arr_get [Some [0; 1; 2]; Some [2; 3]] 1 = Ok (Some face).
Proof.
  name_stage dm' H.
  apply (compaction_needs_every_face _ 2 two_faces dm' 1 H). lia.
Defined.

Lemma compaction_flattens_faces_witness :
  for_range 0 2 (compact_face [Some [0; 1; 2]; Some [2; 3]]) two_faces
  = Ok (with_face_nodes two_faces [0; 1; 2; 2; 3]).
Proof.
  apply (compaction_flattens_faces [[0; 1; 2]; [2; 3]] two_faces).
  - reflexivity.
  - intros [|[|k]] face Hk; simpl in Hk; try discriminate;
      injection Hk as <-; eexists; split; reflexivity.
  - reflexivity.
Defined.

End DebuggingBuild.

Section ReleaseBuild.
Import Samples.
#[local] Existing Instance Reference.release_build.

(** The stellated tetrahedron: 52 dual faces are allocated, 16 of them
    for the 10 primal edges and the 6 edges of tagged external faces; the
    loop over the primal edges ends with the counter at 10. *)
Lemma edge_loop_face_counter_witness :
  exists ts,
    build_tagged_sets (skin_tagged [0; 1; 2; 3; 4; 5])
      ["skin"] [] ["ridges"] ["corners"] = Ok ts
    /\ exists inc,
         build_incidence (skin_tagged [0; 1; 2; 3; 4; 5]) ts = Ok inc
    /\ exists vs,
         generate_dual_vertices (skin_tagged [0; 1; 2; 3; 4; 5])
           ["skin"] [] ["ridges"] ["corners"] 18
           (dm_nodes (mesh_new 5 52 18)) = Ok vs
    /\ exists fs,
         generate_edge_faces (skin_tagged [0; 1; 2; 3; 4; 5]) ts inc
           (dual_node_for_edge vs)
           (count_dual_faces (skin_tagged [0; 1; 2; 3; 4; 5]) ts 36)
           (dm_face_node_offsets (mesh_new 5 52 18)) = Ok fs
    /\ count_dual_faces (skin_tagged [0; 1; 2; 3; 4; 5]) ts 36 = 10 + 6 + 36
    /\ df_offset fs = 10.
Proof.
  run_stage. run_stage. run_stage. name_stage fs Hfs.
  match type of Hfs with
  | generate_edge_faces ?m ?ts ?inc ?dnfe _ ?fno = _ =>
      destruct (edge_loop_face_counter m ts inc dnfe 36 fno fs) as [Hc Hdf];
        [simpl; lia | exact Hfs |]
  end.
  split; [rewrite Hc; vm_compute; reflexivity|].
  rewrite Hdf. vm_compute. reflexivity.
Defined.

(** Six tetrahedra around an axis, the interface through inner faces 1
    and 3, which leaves cells 1, 2 on one side and cells 3, 4, 5, 0 on the
    other: the branch returns the faces [[5; 0; 5; 4]] and [[]]. *)
Lemma interface_faces_are_not_the_arcs_witness :
  let m := ring_mesh {[ "skin" := []; "interface" := [1; 3] ]}
             {[ "axis" := [] ]} {[ "corners" := [] ]} in
  exists ts,
    build_tagged_sets m ["skin"] ["interface"] ["axis"] ["corners"] = Ok ts
    /\ exists inc, build_incidence m ts = Ok inc
    /\ exists cells, arr_get (primal_cells_for_edge inc) 0 = Ok cells
    /\ exists st',
         internal_face_edge m ts ∅ false cells
           {| df_offset := 0;
              face_node_offsets := dm_face_node_offsets (mesh_new 8 25 8);
              nodes_for_dual_face := replicate 25 None |} 0 = Ok st'
    /\ df_offset st' = 2
    /\ nodes_for_dual_face st' !! 0%nat = Some (Some [5; 0; 5; 4])
    /\ nodes_for_dual_face st' !! 1%nat = Some (Some []).
Proof.
  intros m. run_stage. run_stage. run_stage. name_stage st' H.
  destruct (interface_faces_are_not_the_arcs _ _ _ _ _ _ _ _ H)
    as (Hdf & n2 & Hf2).
  split; [exact Hdf|].
  vm_compute in H. injection H as <-.
  split; reflexivity.
Defined.

(** The stellated tetrahedron with the outer edges tagged in the order
    [[1; 0; 2; 3; 4; 5]]: the dual face of primal edge 0 ends with dual
    vertex 8, the midpoint of primal edge 1; the midpoint of primal edge
    0 is dual vertex 9. *)
Example model_edge_face_ends_with_other_vertex :
  let m := skin_tagged [1; 0; 2; 3; 4; 5] in
  (ts ← build_tagged_sets m ["skin"] [] ["ridges"] ["corners"];
   inc ← build_incidence m ts;
   vs ← generate_dual_vertices m ["skin"] [] ["ridges"] ["corners"] 18
          (dm_nodes (mesh_new 5 52 18));
   fs ← dual_faces_for_edge m ts inc (dual_node_for_edge vs)
          {| df_offset := 0;
             face_node_offsets := dm_face_node_offsets (mesh_new 5 52 18);
             nodes_for_dual_face := replicate 52 None |} 0;
   Ok (nodes_for_dual_face fs !! 0%nat,
       dv_nodes vs !! 8%nat, edge_midpoint m 1,
       dv_nodes vs !! 9%nat, edge_midpoint m 0))
  = Ok (Some (Some [0; 1; 8]),
        Some (pt 0 0.5 0), Ok (pt 0 0.5 0),
        Some (pt 0.5 0 0), Ok (pt 0.5 0 0)).
Proof. vm_compute. reflexivity. Qed.

(** An internal-interface edge that is a model edge: the axis of the six
    tetrahedra, tagged.  The storage of the arrays being exactly their
    elements, the write of line 539 is outside it. *)
Example interface_model_edge_fails :
  generate_dual_entities
    (ring_mesh {[ "skin" := []; "interface" := [1; 3] ]}
       {[ "axis" := [0] ]} {[ "corners" := [] ]})
    ["skin"] ["interface"] ["axis"] ["corners"] = Fault OutOfBounds.
Proof. vm_compute. reflexivity. Qed.

(** The stellated tetrahedron with its skin tagged and no edge or
    vertex: 28 dual faces are allocated, the loop over the primal edges
    stores 10 of them, and the four outer nodes each get a dual face. *)
Lemma node_faces_leave_offsets_witness :
  exists ts,
    build_tagged_sets face_tagged ["skin"] [] ["ridges"] ["corners"] = Ok ts
    /\ exists inc, build_incidence face_tagged ts = Ok inc
    /\ exists vs,
         generate_dual_vertices face_tagged ["skin"] [] ["ridges"] ["corners"]
           8 (dm_nodes (mesh_new 5 28 8)) = Ok vs
    /\ exists fs,
         generate_edge_faces face_tagged ts inc (dual_node_for_edge vs) 28
           (dm_face_node_offsets (mesh_new 5 28 8)) = Ok fs
    /\ exists fs',
         generate_node_faces ts inc vs fs = Ok fs'
         /\ face_node_offsets fs' = face_node_offsets fs
         /\ df_offset fs'
            = df_offset fs + int_unordered_set_size (face_only_nodes ts).
Proof.
  run_stage. run_stage. run_stage. run_stage. name_stage fs' H.
  destruct (node_faces_leave_offsets _ _ _ _ _ H) as (Ho & Hd & _).
  split; [exact Ho | exact Hd].
Defined.

(** The counter goes from 10 to 14, and the first of the four faces lists
    positions in the local array of face centres. *)
Example four_node_faces :
  (ts ← build_tagged_sets face_tagged ["skin"] [] ["ridges"] ["corners"];
   inc ← build_incidence face_tagged ts;
   vs ← generate_dual_vertices face_tagged ["skin"] [] ["ridges"] ["corners"]
          8 (dm_nodes (mesh_new 5 28 8));
   fs ← generate_edge_faces face_tagged ts inc (dual_node_for_edge vs) 28
          (dm_face_node_offsets (mesh_new 5 28 8));
   fs' ← generate_node_faces ts inc vs fs;
   Ok (df_offset fs, df_offset fs',
       int_unordered_set_size (face_only_nodes ts),
       nodes_for_dual_face fs' !! 10%nat))
  = Ok (10, 14, 4, Some (Some [2; 0; 1])).
Proof. vm_compute. reflexivity. Qed.

(** There the counter is 10 and the array has 28 slots: room for the
    four faces. *)
Lemma node_faces_need_room_witness :
  exists ts,
    build_tagged_sets face_tagged ["skin"] [] ["ridges"] ["corners"] = Ok ts
    /\ exists inc, build_incidence face_tagged ts = Ok inc
    /\ exists vs,
         generate_dual_vertices face_tagged ["skin"] [] ["ridges"] ["corners"]
           8 (dm_nodes (mesh_new 5 28 8)) = Ok vs
    /\ exists fs,
         generate_edge_faces face_tagged ts inc (dual_node_for_edge vs) 28
           (dm_face_node_offsets (mesh_new 5 28 8)) = Ok fs
    /\ exists fs',
         generate_node_faces ts inc vs fs = Ok fs'
         /\ face_only_nodes ts <> ∅
         /\ 0 <= df_offset fs
         /\ df_offset fs + int_unordered_set_size (face_only_nodes ts)
            <= Z.of_nat (length (nodes_for_dual_face fs)).
Proof.
  run_stage. run_stage. run_stage. run_stage. name_stage fs' H.
  match goal with
  | |- ?A /\ _ =>
      assert (Hne : A)
        by (intros He;
            refine (not_elem_of_empty (C := gset Z) 0 _); rewrite <- He;
            apply (bool_decide_unpack _); vm_compute; exact I)
  end.
  split; [exact Hne|].
  exact (node_faces_need_room _ _ _ _ _ H Hne).
Defined.

(** With the face lists of the dual cells all NULL the loop of lines
    651-663 stops at dual cell 0: no slot of [face_cells] is written. *)
Example compaction_reaches_no_face_cell :
  create_dual_mesh_from_tet_mesh face_tagged ["skin"] [] ["ridges"] ["corners"]
  = Fault NullPointer.
Proof. vm_compute. reflexivity. Qed.

End ReleaseBuild.

Section RoomyBuild.
Import Samples.
#[local] Existing Instance Reference.roomy_build.

(** Six tetrahedra around the axis, the interface through inner faces 1
    and 3 and no model edge: the axis and four spokes are
    internal-interface edges, 24 dual faces are stored. *)
Lemma edge_faces_are_laid_out_witness :
  let m := ring_mesh {[ "skin" := []; "interface" := [1; 3] ]}
             {[ "axis" := [] ]} {[ "corners" := [] ]} in
  exists ts,
    build_tagged_sets m ["skin"] ["interface"] ["axis"] ["corners"] = Ok ts
    /\ exists inc, build_incidence m ts = Ok inc
    /\ exists fs,
         generate_edge_faces m ts inc ∅ 40
           (dm_face_node_offsets (mesh_new 8 40 8)) = Ok fs
         /\ (forall edge, is_interface_only_edge ts edge = true ->
               int_unordered_set_contains (model_edges ts) edge = false)
         /\ arr_get (face_node_offsets fs) 0 = Ok 0
         /\ (forall k, 0 <= k < df_offset fs ->
               exists face off,
                 arr_get (nodes_for_dual_face fs) k = Ok (Some face)
                 /\ arr_get (face_node_offsets fs) k = Ok off
                 /\ arr_get (face_node_offsets fs) (k + 1)
                    = Ok (off + Z.of_nat (length face)))
         /\ (forall k, df_offset fs <= k < 40 ->
               arr_get (nodes_for_dual_face fs) k = Ok None).
Proof.
  intros m. run_stage. run_stage. name_stage fs H.
  match goal with
  | |- ?A /\ _ =>
      assert (Hplain : A)
        by (intros edge _; apply bool_decide_eq_false;
            exact (not_elem_of_empty (C := gset Z) edge))
  end.
  split; [exact Hplain|].
  exact (edge_faces_are_laid_out _ _ _ _ _ _ _ Hplain H).
Defined.

(** The first faces and their offsets. *)
Example interface_faces_of_five_edges :
  let m := ring_mesh {[ "skin" := []; "interface" := [1; 3] ]}
             {[ "axis" := [] ]} {[ "corners" := [] ]} in
  (ts ← build_tagged_sets m ["skin"] ["interface"] ["axis"] ["corners"];
   inc ← build_incidence m ts;
   fs ← generate_edge_faces m ts inc ∅ 40
          (dm_face_node_offsets (mesh_new 8 40 8));
   Ok (df_offset fs, take 5 (face_node_offsets fs),
       take 4 (nodes_for_dual_face fs)))
  = Ok (24, [0; 4; 4; 6; 7],
        [Some [5; 0; 5; 4]; Some []; Some [0; 1]; Some [0]]).
Proof. vm_compute. reflexivity. Qed.

(** With the axis a model edge, whose dual vertex is 8: the offsets count
    5 and 1 nodes, the two faces hold 4 and 0, and 8 is not among them. *)
Example interface_model_edge_faces_lack_the_vertex :
  let m := ring_mesh {[ "skin" := []; "interface" := [1; 3] ]}
             {[ "axis" := [0] ]} {[ "corners" := [] ]} in
  (ts ← build_tagged_sets m ["skin"] ["interface"] ["axis"] ["corners"];
   inc ← build_incidence m ts;
   vs ← generate_dual_vertices m ["skin"] ["interface"] ["axis"] ["corners"]
          9 (dm_nodes (mesh_new 8 27 9));
   cells ← arr_get (primal_cells_for_edge inc) 0;
   st ← internal_face_edge m ts (dual_node_for_edge vs) true cells
          {| df_offset := 0;
             face_node_offsets := dm_face_node_offsets (mesh_new 8 27 9);
             nodes_for_dual_face := replicate 27 None |} 0;
   Ok (dual_node_for_edge vs !! 0, take 3 (face_node_offsets st),
       take 2 (nodes_for_dual_face st)))
  = Ok (Some 8, [0; 5; 6], [Some [5; 0; 5; 4]; Some []]).
Proof. vm_compute. reflexivity. Qed.
End RoomyBuild.
